(** * ikigai.components.model: builders, entities and browser for models

    A shallow embedding of [src/ikigai/components/model.py].  The classes of
    that file are thin wrappers around a remote client: every method is a
    remote call or two, a pydantic validation of the answer, and sometimes
    an assignment to a field of [self].  The embedding keeps exactly that:

    - Python values that a decoded remote record can hold are the type
      [Any]; a record ([Mapping[str, Any]]) is a [gmap string Any];
    - a [dict] built by this file (a literal or a comprehension) is an
      insertion-ordered association list with Python's [d[k] = v];
    - exceptions are values of [Exception], a call returns [Ok] or [Raise];
    - the remote side is a state [Remote] threaded through the client's
      endpoints; every request is appended to a [trace];
    - [Model] instances are mutated by their own methods, so they live in an
      object store and a method receives and returns a reference.

    The [logger.debug] lines of the [from_dict] methods write to the log
    only and are left out. *)

From Stdlib Require Import ZArith.
From stdpp Require Import gmap strings list fin_maps.

Open Scope string_scope.
Open Scope list_scope.

(** ** Python values, exceptions, dictionaries *)

(** What a record coming back from the client can hold: the values of a
    decoded JSON document.  A float is kept as the bit pattern of its IEEE
    double; nothing in this file looks inside one. *)
#[warnings="-register-all"]
Inductive Any : Type :=
| PyNone
| PyBool (b : bool)
| PyInt (z : Z)
| PyFloat (bits : Z)
| PyStr (s : string)
| PyList (l : list Any)
| PyDict (d : gmap string Any).

(** [Mapping[str, Any]] *)
Abbreviation Mapping := (gmap string Any) (only parsing).

Inductive Exception : Type :=
| ValueError (msg : string)
| KeyError (key : string)
| TypeError (msg : string)
| AttributeError (attr : string)
| ValidationError (title : string) (locs : list string)
| OtherError (cls : string) (msg : string).

Inductive Result (A : Type) : Type :=
| Ok (a : A)
| Raise (e : Exception).
Arguments Ok {A} a.
Arguments Raise {A} e.

(** A Python [dict] with [str] keys: the items in insertion order, every key
    at most once when built with [dict_setitem] from the empty dict. *)
Definition dict (V : Type) : Type := list (string * V).

(** [d[k] = v]: an existing key keeps its position and takes the new value,
    a new key goes to the end. *)
Fixpoint dict_setitem {V : Type} (k : string) (v : V) (d : dict V) : dict V :=
  match d with
  | [] => [(k, v)]
  | (k', v') :: d' =>
      if decide (k' = k) then (k', v) :: d' else (k', v') :: dict_setitem k v d'
  end.

(** [d.get(k)] *)
Fixpoint dict_get {V : Type} (k : string) (d : dict V) : option V :=
  match d with
  | [] => None
  | (k', v') :: d' => if decide (k' = k) then Some v' else dict_get k d'
  end.

Definition dict_keys {V : Type} (d : dict V) : list string := map fst d.
Definition dict_values {V : Type} (d : dict V) : list V := map snd d.

(** [d.update(items)]: the items inserted from left to right. *)
Definition insert_items {V : Type} (items : list (string * V)) (d : dict V) : dict V :=
  fold_left (fun d kv => dict_setitem (fst kv) (snd kv) d) items d.

(** [dict(items)], and a dict display [{k1: v1, k2: v2, ...}]. *)
Definition dict_of_items {V : Type} (items : list (string * V)) : dict V :=
  insert_items items [].

(** [mapping[key]] on a record: [KeyError] when the key is absent. *)
Definition getitem (data : Mapping) (key : string) : Result Any :=
  match data !! key with
  | Some v => Ok v
  | None => Raise (KeyError key)
  end.

(** [{key: value, **data}]: the entries of [data] come later and win. *)
Definition dict_unpack_over (key : string) (value : Any) (data : Mapping) : Mapping :=
  data ∪ {[ key := value ]}.

(** For statements about the alias: the same record with its [project_id]
    entry moved under key [app_id]. *)
Definition keyed_by_app_id (data : Mapping) (v : Any) : Mapping :=
  <["app_id" := v]> (delete "project_id" data).

(** ** The external collaborators *)

(** The types this file imports and never inspects, and pydantic's
    [datetime] validator, whose parsing rules are pydantic's own. *)
Class Platform : Type := {
  Remote : Type;
  Directory : Type;
  SubModelSpec : Type;
  datetime : Type;
  validate_datetime : Any -> option datetime;
}.

(** Modelled from the spec: [ikigai.utils.DirectoryType] is not in the
    source tree.  The spec calls it the directory-type enumeration, whose
    member [MODEL] tags a model directory and whose other members tag the
    directory kinds managed elsewhere. *)
Inductive DirectoryType : Type :=
| MODEL
| OTHER_KIND (tag : string).

(** Modelled from the spec: [ikigai.typing.NamedMapping] is not in the
    source tree.  The spec describes an order-preserving container indexed
    by name or id that listing operations return; it is built from a [dict]
    and exposes that dict's items in the dict's order. *)
Definition NamedMapping {V : Type} (mapping : dict V) : dict V := mapping.

(** *** pydantic field validation *)

(** A [str] field (lax mode): of the values of [Any], only a string. *)
Definition validate_str (v : Any) : option string :=
  match v with
  | PyStr s => Some s
  | _ => None
  end.

(** A [dict[str, Any]] field. *)
Definition validate_dict (v : Any) : option (gmap string Any) :=
  match v with
  | PyDict d => Some d
  | _ => None
  end.

(** [AliasChoices(c1, c2, ...)]: the first choice present in the input is
    the one that is read. *)
Fixpoint alias_choices (choices : list string) (data : Mapping) : option (string * Any) :=
  match choices with
  | [] => None
  | key :: rest =>
      match data !! key with
      | Some v => Some (key, v)
      | None => alias_choices rest data
      end
  end.

(** A required field: [inr] the validated value, or [inl] the location of
    the error (the first alias when the field is missing, the key that was
    read when its value is refused). *)
Definition validate_field {A : Type} (choices : list string)
    (validator : Any -> option A) (data : Mapping) : string + A :=
  match alias_choices choices data with
  | None => inl (hd "" choices)
  | Some (key, v) =>
      match validator v with
      | Some a => inr a
      | None => inl key
      end
  end.

Definition error_loc {A : Type} (field : string + A) : list string :=
  match field with
  | inl loc => [loc]
  | inr _ => []
  end.

(** *** The client *)

Section ClientInterface.
Context `{Platform}.

(** Modelled from the spec: [ikigai.client.Client] is not in the source
    tree.  The spec lists the endpoints of its [component] and [search]
    dispatchers; an endpoint reads and changes the remote state and
    returns or raises. *)
Record ComponentAPI : Type := {
  create_model :
    string -> string -> option Directory -> SubModelSpec -> string ->
    Remote -> Result string * Remote;
  get_model :
    string -> string -> Remote -> Result (gmap string Any) * Remote;
  edit_model :
    string -> string -> option string -> option Directory -> option string ->
    Remote -> Result unit * Remote;
  get_model_versions :
    string -> string -> Remote -> Result (list (gmap string Any)) * Remote;
}.

Record SearchAPI : Type := {
  search_models_for_project :
    string -> string -> Remote -> Result (list (gmap string Any)) * Remote;
}.

Record Client : Type := {
  component : ComponentAPI;
  search : SearchAPI;
}.

(** The requests, as they are written in the source (keyword arguments
    left out of a call are [None]). *)
Inductive Request : Type :=
| CreateModel (app_id name : string) (directory : option Directory)
    (model_type : SubModelSpec) (description : string)
| GetModel (app_id model_id : string)
| EditModel (app_id model_id : string) (name : option string)
    (directory : option Directory) (description : option string)
| GetModelVersions (app_id model_id : string)
| SearchModelsForProject (app_id query : string).
End ClientInterface.

(** ** The world and the monad of methods *)

Section World.
Context `{Platform}.
(** The class of the objects in the store. *)
Context {Obj : Type}.

Record World : Type := {
  remote : Remote;
  trace : list Request;
  heap : list Obj;
}.

Definition M (A : Type) : Type := World -> Result A * World.

Definition ret {A : Type} (a : A) : M A := fun w => (Ok a, w).

Definition raise {A : Type} (e : Exception) : M A := fun w => (Raise e, w).

Definition bind {A B : Type} (m : M A) (k : A -> M B) : M B :=
  fun w =>
    match m w with
    | (Ok a, w') => k a w'
    | (Raise e, w') => (Raise e, w')
    end.

(** A pure validation that can raise. *)
Definition lift {A : Type} (r : Result A) : M A := fun w => (r, w).

(** One request to the remote side: it is logged, the endpoint runs on the
    remote state, its answer or exception is the call's. *)
Definition request {A : Type} (rq : Request)
    (endpoint : Remote -> Result A * Remote) : M A :=
  fun w =>
    let (r, s') := endpoint (remote w) in
    (r, {| remote := s'; trace := trace w ++ [rq]; heap := heap w |}).

(** A new object: its reference is the next free index of the store. *)
Definition alloc (o : Obj) : M nat :=
  fun w =>
    (Ok (length (heap w)),
     {| remote := remote w; trace := trace w; heap := heap w ++ [o] |}).

(** Reading [self].  A method always runs on a live object; the second
    branch is there to make the function total. *)
Definition load (self : nat) : M Obj :=
  fun w =>
    match heap w !! self with
    | Some o => (Ok o, w)
    | None => (Raise (OtherError "ReferenceError" "no such object"), w)
    end.

(** An assignment to attributes of [self]. *)
Definition store (self : nat) (o : Obj) : M unit :=
  fun w =>
    (Ok tt,
     {| remote := remote w; trace := trace w; heap := <[self := o]> (heap w) |}).
End World.

Arguments World {_} Obj.
Arguments M {_} Obj A.

Declare Scope py_scope.
Delimit Scope py_scope with py.
Notation "x <- m ;; k" := (bind m (fun x => k))
  (at level 100, m at next level, right associativity) : py_scope.
Notation "m ;;; k" := (bind m (fun _ => k))
  (at level 100, right associativity) : py_scope.
Open Scope py_scope.

(** The endpoints as methods call them: the request is logged, then served. *)
Section Calls.
Context `{Platform} {Obj : Type}.

Definition call_create_model (client : Client) (app_id name : string)
    (directory : option Directory) (model_type : SubModelSpec)
    (description : string) : M Obj string :=
  request (CreateModel app_id name directory model_type description)
    (create_model (component client) app_id name directory model_type description).

Definition call_get_model (client : Client) (app_id model_id : string)
    : M Obj (gmap string Any) :=
  request (GetModel app_id model_id)
    (get_model (component client) app_id model_id).

Definition call_edit_model (client : Client) (app_id model_id : string)
    (name : option string) (directory : option Directory)
    (description : option string) : M Obj unit :=
  request (EditModel app_id model_id name directory description)
    (edit_model (component client) app_id model_id name directory description).

Definition call_get_model_versions (client : Client) (app_id model_id : string)
    : M Obj (list (gmap string Any)) :=
  request (GetModelVersions app_id model_id)
    (get_model_versions (component client) app_id model_id).

Definition call_search_models_for_project (client : Client)
    (app_id query : string) : M Obj (list (gmap string Any)) :=
  request (SearchModelsForProject app_id query)
    (search_models_for_project (search client) app_id query).
End Calls.

(** Modelled from the spec: the endpoints of the [component] dispatcher of
    [ikigai.client.Client] that the methods above do not use.  The spec
    lists them with these arguments; each one is reached through a client
    object, reads and changes the remote state, and returns or raises. *)
Class Endpoints `{Platform} : Type := {
  delete_model :
    Client -> string -> string -> Remote -> Result unit * Remote;
  get_model_by_name :
    Client -> string -> string -> Remote -> Result (gmap string Any) * Remote;
  get_models_for_app :
    Client -> string -> option string ->
    Remote -> Result (list (gmap string Any)) * Remote;
  get_model_version :
    Client -> string -> string -> Remote -> Result (gmap string Any) * Remote;
  create_model_directory :
    Client -> string -> string -> option Directory ->
    Remote -> Result string * Remote;
  get_model_directory :
    Client -> string -> string -> Remote -> Result (gmap string Any) * Remote;
  get_model_directories_for_app :
    Client -> string -> option Directory ->
    Remote -> Result (list (gmap string Any)) * Remote;
}.

Section Serve.
Context `{Platform} {Obj : Type}.

(** A call to one of the endpoints of [Endpoints]: the endpoint runs on the
    remote state, its answer or exception is the call's.  The [trace] keeps
    the requests of the five kinds of [Request] only; a call served here
    shows in the remote state. *)
Definition serve {A : Type} (endpoint : Remote -> Result A * Remote) : M Obj A :=
  fun w =>
    let (r, s') := endpoint (remote w) in
    (r, {| remote := s'; trace := trace w; heap := heap w |}).
End Serve.

(** ** class ModelVersion *)

(** No method of the file assigns to a [ModelVersion] or a [ModelDirectory],
    so their instances are plain values. *)
Module ModelVersion.
Section Defs.
Context `{Platform}.

Record t : Type := {
  app_id : string;
  model_id : string;
  version_id : string;
  version : string;
  hyperparameters : gmap string Any;
  metrics : gmap string Any;
  created_at : datetime;
  modified_at : datetime;
  __client : option Client;
}.

Definition name (self : t) : string := version self.

(** [cls.model_validate]: every field is required, all errors are
    collected, the private attribute is left unset. *)
Definition model_validate (data : Mapping) : Result t :=
  let f_app_id := validate_field ["app_id"; "project_id"] validate_str data in
  let f_model_id := validate_field ["model_id"] validate_str data in
  let f_version_id := validate_field ["version_id"] validate_str data in
  let f_version := validate_field ["version"] validate_str data in
  let f_hyperparameters := validate_field ["hyperparameters"] validate_dict data in
  let f_metrics := validate_field ["metrics"] validate_dict data in
  let f_created_at := validate_field ["created_at"] validate_datetime data in
  let f_modified_at := validate_field ["modified_at"] validate_datetime data in
  match f_app_id, f_model_id, f_version_id, f_version,
        f_hyperparameters, f_metrics, f_created_at, f_modified_at with
  | inr a, inr m, inr vi, inr v, inr h, inr me, inr c, inr mo =>
      Ok {| app_id := a; model_id := m; version_id := vi; version := v;
            hyperparameters := h; metrics := me; created_at := c;
            modified_at := mo; __client := None |}
  | _, _, _, _, _, _, _, _ =>
      Raise (ValidationError "ModelVersion"
        (error_loc f_app_id ++ error_loc f_model_id ++ error_loc f_version_id
         ++ error_loc f_version ++ error_loc f_hyperparameters
         ++ error_loc f_metrics ++ error_loc f_created_at
         ++ error_loc f_modified_at))
  end.

Definition set_client (client : Client) (self : t) : t :=
  {| app_id := app_id self; model_id := model_id self;
     version_id := version_id self; version := version self;
     hyperparameters := hyperparameters self; metrics := metrics self;
     created_at := created_at self; modified_at := modified_at self;
     __client := Some client |}.

Definition from_dict (app_id : string) (data : Mapping) (client : Client)
    : Result t :=
  match model_validate (dict_unpack_over "app_id" (PyStr app_id) data) with
  | Ok self => Ok (set_client client self)
  | Raise e => Raise e
  end.

Context `{!Endpoints}.

Definition describe {Obj : Type} (self : t) : M Obj (gmap string Any) :=
  match __client self with
  | None => raise (AttributeError "__client")
  | Some client => serve (get_model_version client (app_id self) (version_id self))
  end.
End Defs.
End ModelVersion.

(** ** class Model *)

Module Model.
Section Defs.
Context `{Platform}.

Record t : Type := {
  app_id : string;
  model_id : string;
  name : string;
  model_type : string;
  sub_model_type : string;
  description : string;
  created_at : datetime;
  modified_at : datetime;
  __client : option Client;
}.

Definition model_validate (data : Mapping) : Result t :=
  let f_app_id := validate_field ["app_id"; "project_id"] validate_str data in
  let f_model_id := validate_field ["model_id"] validate_str data in
  let f_name := validate_field ["name"] validate_str data in
  let f_model_type := validate_field ["model_type"] validate_str data in
  let f_sub_model_type := validate_field ["sub_model_type"] validate_str data in
  let f_description := validate_field ["description"] validate_str data in
  let f_created_at := validate_field ["created_at"] validate_datetime data in
  let f_modified_at := validate_field ["modified_at"] validate_datetime data in
  match f_app_id, f_model_id, f_name, f_model_type,
        f_sub_model_type, f_description, f_created_at, f_modified_at with
  | inr a, inr m, inr n, inr mt, inr smt, inr d, inr c, inr mo =>
      Ok {| app_id := a; model_id := m; name := n; model_type := mt;
            sub_model_type := smt; description := d; created_at := c;
            modified_at := mo; __client := None |}
  | _, _, _, _, _, _, _, _ =>
      Raise (ValidationError "Model"
        (error_loc f_app_id ++ error_loc f_model_id ++ error_loc f_name
         ++ error_loc f_model_type ++ error_loc f_sub_model_type
         ++ error_loc f_description ++ error_loc f_created_at
         ++ error_loc f_modified_at))
  end.

Definition set_client (client : Client) (self : t) : t :=
  {| app_id := app_id self; model_id := model_id self; name := name self;
     model_type := model_type self; sub_model_type := sub_model_type self;
     description := description self; created_at := created_at self;
     modified_at := modified_at self; __client := Some client |}.

Definition set_name (value : string) (self : t) : t :=
  {| app_id := app_id self; model_id := model_id self; name := value;
     model_type := model_type self; sub_model_type := sub_model_type self;
     description := description self; created_at := created_at self;
     modified_at := modified_at self; __client := __client self |}.

Definition set_description (value : string) (self : t) : t :=
  {| app_id := app_id self; model_id := model_id self; name := name self;
     model_type := model_type self; sub_model_type := sub_model_type self;
     description := value; created_at := created_at self;
     modified_at := modified_at self; __client := __client self |}.

(** [self.attr = value] *)
Definition setattr (self : nat) (update : t -> t) : M t unit :=
  this <- load self ;;
  store self (update this).

(** [self.__client]: unset until [from_dict] has run. *)
Definition get_client (self : nat) : M t Client :=
  this <- load self ;;
  match __client this with
  | Some client => ret client
  | None => raise (AttributeError "__client")
  end.

Definition from_dict (data : Mapping) (client : Client) : M t nat :=
  self <- lift (model_validate data) ;;
  alloc (set_client client self).

Definition rename (self : nat) (name : string) : M t nat :=
  client <- get_client self ;;
  this <- load self ;;
  call_edit_model client (app_id this) (model_id this) (Some name) None None ;;;
  setattr self (set_name name) ;;;
  ret self.

Definition move (self : nat) (directory : Directory) : M t nat :=
  client <- get_client self ;;
  this <- load self ;;
  call_edit_model client (app_id this) (model_id this) None (Some directory) None ;;;
  ret self.

Definition update_description (self : nat) (description : string) : M t nat :=
  client <- get_client self ;;
  this <- load self ;;
  call_edit_model client (app_id this) (model_id this) None None (Some description) ;;;
  setattr self (set_description description) ;;;
  ret self.

(** The comprehension of [versions]: the records are validated one after
    the other and each version is stored under its [version_id]. *)
Fixpoint versions_comprehension (app_id : string) (client : Client)
    (version_dicts : list (gmap string Any)) (versions : dict ModelVersion.t)
    : M t (dict ModelVersion.t) :=
  match version_dicts with
  | [] => ret versions
  | version_dict :: rest =>
      version <- lift (ModelVersion.from_dict app_id version_dict client) ;;
      versions_comprehension app_id client rest
        (dict_setitem (ModelVersion.version_id version) version versions)
  end.

Definition versions (self : nat) : M t (dict ModelVersion.t) :=
  client <- get_client self ;;
  this <- load self ;;
  version_dicts <- call_get_model_versions client (app_id this) (model_id this) ;;
  (* the generator reads [self.app_id] and [self.__client] after the call *)
  this' <- load self ;;
  client' <- get_client self ;;
  versions <- versions_comprehension (app_id this') client' version_dicts [] ;;
  ret (NamedMapping versions).

Context `{!Endpoints}.

Definition delete (self : nat) : M t unit :=
  client <- get_client self ;;
  this <- load self ;;
  serve (delete_model client (app_id this) (model_id this)) ;;;
  ret tt.

Definition describe (self : nat) : M t (gmap string Any) :=
  client <- get_client self ;;
  this <- load self ;;
  call_get_model client (app_id this) (model_id this).
End Defs.
End Model.

(** ** class ModelBuilder *)

Module ModelBuilder.
Section Defs.
Context `{Platform}.

Record t : Type := {
  _app_id : string;
  _name : string;
  _directory : option Directory;
  _model_type : option SubModelSpec;
  _description : string;
  __client : Client;
}.

Definition __init__ (client : Client) (app_id : string) : t :=
  {| __client := client; _app_id := app_id; _name := "";
     _directory := None; _model_type := None; _description := "" |}.

(** The setters assign one field and return the builder. *)
Definition new (self : t) (name : string) : t :=
  {| __client := __client self; _app_id := _app_id self; _name := name;
     _directory := _directory self; _model_type := _model_type self;
     _description := _description self |}.

Definition directory (self : t) (directory : Directory) : t :=
  {| __client := __client self; _app_id := _app_id self; _name := _name self;
     _directory := Some directory; _model_type := _model_type self;
     _description := _description self |}.

Definition model_type (self : t) (model_type : SubModelSpec) : t :=
  {| __client := __client self; _app_id := _app_id self; _name := _name self;
     _directory := _directory self; _model_type := Some model_type;
     _description := _description self |}.

Definition description (self : t) (description : string) : t :=
  {| __client := __client self; _app_id := _app_id self; _name := _name self;
     _directory := _directory self; _model_type := _model_type self;
     _description := description |}.

Definition build (self : t) : M Model.t nat :=
  match _model_type self with
  | None => raise (ValueError "Model type must be specified")
  | Some model_type =>
      model_id <- call_create_model (__client self) (_app_id self)
                    (_name self) (_directory self) model_type
                    (_description self) ;;
      model_dict <- call_get_model (__client self) (_app_id self) model_id ;;
      Model.from_dict model_dict (__client self)
  end.

(** A chain of setter calls on a builder, for statements about what was
    or was not called before [build]. *)
Inductive setter_call : Type :=
| call_new (name : string)
| call_directory (directory : Directory)
| call_model_type (model_type : SubModelSpec)
| call_description (description : string).

Definition apply_call (self : t) (c : setter_call) : t :=
  match c with
  | call_new name => new self name
  | call_directory d => directory self d
  | call_model_type mt => model_type self mt
  | call_description d => description self d
  end.

Definition configure (self : t) (calls : list setter_call) : t :=
  fold_left apply_call calls self.

Definition is_model_type_call (c : setter_call) : bool :=
  match c with
  | call_model_type _ => true
  | _ => false
  end.
End Defs.
End ModelBuilder.

(** ** class ModelBrowser *)

Module ModelBrowser.
Section Defs.
Context `{Platform}.

Record t : Type := {
  __app_id : string;
  __client : Client;
}.

Definition __init__ (app_id : string) (client : Client) : t :=
  {| __app_id := app_id; __client := client |}.

(** The key of a dict entry.  The key expression [model["model_id"]] is
    evaluated before [Model.from_dict]; when that call returns, the
    [model_id] field has been validated as a [str], so the entry is always
    stored under a string.  The second branch is never reached (lemma
    [search_key_is_str] below). *)
Definition str_key (key : Any) : Result string :=
  match key with
  | PyStr s => Ok s
  | _ => Raise (TypeError "unhashable type")
  end.

(** The comprehension of [search]. *)
Fixpoint search_comprehension (client : Client)
    (models : list (gmap string Any)) (matching_models : dict nat)
    : M Model.t (dict nat) :=
  match models with
  | [] => ret matching_models
  | model :: rest =>
      key <- lift (getitem model "model_id") ;;
      value <- Model.from_dict model client ;;
      k <- lift (str_key key) ;;
      search_comprehension client rest (dict_setitem k value matching_models)
  end.

Definition search (self : t) (query : string) : M Model.t (dict nat) :=
  models <- call_search_models_for_project (__client self) (__app_id self) query ;;
  matching_models <- search_comprehension (__client self) models [] ;;
  ret (NamedMapping matching_models).

Context `{!Endpoints}.

(** [__call__] is marked deprecated; the warning it emits is left out.  Its
    comprehension is the one of [search], word for word. *)
Definition __call__ (self : t) : M Model.t (dict nat) :=
  listed <- serve (get_models_for_app (__client self) (__app_id self) None) ;;
  models <- search_comprehension (__client self) listed [] ;;
  ret (NamedMapping models).

Definition __getitem__ (self : t) (name : string) : M Model.t nat :=
  model_dict <- serve (get_model_by_name (__client self) (__app_id self) name) ;;
  Model.from_dict model_dict (__client self).
End Defs.
End ModelBrowser.

(** ** class ModelDirectory *)

(** The values of a [NamedDirectoryDict]: two strings and a directory type. *)
Inductive DirectoryDictValue : Type :=
| DStr (s : string)
| DType (t : DirectoryType).

Module ModelDirectory.
Section Defs.
Context `{Platform}.

Record t : Type := {
  app_id : string;
  directory_id : string;
  name : string;
  __client : option Client;
}.

Definition type (self : t) : DirectoryType := MODEL.

Definition model_validate (data : Mapping) : Result t :=
  let f_app_id := validate_field ["app_id"; "project_id"] validate_str data in
  let f_directory_id := validate_field ["directory_id"] validate_str data in
  let f_name := validate_field ["name"] validate_str data in
  match f_app_id, f_directory_id, f_name with
  | inr a, inr d, inr n =>
      Ok {| app_id := a; directory_id := d; name := n; __client := None |}
  | _, _, _ =>
      Raise (ValidationError "ModelDirectory"
        (error_loc f_app_id ++ error_loc f_directory_id ++ error_loc f_name))
  end.

Definition set_client (client : Client) (self : t) : t :=
  {| app_id := app_id self; directory_id := directory_id self;
     name := name self; __client := Some client |}.

Definition from_dict (data : Mapping) (client : Client) : Result t :=
  match model_validate data with
  | Ok self => Ok (set_client client self)
  | Raise e => Raise e
  end.

Definition to_dict (self : t) : dict DirectoryDictValue :=
  dict_of_items
    [("directory_id", DStr (directory_id self));
     ("type", DType (type self));
     ("name", DStr (name self))].

Context `{!Endpoints}.

(** A [ModelDirectory] passed where a [Directory] is expected. *)
Context (as_directory : t -> Directory).

(** The comprehension of [directories]: each record is validated with the
    client of [self] and stored under its [directory_id]. *)
Fixpoint directories_comprehension {Obj : Type} (client : Client)
    (directory_dicts : list (gmap string Any)) (directories : dict t)
    : M Obj (dict t) :=
  match directory_dicts with
  | [] => ret directories
  | directory_dict :: rest =>
      directory <- lift (from_dict directory_dict client) ;;
      directories_comprehension client rest
        (dict_setitem (directory_id directory) directory directories)
  end.

Definition directories {Obj : Type} (self : t) : M Obj (dict t) :=
  match __client self with
  | None => raise (AttributeError "__client")
  | Some client =>
      directory_dicts <-
        serve (get_model_directories_for_app client (app_id self)
                 (Some (as_directory self))) ;;
      directories <- directories_comprehension client directory_dicts [] ;;
      ret (NamedMapping directories)
  end.

(** The comprehension of [models]: each model is built, then stored under
    the [model_id] read from the new object. *)
Fixpoint models_comprehension (client : Client)
    (model_dicts : list (gmap string Any)) (models : dict nat)
    : M Model.t (dict nat) :=
  match model_dicts with
  | [] => ret models
  | model_dict :: rest =>
      model <- Model.from_dict model_dict client ;;
      this <- load model ;;
      models_comprehension client rest
        (dict_setitem (Model.model_id this) model models)
  end.

Definition models (self : t) : M Model.t (dict nat) :=
  match __client self with
  | None => raise (AttributeError "__client")
  | Some client =>
      model_dicts <-
        serve (get_models_for_app client (app_id self)
                 (Some (directory_id self))) ;;
      models <- models_comprehension client model_dicts [] ;;
      ret (NamedMapping models)
  end.
End Defs.
End ModelDirectory.

Arguments ModelDirectory.directories {_ _} as_directory {Obj} self.

(** ** class ModelDirectoryBuilder *)

Module ModelDirectoryBuilder.
Section Defs.
Context `{Platform} `{!Endpoints}.

Record t : Type := {
  _app_id : string;
  _name : string;
  _parent : option Directory;
  __client : Client;
}.

Definition __init__ (client : Client) (app_id : string) : t :=
  {| __client := client; _app_id := app_id; _name := ""; _parent := None |}.

Definition new (self : t) (name : string) : t :=
  {| __client := __client self; _app_id := _app_id self; _name := name;
     _parent := _parent self |}.

Definition parent (self : t) (parent : Directory) : t :=
  {| __client := __client self; _app_id := _app_id self; _name := _name self;
     _parent := Some parent |}.

Definition build {Obj : Type} (self : t) : M Obj ModelDirectory.t :=
  directory_id <-
    serve (create_model_directory (__client self) (_app_id self) (_name self)
             (_parent self)) ;;
  directory_dict <-
    serve (get_model_directory (__client self) (_app_id self) directory_id) ;;
  lift (ModelDirectory.from_dict directory_dict (__client self)).
End Defs.
End ModelDirectoryBuilder.

(** ** Vocabulary for the statements *)

(** The items that the comprehension of [versions] stores, in order. *)
Definition version_items `{Platform} (vs : list ModelVersion.t)
    : list (string * ModelVersion.t) :=
  map (fun v => (ModelVersion.version_id v, v)) vs.

(** The items that the comprehension of [search] stores, in order: the
    models are new objects at consecutive references from [base] on. *)
Definition model_items `{Platform} (base : nat) (ms : list Model.t)
    : list (string * nat) :=
  zip (map Model.model_id ms) (seq base (length ms)).

(** A chain of editing calls on one model, [m.rename(a).move(d)...]: each
    call runs on the reference the previous one returned, and the chain
    stops at the first exception. *)
Inductive edit_call `{Platform} : Type :=
| edit_rename (name : string)
| edit_move (directory : Directory)
| edit_update_description (description : string).

Definition run_edit `{Platform} (self : nat) (c : edit_call) : M Model.t nat :=
  match c with
  | edit_rename name => Model.rename self name
  | edit_move directory => Model.move self directory
  | edit_update_description description =>
      Model.update_description self description
  end.

Fixpoint run_edits `{Platform} (self : nat) (cs : list edit_call)
    : M Model.t nat :=
  match cs with
  | [] => ret self
  | c :: rest => self' <- run_edit self c ;; run_edits self' rest
  end.

(** What a call assigns to [self] once its request has succeeded, and the
    request it sends for a model with the given identifiers. *)
Definition edit_assignment `{Platform} (c : edit_call) (this : Model.t)
    : Model.t :=
  match c with
  | edit_rename name => Model.set_name name this
  | edit_move _ => this
  | edit_update_description description =>
      Model.set_description description this
  end.

Definition edit_request `{Platform} (app_id model_id : string) (c : edit_call)
    : Request :=
  match c with
  | edit_rename name => EditModel app_id model_id (Some name) None None
  | edit_move directory => EditModel app_id model_id None (Some directory) None
  | edit_update_description description =>
      EditModel app_id model_id None None (Some description)
  end.

(** The assignments of a chain of calls, applied in order. *)
Definition edit_assignments `{Platform} (cs : list edit_call) (this : Model.t)
    : Model.t :=
  fold_left (fun m c => edit_assignment c m) cs this.

(** The items that the comprehension of [directories] stores, in order. *)
Definition directory_items `{Platform} (ds : list ModelDirectory.t)
    : list (string * ModelDirectory.t) :=
  map (fun d => (ModelDirectory.directory_id d, d)) ds.

(** The distinct keys of a list of keys, each at the place where it first
    occurs: the order in which a dict filled from items with these keys
    lists them. *)
Fixpoint first_occurrences (keys : list string) : list string :=
  match keys with
  | [] => []
  | k :: rest => k :: filter (fun k' => k' <> k) (first_occurrences rest)
  end.

(** ** A concrete platform for worked examples *)

(** The remote state counts the requests served; directories and model
    specifications are named by strings; a [datetime] is read from an
    integer timestamp. *)
Module Demo.
Definition platform : Platform := {|
  Remote := nat;
  Directory := string;
  SubModelSpec := string;
  datetime := Z;
  validate_datetime := fun v => match v with PyInt z => Some z | _ => None end;
|}.
#[local] Existing Instance platform.

Definition model_record (app_key app model_id name : string) : gmap string Any :=
  list_to_map
    [(app_key, PyStr app); ("model_id", PyStr model_id); ("name", PyStr name);
     ("model_type", PyStr "Linear"); ("sub_model_type", PyStr "Lasso");
     ("description", PyStr ""); ("created_at", PyInt 1700000000);
     ("modified_at", PyInt 1700000500); ("directory", PyNone)].

Definition version_record (keys : list (string * Any)) (version_id version : string)
    : gmap string Any :=
  list_to_map
    (keys ++
     [("model_id", PyStr "m-1"); ("version_id", PyStr version_id);
      ("version", PyStr version); ("hyperparameters", PyDict ∅);
      ("metrics", PyDict {[ "r2" := PyFloat 4605380978949069210 ]});
      ("created_at", PyInt 1700000000); ("modified_at", PyInt 1700000500)]).

Definition directory_record (app_key app : string) : gmap string Any :=
  list_to_map
    [(app_key, PyStr app); ("directory_id", PyStr "d-1"); ("name", PyStr "Dir")].

(** A client that answers every request: [create_model] returns ["m-1"],
    [get_model] a record of that model, the listings are given. *)
Definition client_up (versions found : list (gmap string Any)) : Client := {|
  component := {|
    create_model := fun app name _ _ _ n => (Ok "m-1", S n);
    get_model := fun app model_id n =>
      (Ok (model_record "app_id" app model_id "Model One"), S n);
    edit_model := fun _ _ _ _ _ n => (Ok tt, S n);
    get_model_versions := fun _ _ n => (Ok versions, S n);
  |};
  search := {| search_models_for_project := fun _ _ n => (Ok found, S n) |};
|}.

(** A client whose every request fails. *)
Definition unreachable : Exception := OtherError "ConnectionError" "unreachable".

Definition client_down : Client := {|
  component := {|
    create_model := fun _ _ _ _ _ n => (Raise unreachable, n);
    get_model := fun _ _ n => (Raise unreachable, n);
    edit_model := fun _ _ _ _ _ n => (Raise unreachable, n);
    get_model_versions := fun _ _ n => (Raise unreachable, n);
  |};
  search := {| search_models_for_project := fun _ _ n => (Raise unreachable, n) |};
|}.

(** The fields validated from [model_record "app_id" "app-1" "m-1" "Model One"],
    and the model that [from_dict] makes of them. *)
Definition model_fields : Model.t := {|
  Model.app_id := "app-1"; Model.model_id := "m-1"; Model.name := "Model One";
  Model.model_type := "Linear"; Model.sub_model_type := "Lasso";
  Model.description := ""; Model.created_at := 1700000000%Z;
  Model.modified_at := 1700000500%Z; Model.__client := None;
|}.

Definition a_model (client : Client) : Model.t :=
  Model.set_client client model_fields.

(** The version that [ModelVersion.from_dict "app-1"] makes of
    [version_record [] version_id version]. *)
Definition a_version (client : Client) (version_id version : string)
    : ModelVersion.t := {|
  ModelVersion.app_id := "app-1"; ModelVersion.model_id := "m-1";
  ModelVersion.version_id := version_id; ModelVersion.version := version;
  ModelVersion.hyperparameters := ∅;
  ModelVersion.metrics := {[ "r2" := PyFloat 4605380978949069210 ]};
  ModelVersion.created_at := 1700000000%Z;
  ModelVersion.modified_at := 1700000500%Z;
  ModelVersion.__client := Some client;
|}.

(** A world whose store holds one model, at reference 0. *)
Definition world (client : Client) : World Model.t :=
  {| remote := 0; trace := []; heap := [a_model client] |}.

Definition empty_world : World Model.t :=
  {| remote := 0; trace := []; heap := [] |}.

(** The other endpoints of a demo client that is up: deleting succeeds, a
    lookup by name returns a record of model ["m-1"] with that name, a new
    directory is ["d-1"], and the two listings are given. *)
Definition endpoints_up (listed_models listed_directories : list (gmap string Any))
    : Endpoints := {|
  delete_model := fun _ _ _ n => (Ok tt, S n);
  get_model_by_name := fun _ app name n =>
    (Ok (model_record "app_id" app "m-1" name), S n);
  get_models_for_app := fun _ _ _ n => (Ok listed_models, S n);
  get_model_version := fun _ _ version_id n =>
    (Ok (version_record [] version_id "first"), S n);
  create_model_directory := fun _ _ _ _ n => (Ok "d-1", S n);
  get_model_directory := fun _ app _ n =>
    (Ok (directory_record "app_id" app), S n);
  get_model_directories_for_app := fun _ _ _ n => (Ok listed_directories, S n);
|}.

Definition endpoints : Endpoints := endpoints_up [] [].

(** Endpoints whose listings hold one model and one directory. *)
Definition endpoints_listing : Endpoints :=
  endpoints_up [model_record "app_id" "app-1" "m-1" "Model One"]
    [directory_record "app_id" "app-1"].

Definition endpoints_down : Endpoints := {|
  delete_model := fun _ _ _ n => (Raise unreachable, n);
  get_model_by_name := fun _ _ _ n => (Raise unreachable, n);
  get_models_for_app := fun _ _ _ n => (Raise unreachable, n);
  get_model_version := fun _ _ _ n => (Raise unreachable, n);
  create_model_directory := fun _ _ _ _ n => (Raise unreachable, n);
  get_model_directory := fun _ _ _ n => (Raise unreachable, n);
  get_model_directories_for_app := fun _ _ _ n => (Raise unreachable, n);
|}.

(** A client that creates models and then fails on every other request. *)
Definition client_create_only : Client := {|
  component := {|
    create_model := fun _ _ _ _ _ n => (Ok "m-1", S n);
    get_model := fun _ _ n => (Raise unreachable, n);
    edit_model := fun _ _ _ _ _ n => (Raise unreachable, n);
    get_model_versions := fun _ _ n => (Raise unreachable, n);
  |};
  search := {| search_models_for_project := fun _ _ n => (Raise unreachable, n) |};
|}.

(** The directory that [ModelDirectory.from_dict] makes of
    [directory_record "app_id" "app-1"], and how it is named as a parent. *)
Definition a_directory (client : Client) : ModelDirectory.t := {|
  ModelDirectory.app_id := "app-1"; ModelDirectory.directory_id := "d-1";
  ModelDirectory.name := "Dir"; ModelDirectory.__client := Some client;
|}.

Definition as_directory (d : ModelDirectory.t) : string :=
  ModelDirectory.directory_id d.
End Demo.

(** * Properties *)

(** ** The monad and the store *)

Section MonadLemmas.
Context `{Platform} {Obj : Type}.
Implicit Types (w : World Obj).

Lemma bind_ok {A B : Type} (m : M Obj A) (k : A -> M Obj B) w a w' :
  m w = (Ok a, w') -> bind m k w = k a w'.
Proof. intros Hm. unfold bind. by rewrite Hm. Qed.

Lemma bind_raise {A B : Type} (m : M Obj A) (k : A -> M Obj B) w e w' :
  m w = (Raise e, w') -> bind m k w = (Raise e, w').
Proof. intros Hm. unfold bind. by rewrite Hm. Qed.

Lemma load_some (self : nat) (o : Obj) w :
  heap w !! self = Some o -> load self w = (Ok o, w).
Proof. intros Hl. unfold load. by rewrite Hl. Qed.

Lemma request_run {A : Type} (rq : Request)
    (endpoint : Remote -> Result A * Remote) w r s' :
  endpoint (remote w) = (r, s') ->
  request rq endpoint w =
    (r, {| remote := s'; trace := trace w ++ [rq]; heap := heap w |}).
Proof. intros He. unfold request. by rewrite He. Qed.
End MonadLemmas.

(** ** ModelBuilder *)

Section BuilderLemmas.
Context `{Platform}.
Implicit Types (b : ModelBuilder.t) (calls : list ModelBuilder.setter_call).

Lemma build_model_type_unset b (w : World Model.t) :
  ModelBuilder._model_type b = None ->
  ModelBuilder.build b w = (Raise (ValueError "Model type must be specified"), w).
Proof. intros Hmt. unfold ModelBuilder.build. by rewrite Hmt. Qed.

Lemma configure_snoc b calls c :
  ModelBuilder.configure b (calls ++ [c]) =
  ModelBuilder.apply_call (ModelBuilder.configure b calls) c.
Proof. unfold ModelBuilder.configure. by rewrite fold_left_app. Qed.



Lemma configure_model_type_unset b calls :
  Forall (fun c => ModelBuilder.is_model_type_call c = false) calls ->
  ModelBuilder._model_type (ModelBuilder.configure b calls) =
  ModelBuilder._model_type b.
Proof.
  induction calls as [|c calls IH] using rev_ind; [done|].
  intros [Hcalls Hc%Forall_inv]%Forall_app.
  rewrite configure_snoc. destruct c; simpl in *; auto. discriminate.
Qed.

Lemma configure_name_unset b calls :
  (forall name, ModelBuilder.call_new name ∉ calls) ->
  ModelBuilder._name (ModelBuilder.configure b calls) = ModelBuilder._name b.
Proof.
  induction calls as [|c calls IH] using rev_ind; [done|].
  intros Hnot. rewrite configure_snoc.
  assert (forall name, ModelBuilder.call_new name ∉ calls) as Hcalls.
  { intros name Hin. apply (Hnot name). set_solver. }
  destruct c; simpl; auto.
  exfalso. eapply Hnot. apply elem_of_app. right. by apply list_elem_of_singleton.
Qed.

Lemma configure_directory_unset b calls :
  (forall d, ModelBuilder.call_directory d ∉ calls) ->
  ModelBuilder._directory (ModelBuilder.configure b calls) =
  ModelBuilder._directory b.
Proof.
  induction calls as [|c calls IH] using rev_ind; [done|].
  intros Hnot. rewrite configure_snoc.
  assert (forall d, ModelBuilder.call_directory d ∉ calls) as Hcalls.
  { intros d Hin. apply (Hnot d). set_solver. }
  destruct c; simpl; auto.
  exfalso. eapply Hnot. apply elem_of_app. right. by apply list_elem_of_singleton.
Qed.

Lemma configure_description_unset b calls :
  (forall d, ModelBuilder.call_description d ∉ calls) ->
  ModelBuilder._description (ModelBuilder.configure b calls) =
  ModelBuilder._description b.
Proof.
  induction calls as [|c calls IH] using rev_ind; [done|].
  intros Hnot. rewrite configure_snoc.
  assert (forall d, ModelBuilder.call_description d ∉ calls) as Hcalls.
  { intros d Hin. apply (Hnot d). set_solver. }
  destruct c; simpl; auto.
  exfalso. eapply Hnot. apply elem_of_app. right. by apply list_elem_of_singleton.
Qed.

Lemma from_dict_run (data : gmap string Any) (client : Client) (w : World Model.t) :
  Model.from_dict data client w =
  match Model.model_validate data with
  | Ok fields =>
      (Ok (length (heap w)),
       {| remote := remote w; trace := trace w;
          heap := heap w ++ [Model.set_client client fields] |})
  | Raise e => (Raise e, w)
  end.
Proof.
  unfold Model.from_dict, bind, lift, alloc.
  by destruct (Model.model_validate data).
Qed.

(** [build] with a model type: the two requests, then the validation of
    the fetched record. *)
Lemma build_run b model_type (w : World Model.t) model_id s1 model_dict s2 :
  ModelBuilder._model_type b = Some model_type ->
  create_model (component (ModelBuilder.__client b)) (ModelBuilder._app_id b)
    (ModelBuilder._name b) (ModelBuilder._directory b) model_type
    (ModelBuilder._description b) (remote w) = (Ok model_id, s1) ->
  get_model (component (ModelBuilder.__client b)) (ModelBuilder._app_id b)
    model_id s1 = (Ok model_dict, s2) ->
  ModelBuilder.build b w =
  Model.from_dict model_dict (ModelBuilder.__client b)
    {| remote := s2;
       trace := trace w ++
         [CreateModel (ModelBuilder._app_id b) (ModelBuilder._name b)
            (ModelBuilder._directory b) model_type (ModelBuilder._description b);
          GetModel (ModelBuilder._app_id b) model_id];
       heap := heap w |}.
Proof.
  intros Hmt Hcreate Hget. unfold ModelBuilder.build. rewrite Hmt.
  unfold call_create_model, call_get_model.
  erewrite bind_ok; [|by apply request_run].
  erewrite bind_ok; [|by apply request_run].
  simpl. by rewrite <- app_assoc.
Qed.
End BuilderLemmas.

(** C1.  A builder on which [model_type] was never called: whatever other
    setters were called, with whatever arguments and in whatever order,
    [build] raises the [ValueError] "Model type must be specified" and the
    world is the one it started in: no request was sent, the remote state
    and the object store are untouched. *)
Theorem build_without_model_type `{Platform} (client : Client) (app_id : string)
    (calls : list ModelBuilder.setter_call) (w : World Model.t) :
  Forall (fun c => ModelBuilder.is_model_type_call c = false) calls ->
  ModelBuilder.build
    (ModelBuilder.configure (ModelBuilder.__init__ client app_id) calls) w =
  (Raise (ValueError "Model type must be specified"), w).
Proof.
  intros Hcalls. apply build_model_type_unset.
  by rewrite configure_model_type_unset.
Qed.

Section BuildWithoutModelTypeExample.
#[local] Existing Instance Demo.platform.

Lemma build_without_model_type_witness :
  let calls := [ModelBuilder.call_new "X"; ModelBuilder.call_directory "dir";
                ModelBuilder.call_description "a model";
                ModelBuilder.call_new "Y"] in
  Forall (fun c => ModelBuilder.is_model_type_call c = false) calls /\
  ModelBuilder.build
    (ModelBuilder.configure
       (ModelBuilder.__init__ (Demo.client_up [] []) "app-1") calls)
    Demo.empty_world =
  (Raise (ValueError "Model type must be specified"), Demo.empty_world).
Proof.
  intros calls. split.
  - repeat constructor.
  - apply (build_without_model_type (Demo.client_up [] []) "app-1" calls).
    repeat constructor.
Defined.
End BuildWithoutModelTypeExample.


Section BuildCreatesThenFetchesExample.
#[local] Existing Instance Demo.platform.

End BuildCreatesThenFetchesExample.

(** ** Model: rename, move, update_description *)

Section ModelLemmas.
Context `{Platform}.
Implicit Types (w : World Model.t) (this : Model.t) (client : Client).

Lemma get_client_some (self : nat) this client w :
  heap w !! self = Some this ->
  Model.__client this = Some client ->
  Model.get_client self w = (Ok client, w).
Proof.
  intros Hself Hclient. unfold Model.get_client.
  erewrite bind_ok; [|by apply load_some]. by rewrite Hclient.
Qed.

Lemma setattr_run (self : nat) this (update : Model.t -> Model.t) w :
  heap w !! self = Some this ->
  Model.setattr self update w =
  (Ok tt, {| remote := remote w; trace := trace w;
             heap := <[self := update this]> (heap w) |}).
Proof.
  intros Hself. unfold Model.setattr.
  erewrite bind_ok; [|by apply load_some]. done.
Qed.

(** The three editing methods share one shape: fetch the client, send one
    [edit_model], and on success assign (or not) and return [self]. *)
Lemma rename_run (self : nat) this client (name : string) w r s' :
  heap w !! self = Some this ->
  Model.__client this = Some client ->
  edit_model (component client) (Model.app_id this) (Model.model_id this)
    (Some name) None None (remote w) = (r, s') ->
  Model.rename self name w =
  let tr := trace w ++ [EditModel (Model.app_id this) (Model.model_id this)
                          (Some name) None None] in
  match r with
  | Ok _ =>
      (Ok self, {| remote := s'; trace := tr;
                   heap := <[self := Model.set_name name this]> (heap w) |})
  | Raise e => (Raise e, {| remote := s'; trace := tr; heap := heap w |})
  end.
Proof.
  intros Hself Hclient Hedit. unfold Model.rename.
  erewrite bind_ok; [|by eapply get_client_some].
  erewrite bind_ok; [|by apply load_some].
  unfold call_edit_model. destruct r as [[]|e].
  - erewrite bind_ok; [|by apply request_run].
    erewrite bind_ok; [|by apply setattr_run]. done.
  - erewrite bind_raise; [|by apply request_run]. done.
Qed.

Lemma update_description_run (self : nat) this client (description : string) w r s' :
  heap w !! self = Some this ->
  Model.__client this = Some client ->
  edit_model (component client) (Model.app_id this) (Model.model_id this)
    None None (Some description) (remote w) = (r, s') ->
  Model.update_description self description w =
  let tr := trace w ++ [EditModel (Model.app_id this) (Model.model_id this)
                          None None (Some description)] in
  match r with
  | Ok _ =>
      (Ok self, {| remote := s'; trace := tr;
                   heap := <[self := Model.set_description description this]> (heap w) |})
  | Raise e => (Raise e, {| remote := s'; trace := tr; heap := heap w |})
  end.
Proof.
  intros Hself Hclient Hedit. unfold Model.update_description.
  erewrite bind_ok; [|by eapply get_client_some].
  erewrite bind_ok; [|by apply load_some].
  unfold call_edit_model. destruct r as [[]|e].
  - erewrite bind_ok; [|by apply request_run].
    erewrite bind_ok; [|by apply setattr_run]. done.
  - erewrite bind_raise; [|by apply request_run]. done.
Qed.

Lemma move_run (self : nat) this client (directory : Directory) w r s' :
  heap w !! self = Some this ->
  Model.__client this = Some client ->
  edit_model (component client) (Model.app_id this) (Model.model_id this)
    None (Some directory) None (remote w) = (r, s') ->
  Model.move self directory w =
  let w' := {| remote := s';
               trace := trace w ++ [EditModel (Model.app_id this)
                          (Model.model_id this) None (Some directory) None];
               heap := heap w |} in
  match r with
  | Ok _ => (Ok self, w')
  | Raise e => (Raise e, w')
  end.
Proof.
  intros Hself Hclient Hedit. unfold Model.move.
  erewrite bind_ok; [|by eapply get_client_some].
  erewrite bind_ok; [|by apply load_some].
  unfold call_edit_model. destruct r as [[]|e].
  - erewrite bind_ok; [|by apply request_run]. done.
  - erewrite bind_raise; [|by apply request_run]. done.
Qed.

Lemma set_name_twice (name : string) this :
  Model.set_name name (Model.set_name name this) = Model.set_name name this.
Proof. done. Qed.

(** The assignment [self.name = name], field by field. *)
Lemma set_name_fields (name : string) this :
  Model.name (Model.set_name name this) = name
  /\ Model.app_id (Model.set_name name this) = Model.app_id this
  /\ Model.model_id (Model.set_name name this) = Model.model_id this
  /\ Model.model_type (Model.set_name name this) = Model.model_type this
  /\ Model.sub_model_type (Model.set_name name this) = Model.sub_model_type this
  /\ Model.description (Model.set_name name this) = Model.description this
  /\ Model.created_at (Model.set_name name this) = Model.created_at this
  /\ Model.modified_at (Model.set_name name this) = Model.modified_at this
  /\ Model.__client (Model.set_name name this) = Model.__client this.
Proof. done. Qed.
End ModelLemmas.

(** C3.  [rename] on a live model that holds a client sends exactly one
    update, for the model's own (app_id, model_id) and with the new name
    only; when the update succeeds the model's [name] is the new name, every
    other field is as before, and the reference returned is [self].
    Renaming again to the same name leaves the object store exactly as the
    first call left it, whatever the remote side answers the second time. *)
Theorem rename_mirrors_name `{Platform} (self : nat) (this : Model.t)
    (client : Client) (name : string) (w : World Model.t) :
  heap w !! self = Some this ->
  Model.__client this = Some client ->
  let update := EditModel (Model.app_id this) (Model.model_id this)
                  (Some name) None None in
  trace (Model.rename self name w).2 = trace w ++ [update]
  /\ (forall s',
       edit_model (component client) (Model.app_id this) (Model.model_id this)
         (Some name) None None (remote w) = (Ok tt, s') ->
       Model.rename self name w =
       (Ok self, {| remote := s'; trace := trace w ++ [update];
                    heap := <[self := Model.set_name name this]> (heap w) |}))
  /\ (forall l w1,
       Model.rename self name w = (Ok l, w1) ->
       l = self
       /\ heap w1 !! self = Some (Model.set_name name this)
       /\ heap (Model.rename self name w1).2 = heap w1
       /\ (forall l2 w2, Model.rename self name w1 = (Ok l2, w2) -> l2 = self))
  /\ (forall l w1,
       Model.rename self name w = (Ok l, w1) ->
       (exists this',
          heap w1 !! self = Some this'
          /\ Model.name this' = name
          /\ Model.app_id this' = Model.app_id this
          /\ Model.model_id this' = Model.model_id this
          /\ Model.model_type this' = Model.model_type this
          /\ Model.sub_model_type this' = Model.sub_model_type this
          /\ Model.description this' = Model.description this
          /\ Model.created_at this' = Model.created_at this
          /\ Model.modified_at this' = Model.modified_at this
          /\ Model.__client this' = Some client)
       /\ length (heap w1) = length (heap w)
       /\ (forall other, other <> self -> heap w1 !! other = heap w !! other)).
Proof.
  intros Hself Hclient update.
  destruct (edit_model (component client) (Model.app_id this)
              (Model.model_id this) (Some name) None None (remote w))
    as [r s1] eqn:Hedit.
  pose proof (rename_run self this client name w r s1 Hself Hclient Hedit) as Hrun.
  cbv zeta in Hrun. split_and!.
  - rewrite Hrun. by destruct r.
  - intros s' Hs'. simplify_eq. done.
  - intros l w1' Hfirst. rewrite Hrun in Hfirst. destruct r as [[]|e]; [|done].
    injection Hfirst as Hl Hw1. subst l w1'.
    set (w1 := {| remote := s1; trace := trace w ++ [update];
                  heap := <[self := Model.set_name name this]> (heap w) |}).
    assert (heap w1 !! self = Some (Model.set_name name this)) as Hself1.
    { apply list_lookup_insert_eq. by eapply lookup_lt_Some. }
    destruct (edit_model (component client) (Model.app_id this)
                (Model.model_id this) (Some name) None None (remote w1))
      as [r2 s2] eqn:Hedit2.
    pose proof (rename_run self (Model.set_name name this) client name w1 r2 s2
                  Hself1 Hclient Hedit2) as Hrun2.
    cbv zeta in Hrun2. split_and!; [done..| |].
    + change (heap (Model.rename self name w1).2 = heap w1).
      rewrite Hrun2. destruct r2 as [[]|e2]; [|done].
      simpl. by rewrite list_insert_insert_eq.
    + intros l2 w2 Hsecond. change (Model.rename self name w1 = (Ok l2, w2)) in Hsecond.
      rewrite Hrun2 in Hsecond.
      destruct r2 as [[]|e2]; [|done]. by injection Hsecond as Hl2 _.
  - intros l w1' Hfirst. rewrite Hrun in Hfirst. destruct r as [[]|e]; [|done].
    injection Hfirst as Hl Hw1. subst l w1'. simpl. split_and!.
    + exists (Model.set_name name this).
      destruct (set_name_fields name this)
        as (Hname & Happ & Hid & Htype & Hsub & Hdesc & Hcreated & Hmodified
            & Hcl).
      split; [apply list_lookup_insert_eq; by eapply lookup_lt_Some|].
      split_and!; [done..|]. by rewrite Hcl.
    + by rewrite length_insert.
    + intros other Hother. by rewrite list_lookup_insert_ne.
Qed.

(** C4.  [move] on a live model that holds a client sends exactly one
    update, for the model's own (app_id, model_id) and with the directory
    only, and returns [self] when it succeeds.  The object store afterwards
    is the store before: the model has no directory field, and none of its
    eight fields changes, whether the update succeeds or fails. *)
Theorem move_keeps_local_fields `{Platform} (self : nat) (this : Model.t)
    (client : Client) (directory : Directory) (w : World Model.t) :
  heap w !! self = Some this ->
  Model.__client this = Some client ->
  let result := Model.move self directory w in
  trace result.2 = trace w ++ [EditModel (Model.app_id this)
                     (Model.model_id this) None (Some directory) None]
  /\ heap result.2 = heap w
  /\ heap result.2 !! self = Some this
  /\ (forall s',
       edit_model (component client) (Model.app_id this) (Model.model_id this)
         None (Some directory) None (remote w) = (Ok tt, s') ->
       result.1 = Ok self /\ remote result.2 = s').
Proof.
  intros Hself Hclient result. subst result.
  destruct (edit_model (component client) (Model.app_id this)
              (Model.model_id this) None (Some directory) None (remote w))
    as [r s1] eqn:Hedit.
  rewrite (move_run self this client directory w r s1 Hself Hclient Hedit).
  destruct r as [[]|e]; simpl; split_and!; try done.
  intros s' Hs'. by simplify_eq.
Qed.

(** C9.  When the update sent by [rename] or by [update_description] raises,
    the method raises that very exception, and the object store is the one
    before the call: [name] and [description] keep their values.  The
    assignment to the field comes after the remote call and is not reached. *)
Theorem failed_update_leaves_mirror `{Platform} (self : nat) (this : Model.t)
    (client : Client) (w : World Model.t) (e : Exception) (s' : Remote) :
  heap w !! self = Some this ->
  Model.__client this = Some client ->
  (forall name,
     edit_model (component client) (Model.app_id this) (Model.model_id this)
       (Some name) None None (remote w) = (Raise e, s') ->
     Model.rename self name w =
     (Raise e,
      {| remote := s';
         trace := trace w ++ [EditModel (Model.app_id this)
                    (Model.model_id this) (Some name) None None];
         heap := heap w |}))
  /\ (forall description,
       edit_model (component client) (Model.app_id this) (Model.model_id this)
         None None (Some description) (remote w) = (Raise e, s') ->
       Model.update_description self description w =
       (Raise e,
        {| remote := s';
           trace := trace w ++ [EditModel (Model.app_id this)
                      (Model.model_id this) None None (Some description)];
           heap := heap w |})).
Proof.
  intros Hself Hclient. split.
  - intros name Hedit.
    by rewrite (rename_run self this client name w _ _ Hself Hclient Hedit).
  - intros description Hedit.
    by rewrite (update_description_run self this client description w _ _
                  Hself Hclient Hedit).
Qed.

Section ModelMethodExamples.
#[local] Existing Instance Demo.platform.

Lemma rename_mirrors_name_witness :
  let client := Demo.client_up [] [] in
  let w := Demo.world client in
  (heap w !! 0 = Some (Demo.a_model client)
   /\ Model.__client (Demo.a_model client) = Some client)
  /\ Model.rename 0 "Y" w =
     (Ok 0,
      {| remote := 1;
         trace := [EditModel "app-1" "m-1" (Some "Y") None None];
         heap := [Model.set_name "Y" (Demo.a_model client)] |})
  /\ heap (Model.rename 0 "Y" (Model.rename 0 "Y" w).2).2 =
     heap (Model.rename 0 "Y" w).2
  /\ exists this',
       heap (Model.rename 0 "Y" w).2 !! 0 = Some this'
       /\ Model.name this' = "Y"
       /\ Model.model_id this' = "m-1".
Proof.
  intros client w.
  assert (heap w !! 0 = Some (Demo.a_model client)) as Hself by reflexivity.
  assert (Model.__client (Demo.a_model client) = Some client) as Hclient
    by reflexivity.
  destruct (rename_mirrors_name 0 (Demo.a_model client) client "Y" w
              Hself Hclient) as (_ & Hok & Hidem & Hfields).
  split; [by split|]. split_and!.
  - exact (Hok 1 eq_refl).
  - destruct (Hidem 0 _ (Hok 1 eq_refl)) as (_ & _ & Hheap & _).
    rewrite (Hok 1 eq_refl). exact Hheap.
  - destruct (Hfields 0 _ (Hok 1 eq_refl))
      as ((this' & Hthis' & Hname & _ & Hid & _) & _).
    exists this'. rewrite (Hok 1 eq_refl). by split_and!.
Defined.

Lemma move_keeps_local_fields_witness :
  let client := Demo.client_up [] [] in
  let w := Demo.world client in
  (heap w !! 0 = Some (Demo.a_model client)
   /\ Model.__client (Demo.a_model client) = Some client)
  /\ trace (Model.move 0 "dir-2" w).2 =
     [EditModel "app-1" "m-1" None (Some "dir-2") None]
  /\ heap (Model.move 0 "dir-2" w).2 = [Demo.a_model client]
  /\ (Model.move 0 "dir-2" w).1 = Ok 0.
Proof.
  intros client w.
  assert (heap w !! 0 = Some (Demo.a_model client)) as Hself by reflexivity.
  assert (Model.__client (Demo.a_model client) = Some client) as Hclient
    by reflexivity.
  destruct (move_keeps_local_fields 0 (Demo.a_model client) client "dir-2" w
              Hself Hclient) as (Htrace & Hheap & _ & Hok).
  split; [by split|]. split_and!.
  - exact Htrace.
  - exact Hheap.
  - exact (proj1 (Hok 1 eq_refl)).
Defined.

Lemma failed_update_leaves_mirror_witness :
  let client := Demo.client_down in
  let w := Demo.world client in
  (heap w !! 0 = Some (Demo.a_model client)
   /\ Model.__client (Demo.a_model client) = Some client)
  /\ Model.rename 0 "Y" w =
     (Raise Demo.unreachable,
      {| remote := 0;
         trace := [EditModel "app-1" "m-1" (Some "Y") None None];
         heap := [Demo.a_model client] |})
  /\ Model.update_description 0 "new text" w =
     (Raise Demo.unreachable,
      {| remote := 0;
         trace := [EditModel "app-1" "m-1" None None (Some "new text")];
         heap := [Demo.a_model client] |}).
Proof.
  intros client w.
  assert (heap w !! 0 = Some (Demo.a_model client)) as Hself by reflexivity.
  assert (Model.__client (Demo.a_model client) = Some client) as Hclient
    by reflexivity.
  destruct (failed_update_leaves_mirror 0 (Demo.a_model client) client w
              Demo.unreachable 0 Hself Hclient) as (Hrename & Hdescription).
  split; [by split|]. split.
  - exact (Hrename "Y" eq_refl).
  - exact (Hdescription "new text" eq_refl).
Defined.
End ModelMethodExamples.

(** ** Validation of incoming records *)

Section ValidationLemmas.
Context `{Platform}.
Implicit Types (data : gmap string Any) (v : Any).

Lemma validate_str_Some v (s : string) : validate_str v = Some s <-> v = PyStr s.
Proof. destruct v; simpl; split; intros Hv; by simplify_eq. Qed.

Lemma validate_field_single {A : Type} (key : string)
    (validator : Any -> option A) data :
  validate_field [key] validator data =
  match data !! key with
  | Some v => match validator v with Some a => inr a | None => inl key end
  | None => inl key
  end.
Proof. unfold validate_field. simpl. by destruct (data !! key). Qed.

(** The [app_id] field reads key ["app_id"] when it is there... *)
Lemma app_id_field_present data v :
  data !! "app_id" = Some v ->
  validate_field ["app_id"; "project_id"] validate_str data =
  match validate_str v with Some a => inr a | None => inl "app_id" end.
Proof. intros Happ. unfold validate_field. simpl. by rewrite Happ. Qed.

(** ... and key ["project_id"] only when ["app_id"] is absent. *)
Lemma app_id_field_alias data v :
  data !! "app_id" = None ->
  data !! "project_id" = Some v ->
  validate_field ["app_id"; "project_id"] validate_str data =
  match validate_str v with Some a => inr a | None => inl "project_id" end.
Proof.
  intros Happ Hproject. unfold validate_field. simpl. by rewrite Happ, Hproject.
Qed.

Lemma app_id_field_value data (a : string) :
  validate_field ["app_id"; "project_id"] validate_str data = inr a ->
  match data !! "app_id" with
  | Some v => v = PyStr a
  | None => data !! "project_id" = Some (PyStr a)
  end.
Proof.
  unfold validate_field. simpl.
  destruct (data !! "app_id") as [v|] eqn:Happ.
  - destruct (validate_str v) eqn:Hv; [|done].
    intros [= ->]. by apply validate_str_Some.
  - destruct (data !! "project_id") as [v|] eqn:Hproject; [|done].
    destruct (validate_str v) eqn:Hv; [|done].
    intros [= ->]. f_equal. by apply validate_str_Some.
Qed.

Lemma keyed_by_app_id_other {A : Type} (key : string)
    (validator : Any -> option A) data v :
  key ≠ "app_id" -> key ≠ "project_id" ->
  validate_field [key] validator (keyed_by_app_id data v) =
  validate_field [key] validator data.
Proof.
  intros Happ Hproject. rewrite !validate_field_single. unfold keyed_by_app_id.
  by rewrite lookup_insert_ne, lookup_delete_ne.
Qed.

Lemma keyed_by_app_id_field data v :
  validate_field ["app_id"; "project_id"] validate_str (keyed_by_app_id data v) =
  match validate_str v with Some a => inr a | None => inl "app_id" end.
Proof. apply app_id_field_present. unfold keyed_by_app_id. apply lookup_insert_eq. Qed.

(** What [{"app_id": app_id, **data}] holds. *)
Lemma dict_unpack_over_present (key : string) (x : Any) data :
  is_Some (data !! key) -> dict_unpack_over key x data = data.
Proof.
  intros [v Hv]. unfold dict_unpack_over. apply map_eq. intros k.
  rewrite lookup_union, lookup_singleton.
  destruct (decide (key = k)) as [<-|]; [by rewrite Hv|].
  by destruct (data !! k).
Qed.

Lemma dict_unpack_over_absent (key : string) (x : Any) data :
  data !! key = None -> dict_unpack_over key x data = <[key := x]> data.
Proof.
  intros Hk. unfold dict_unpack_over. apply map_eq. intros k.
  rewrite lookup_union, lookup_singleton, lookup_insert.
  destruct (decide (key = k)) as [<-|]; [by rewrite Hk|].
  by destruct (data !! k).
Qed.

(** A validated entity reports the [app_id] field that was read. *)
Lemma Model_validate_app_id data (m : Model.t) :
  Model.model_validate data = Ok m ->
  validate_field ["app_id"; "project_id"] validate_str data = inr (Model.app_id m).
Proof.
  unfold Model.model_validate.
  destruct (validate_field ["app_id"; "project_id"] _ _); [done|].
  destruct (validate_field ["model_id"] _ _); [done|].
  destruct (validate_field ["name"] _ _); [done|].
  destruct (validate_field ["model_type"] _ _); [done|].
  destruct (validate_field ["sub_model_type"] _ _); [done|].
  destruct (validate_field ["description"] _ _); [done|].
  destruct (validate_field ["created_at"] _ _); [done|].
  destruct (validate_field ["modified_at"] _ _); [done|].
  by intros [= <-].
Qed.

Lemma ModelVersion_validate_app_id data (mv : ModelVersion.t) :
  ModelVersion.model_validate data = Ok mv ->
  validate_field ["app_id"; "project_id"] validate_str data =
  inr (ModelVersion.app_id mv).
Proof.
  unfold ModelVersion.model_validate.
  destruct (validate_field ["app_id"; "project_id"] _ _); [done|].
  destruct (validate_field ["model_id"] _ _); [done|].
  destruct (validate_field ["version_id"] _ _); [done|].
  destruct (validate_field ["version"] _ _); [done|].
  destruct (validate_field ["hyperparameters"] _ _); [done|].
  destruct (validate_field ["metrics"] _ _); [done|].
  destruct (validate_field ["created_at"] _ _); [done|].
  destruct (validate_field ["modified_at"] _ _); [done|].
  by intros [= <-].
Qed.

Lemma ModelDirectory_validate_app_id data (d : ModelDirectory.t) :
  ModelDirectory.model_validate data = Ok d ->
  validate_field ["app_id"; "project_id"] validate_str data =
  inr (ModelDirectory.app_id d).
Proof.
  unfold ModelDirectory.model_validate.
  destruct (validate_field ["app_id"; "project_id"] _ _); [done|].
  destruct (validate_field ["directory_id"] _ _); [done|].
  destruct (validate_field ["name"] _ _); [done|].
  by intros [= <-].
Qed.

(** A record keyed by [project_id] validates exactly when the same record
    keyed by [app_id] does, and to the same entity. *)
Lemma Model_validate_alias data v (m : Model.t) :
  data !! "app_id" = None ->
  data !! "project_id" = Some v ->
  Model.model_validate data = Ok m <->
  Model.model_validate (keyed_by_app_id data v) = Ok m.
Proof.
  intros Happ Hproject. unfold Model.model_validate.
  rewrite !keyed_by_app_id_other by done.
  rewrite keyed_by_app_id_field, (app_id_field_alias data v) by done.
  by destruct (validate_str v).
Qed.

Lemma ModelVersion_validate_alias data v (mv : ModelVersion.t) :
  data !! "app_id" = None ->
  data !! "project_id" = Some v ->
  ModelVersion.model_validate data = Ok mv <->
  ModelVersion.model_validate (keyed_by_app_id data v) = Ok mv.
Proof.
  intros Happ Hproject. unfold ModelVersion.model_validate.
  rewrite !keyed_by_app_id_other by done.
  rewrite keyed_by_app_id_field, (app_id_field_alias data v) by done.
  by destruct (validate_str v).
Qed.

Lemma ModelDirectory_validate_alias data v (d : ModelDirectory.t) :
  data !! "app_id" = None ->
  data !! "project_id" = Some v ->
  ModelDirectory.model_validate data = Ok d <->
  ModelDirectory.model_validate (keyed_by_app_id data v) = Ok d.
Proof.
  intros Happ Hproject. unfold ModelDirectory.model_validate.
  rewrite !keyed_by_app_id_other by done.
  rewrite keyed_by_app_id_field, (app_id_field_alias data v) by done.
  by destruct (validate_str v).
Qed.

Lemma ModelVersion_from_dict_Ok (app_id : string) data (client : Client)
    (mv : ModelVersion.t) :
  ModelVersion.from_dict app_id data client = Ok mv ->
  exists fields,
    ModelVersion.model_validate (dict_unpack_over "app_id" (PyStr app_id) data)
      = Ok fields
    /\ mv = ModelVersion.set_client client fields.
Proof.
  unfold ModelVersion.from_dict.
  destruct (ModelVersion.model_validate _) as [fields|e]; [|done].
  intros [= <-]. by exists fields.
Qed.
End ValidationLemmas.

(** C8 (as amended).  A record that has [project_id] and no [app_id]:
    - [Model.from_dict] and [ModelDirectory.from_dict] accept it exactly when
      they accept the same record keyed by [app_id], with the same result,
      and the entity's [app_id] is the record's [project_id] value;
    - the validation of [ModelVersion] honours the alias in the same way, but
      [ModelVersion.from_dict] first puts its [app_id] argument under key
      [app_id], which is read before [project_id]: the version's [app_id] is
      the argument, whatever the record's [project_id] says. *)
Theorem project_id_alias `{Platform} (data : gmap string Any) (v : Any) :
  data !! "app_id" = None ->
  data !! "project_id" = Some v ->
  (forall client (w : World Model.t),
     (forall l w', Model.from_dict data client w = (Ok l, w') <->
                   Model.from_dict (keyed_by_app_id data v) client w = (Ok l, w'))
     /\ (forall l w', Model.from_dict data client w = (Ok l, w') ->
           exists m, heap w' !! l = Some m /\ PyStr (Model.app_id m) = v))
  /\ (forall client d,
       (ModelDirectory.from_dict data client = Ok d <->
        ModelDirectory.from_dict (keyed_by_app_id data v) client = Ok d)
       /\ (ModelDirectory.from_dict data client = Ok d ->
           PyStr (ModelDirectory.app_id d) = v))
  /\ (forall mv,
       (ModelVersion.model_validate data = Ok mv <->
        ModelVersion.model_validate (keyed_by_app_id data v) = Ok mv)
       /\ (ModelVersion.model_validate data = Ok mv ->
           PyStr (ModelVersion.app_id mv) = v))
  /\ (forall app_id client mv,
       ModelVersion.from_dict app_id data client = Ok mv ->
       ModelVersion.app_id mv = app_id).
Proof.
  intros Happ Hproject.
  assert (forall a : string,
            validate_field ["app_id"; "project_id"] validate_str data = inr a ->
            PyStr a = v) as Hfield.
  { intros a Ha. apply app_id_field_value in Ha. rewrite Happ, Hproject in Ha.
    by injection Ha as <-. }
  split_and!.
  - intros client w. split.
    + intros l w'. rewrite !from_dict_run.
      destruct (Model.model_validate data) as [m|e] eqn:Hdata.
      * apply (Model_validate_alias data v m Happ Hproject) in Hdata.
        by rewrite Hdata.
      * destruct (Model.model_validate (keyed_by_app_id data v)) as [m'|e'] eqn:Hdata'.
        -- apply (Model_validate_alias data v m' Happ Hproject) in Hdata'.
           congruence.
        -- split; intros; discriminate.
    + intros l w'. rewrite from_dict_run.
      destruct (Model.model_validate data) as [m|e] eqn:Hdata; [|done].
      intros [= <- <-]. exists (Model.set_client client m). split.
      * simpl. rewrite lookup_app_r by lia. by rewrite Nat.sub_diag.
      * change (PyStr (Model.app_id m) = v).
        apply Hfield. by apply Model_validate_app_id.
  - intros client d. unfold ModelDirectory.from_dict. split.
    + destruct (ModelDirectory.model_validate data) as [m|e] eqn:Hdata.
      * apply (ModelDirectory_validate_alias data v m Happ Hproject) in Hdata.
        by rewrite Hdata.
      * destruct (ModelDirectory.model_validate (keyed_by_app_id data v))
          as [m'|e'] eqn:Hdata'.
        -- apply (ModelDirectory_validate_alias data v m' Happ Hproject) in Hdata'.
           congruence.
        -- split; intros; discriminate.
    + destruct (ModelDirectory.model_validate data) as [m|e] eqn:Hdata; [|done].
      intros [= <-]. change (PyStr (ModelDirectory.app_id m) = v).
      apply Hfield. by apply ModelDirectory_validate_app_id.
  - intros mv. split.
    + by apply ModelVersion_validate_alias.
    + intros Hdata. apply Hfield. by apply ModelVersion_validate_app_id.
  - intros app_id client mv (fields & Hfields & ->)%ModelVersion_from_dict_Ok.
    apply ModelVersion_validate_app_id, app_id_field_value in Hfields.
    rewrite dict_unpack_over_absent in Hfields by done.
    rewrite lookup_insert_eq in Hfields. simpl. congruence.
Qed.

(** C10 (as amended).  [ModelVersion.from_dict] reads the [app_id] of the
    version from the record's own [app_id] entry when the record has one:
    the argument then plays no part at all.  When the record has no [app_id]
    entry the version's [app_id] is the argument, also when the record has a
    [project_id] entry. *)
Theorem from_dict_app_id_precedence `{Platform} (app_id : string)
    (data : gmap string Any) (client : Client) :
  (is_Some (data !! "app_id") ->
   forall other, ModelVersion.from_dict other data client =
                 ModelVersion.from_dict app_id data client)
  /\ (forall v mv,
       data !! "app_id" = Some v ->
       ModelVersion.from_dict app_id data client = Ok mv ->
       PyStr (ModelVersion.app_id mv) = v)
  /\ (forall mv,
       data !! "app_id" = None ->
       ModelVersion.from_dict app_id data client = Ok mv ->
       ModelVersion.app_id mv = app_id).
Proof.
  split_and!.
  - intros Happ other. unfold ModelVersion.from_dict.
    by rewrite !dict_unpack_over_present.
  - intros v mv Happ (fields & Hfields & ->)%ModelVersion_from_dict_Ok.
    apply ModelVersion_validate_app_id, app_id_field_value in Hfields.
    rewrite dict_unpack_over_present in Hfields by done.
    rewrite Happ in Hfields. simpl. congruence.
  - intros mv Happ (fields & Hfields & ->)%ModelVersion_from_dict_Ok.
    apply ModelVersion_validate_app_id, app_id_field_value in Hfields.
    rewrite dict_unpack_over_absent in Hfields by done.
    rewrite lookup_insert_eq in Hfields. simpl. congruence.
Qed.

(** C7.  [to_dict] returns a dict with the three keys [directory_id], [type]
    and [name], in that order and no other; [directory_id] and [name] map to
    the directory's own fields and [type] to [DirectoryType.MODEL], for
    every directory alike. *)
Theorem to_dict_three_keys `{Platform} (d d' : ModelDirectory.t) :
  dict_keys (ModelDirectory.to_dict d) = ["directory_id"; "type"; "name"]
  /\ dict_get "directory_id" (ModelDirectory.to_dict d) =
     Some (DStr (ModelDirectory.directory_id d))
  /\ dict_get "name" (ModelDirectory.to_dict d) =
     Some (DStr (ModelDirectory.name d))
  /\ dict_get "type" (ModelDirectory.to_dict d) = Some (DType MODEL)
  /\ ModelDirectory.type d = ModelDirectory.type d'
  /\ dict_get "type" (ModelDirectory.to_dict d) =
     dict_get "type" (ModelDirectory.to_dict d').
Proof. by split_and!. Qed.

Section AliasExamples.
#[local] Existing Instance Demo.platform.

Lemma project_id_alias_witness :
  let data := Demo.model_record "project_id" "proj-9" "m-1" "Model One" in
  let dir := Demo.directory_record "project_id" "proj-9" in
  let client := Demo.client_up [] [] in
  (data !! "app_id" = None /\ data !! "project_id" = Some (PyStr "proj-9"))
  /\ (exists m,
       heap (Model.from_dict data client Demo.empty_world).2 !! 0 = Some m
       /\ PyStr (Model.app_id m) = PyStr "proj-9")
  /\ (dir !! "app_id" = None /\ dir !! "project_id" = Some (PyStr "proj-9"))
  /\ (forall d, ModelDirectory.from_dict dir client = Ok d ->
                PyStr (ModelDirectory.app_id d) = PyStr "proj-9").
Proof.
  intros data dir client.
  assert (data !! "app_id" = None) as Happ by (vm_compute; reflexivity).
  assert (data !! "project_id" = Some (PyStr "proj-9")) as Hproject
    by (vm_compute; reflexivity).
  assert (dir !! "app_id" = None) as Happ' by (vm_compute; reflexivity).
  assert (dir !! "project_id" = Some (PyStr "proj-9")) as Hproject'
    by (vm_compute; reflexivity).
  split; [by split|]. split; [|split; [by split|]].
  - destruct (project_id_alias data (PyStr "proj-9") Happ Hproject)
      as (Hmodel & _).
    destruct (Hmodel client Demo.empty_world) as (_ & Hvalue).
    apply (Hvalue 0 (Model.from_dict data client Demo.empty_world).2).
    vm_compute. reflexivity.
  - intros d.
    destruct (project_id_alias dir (PyStr "proj-9") Happ' Hproject')
      as (_ & Hdirectory & _).
    apply (Hdirectory client d).
Defined.

(** C8 as stated fails for [ModelVersion]: a version record keyed by
    [project_id] "proj-9", constructed by [ModelVersion.from_dict] with the
    argument "app-1", is a version of app "app-1". *)
Lemma project_id_alias_counterexample :
  let data := Demo.version_record [("project_id", PyStr "proj-9")] "v-1" "first" in
  let client := Demo.client_up [] [] in
  data !! "app_id" = None
  /\ data !! "project_id" = Some (PyStr "proj-9")
  /\ exists mv,
       ModelVersion.from_dict "app-1" data client = Ok mv
       /\ ModelVersion.app_id mv = "app-1"
       /\ ModelVersion.app_id mv <> "proj-9".
Proof.
  intros data client.
  split; [vm_compute; reflexivity|]. split; [vm_compute; reflexivity|].
  eexists. split; [vm_compute; reflexivity|]. split; [reflexivity|discriminate].
Qed.

Lemma from_dict_app_id_precedence_witness :
  let own := Demo.version_record [("app_id", PyStr "app-record")] "v-1" "first" in
  let bare := Demo.version_record [] "v-1" "first" in
  let client := Demo.client_up [] [] in
  (own !! "app_id" = Some (PyStr "app-record") /\ bare !! "app_id" = None)
  /\ ModelVersion.from_dict "app-1" own client =
     ModelVersion.from_dict "app-2" own client
  /\ (forall mv, ModelVersion.from_dict "app-1" own client = Ok mv ->
                 PyStr (ModelVersion.app_id mv) = PyStr "app-record")
  /\ (forall mv, ModelVersion.from_dict "app-1" bare client = Ok mv ->
                 ModelVersion.app_id mv = "app-1").
Proof.
  intros own bare client.
  assert (own !! "app_id" = Some (PyStr "app-record")) as Hown
    by (vm_compute; reflexivity).
  assert (bare !! "app_id" = None) as Hbare by (vm_compute; reflexivity).
  split; [by split|]. split_and!.
  - apply (from_dict_app_id_precedence "app-2" own client). by eexists.
  - intros mv.
    apply (from_dict_app_id_precedence "app-1" own client). exact Hown.
  - intros mv.
    apply (from_dict_app_id_precedence "app-1" bare client). exact Hbare.
Defined.

(** C10 as stated fails on a record that has [project_id] and no [app_id]:
    the record carries such a key, and still the argument is the version's
    [app_id]. *)
Lemma from_dict_app_id_precedence_counterexample :
  let data := Demo.version_record [("project_id", PyStr "legacy")] "v-7" "seventh" in
  let client := Demo.client_up [] [] in
  data !! "project_id" = Some (PyStr "legacy")
  /\ exists mv,
       ModelVersion.from_dict "app-2" data client = Ok mv
       /\ ModelVersion.app_id mv = "app-2"
       /\ PyStr (ModelVersion.app_id mv) <> PyStr "legacy".
Proof.
  intros data client. split; [vm_compute; reflexivity|].
  eexists. split; [vm_compute; reflexivity|]. split; [reflexivity|discriminate].
Qed.
End AliasExamples.

(** ** Dictionaries built by insertion *)

Section DictLemmas.
Context {V : Type}.
Implicit Types (d : dict V) (k : string) (v : V) (items : list (string * V)).

Lemma dict_setitem_fresh k v d :
  k ∉ dict_keys d -> dict_setitem k v d = d ++ [(k, v)].
Proof.
  induction d as [|[k' v'] d IH]; simpl; [done|].
  intros [Hne Hd]%not_elem_of_cons.
  rewrite decide_False by done. by rewrite IH.
Qed.

Lemma elem_of_dict_keys_setitem k' k v d :
  k' ∈ dict_keys (dict_setitem k v d) <-> k' = k \/ k' ∈ dict_keys d.
Proof.
  induction d as [|[k0 v0] d IH]; simpl.
  - rewrite list_elem_of_singleton, elem_of_nil. tauto.
  - destruct (decide (k0 = k)) as [->|Hne]; simpl.
    + rewrite elem_of_cons. tauto.
    + rewrite !elem_of_cons, IH. tauto.
Qed.

Lemma NoDup_dict_keys_setitem k v d :
  NoDup (dict_keys d) -> NoDup (dict_keys (dict_setitem k v d)).
Proof.
  induction d as [|[k0 v0] d IH]; simpl.
  - intros _. apply NoDup_singleton.
  - intros [Hk0 Hd]%NoDup_cons.
    destruct (decide (k0 = k)) as [->|Hne]; simpl.
    + by apply NoDup_cons.
    + apply NoDup_cons. split; [|by apply IH].
      intros [->| Hin]%elem_of_dict_keys_setitem; done.
Qed.

Lemma dict_get_setitem_eq k v d : dict_get k (dict_setitem k v d) = Some v.
Proof.
  induction d as [|[k0 v0] d IH]; simpl.
  - by rewrite decide_True.
  - destruct (decide (k0 = k)) as [->|Hne]; simpl.
    + by rewrite decide_True.
    + by rewrite decide_False.
Qed.

Lemma dict_get_setitem_ne k' k v d :
  k' ≠ k -> dict_get k' (dict_setitem k v d) = dict_get k' d.
Proof.
  intros Hne. induction d as [|[k0 v0] d IH]; simpl.
  - by rewrite decide_False.
  - destruct (decide (k0 = k)) as [->|Hne0]; simpl.
    + by rewrite !decide_False.
    + by rewrite IH.
Qed.

Lemma dict_get_Some_elem_of k v d : dict_get k d = Some v -> (k, v) ∈ d.
Proof.
  induction d as [|[k0 v0] d IH]; simpl; [done|].
  destruct (decide (k0 = k)) as [->|Hne].
  - intros [= ->]. apply elem_of_cons. by left.
  - intros Hd. apply elem_of_cons. right. by apply IH.
Qed.

Lemma dict_get_is_Some k d : is_Some (dict_get k d) <-> k ∈ dict_keys d.
Proof.
  induction d as [|[k0 v0] d IH]; simpl.
  - rewrite elem_of_nil. split; [by intros [? ?]|done].
  - rewrite elem_of_cons. destruct (decide (k0 = k)) as [->|Hne].
    + split; [by left|by eexists].
    + rewrite IH. split; [by right|]. by intros [->|].
Qed.

Lemma insert_items_snoc items k v d :
  insert_items (items ++ [(k, v)]) d = dict_setitem k v (insert_items items d).
Proof. unfold insert_items. by rewrite fold_left_app. Qed.

Lemma elem_of_dict_keys_insert_items k items d :
  k ∈ dict_keys (insert_items items d) <-> k ∈ dict_keys d \/ k ∈ items.*1.
Proof.
  induction items as [|[k0 v0] items IH] using rev_ind.
  - simpl. rewrite elem_of_nil. tauto.
  - rewrite insert_items_snoc, elem_of_dict_keys_setitem, IH.
    rewrite fmap_app, elem_of_app. simpl. rewrite list_elem_of_singleton. tauto.
Qed.

Lemma NoDup_dict_keys_insert_items items d :
  NoDup (dict_keys d) -> NoDup (dict_keys (insert_items items d)).
Proof.
  intros Hd. induction items as [|[k0 v0] items IH] using rev_ind; [done|].
  rewrite insert_items_snoc. by apply NoDup_dict_keys_setitem.
Qed.

(** Items with pairwise distinct new keys are appended as they come. *)
Lemma insert_items_distinct items d :
  NoDup (dict_keys d ++ items.*1) -> insert_items items d = d ++ items.
Proof.
  induction items as [|[k0 v0] items IH] using rev_ind.
  - intros _. simpl. by rewrite app_nil_r.
  - rewrite fmap_app, app_assoc. simpl.
    intros (Hrest & Hk0 & _)%NoDup_app.
    rewrite insert_items_snoc, IH by done.
    rewrite dict_setitem_fresh; [by rewrite app_assoc|].
    intros Hin. apply (Hk0 k0); [|by apply list_elem_of_singleton].
    unfold dict_keys in Hin. by rewrite map_app in Hin.
Qed.

(** The last item with a given key decides the value stored under it. *)
Lemma dict_get_insert_items_last items1 k v items2 d :
  k ∉ items2.*1 ->
  dict_get k (insert_items (items1 ++ (k, v) :: items2) d) = Some v.
Proof.
  induction items2 as [|[k0 v0] items2 IH] using rev_ind.
  - intros _. rewrite insert_items_snoc. apply dict_get_setitem_eq.
  - rewrite fmap_app. simpl. intros [Hitems2 Hk0]%not_elem_of_app.
    rewrite app_comm_cons, app_assoc, insert_items_snoc.
    rewrite dict_get_setitem_ne; [by apply IH|].
    intros ->. apply Hk0. by apply list_elem_of_singleton.
Qed.

(** Every value of the dict is one of the inserted ones, under its key. *)
Lemma dict_get_insert_items_Some k v items d :
  dict_get k (insert_items items d) = Some v ->
  (k, v) ∈ items \/ dict_get k d = Some v.
Proof.
  induction items as [|[k0 v0] items IH] using rev_ind; [by right|].
  rewrite insert_items_snoc. destruct (decide (k = k0)) as [->|Hne].
  - rewrite dict_get_setitem_eq. intros [= ->]. left.
    apply elem_of_app. right. by apply list_elem_of_singleton.
  - rewrite dict_get_setitem_ne by done. intros [Hin|Hd]%IH; [|by right].
    left. apply elem_of_app. by left.
Qed.

Lemma length_insert_items items d :
  length (insert_items items d) <= length d + length items.
Proof.
  induction items as [|[k0 v0] items IH] using rev_ind; [simpl; lia|].
  rewrite insert_items_snoc, length_app. simpl.
  assert (forall d', length (dict_setitem k0 v0 d') <= S (length d')) as Hset.
  { induction d' as [|[k1 v1] d' IHd]; simpl; [lia|].
    destruct (decide (k1 = k0)); simpl; lia. }
  specialize (Hset (insert_items items d)). lia.
Qed.
End DictLemmas.

(** ** The order of the keys *)

Section FirstOccurrences.
Implicit Types (k : string) (l ks : list string).

Lemma filter_split_inv {A : Type} (P : A -> Prop) `{forall x, Decision (P x)}
    (l : list A) (ks1 : list A) (k : A) (ks2 : list A) :
  filter P l = ks1 ++ k :: ks2 ->
  exists (l1 l2 : list A), l = l1 ++ k :: l2 /\ filter P l1 = ks1 /\ P k.
Proof.
  revert ks1. induction l as [|x l IH]; intros ks1 Hl.
  - by destruct ks1.
  - rewrite filter_cons in Hl. destruct (decide (P x)) as [Hx|Hx].
    + destruct ks1 as [|y ks1]; simpl in Hl.
      * injection Hl as -> _. by exists [], l.
      * injection Hl as -> Hl.
        destruct (IH ks1 Hl) as (l1 & l2 & -> & <- & Hk).
        exists (y :: l1), l2. split_and!; [done| |done].
        by rewrite filter_cons_True.
    + destruct (IH ks1 Hl) as (l1 & l2 & -> & <- & Hk).
      exists (x :: l1), l2. split_and!; [done| |done].
      by rewrite filter_cons_False.
Qed.

(** Where a key stands among the first occurrences: the keys before it are
    those that occur in the list before its own first occurrence. *)
Lemma first_occurrences_split l ks1 k ks2 :
  first_occurrences l = ks1 ++ k :: ks2 ->
  exists l1 l2,
    l = l1 ++ k :: l2 /\ (k ∉ l1) /\ (forall k', k' ∈ ks1 <-> k' ∈ l1).
Proof.
  revert ks1 ks2. induction l as [|a l IH]; intros ks1 ks2 Hl.
  - by destruct ks1.
  - simpl in Hl. destruct ks1 as [|b ks1]; simpl in Hl.
    + injection Hl as -> _. exists [], l. split_and!; [done| |done].
      by intros ?%elem_of_nil.
    + injection Hl as <- Hl.
      apply filter_split_inv in Hl as (f1 & f2 & Hf & <- & Hk).
      destruct (IH f1 f2 Hf) as (l1 & l2 & -> & Hfresh & Hsame).
      exists (a :: l1), l2. split_and!; [done| |].
      * by intros [?|?]%elem_of_cons.
      * intros k'. rewrite !elem_of_cons, list_elem_of_filter, Hsame.
        destruct (decide (k' = a)); tauto.
Qed.
End FirstOccurrences.

Section DictKeyOrder.
Context {V : Type}.
Implicit Types (d : dict V) (k : string) (v : V) (items : list (string * V)).

Lemma dict_keys_setitem k v d :
  dict_keys (dict_setitem k v d) =
  if decide (k ∈ dict_keys d) then dict_keys d else dict_keys d ++ [k].
Proof.
  induction d as [|[k0 v0] d IH].
  - destruct (decide (k ∈ dict_keys [])) as [Hin|_]; [|done].
    by apply elem_of_nil in Hin.
  - change (dict_keys ((k0, v0) :: d)) with (k0 :: dict_keys d).
    change (dict_setitem k v ((k0, v0) :: d))
      with (if decide (k0 = k) then (k0, v) :: d
            else (k0, v0) :: dict_setitem k v d).
    destruct (decide (k0 = k)) as [->|Hne].
    + destruct (decide (k ∈ k :: dict_keys d)) as [_|Hnot]; [done|].
      exfalso. apply Hnot, elem_of_cons. by left.
    + change (dict_keys ((k0, v0) :: dict_setitem k v d))
        with (k0 :: dict_keys (dict_setitem k v d)).
      rewrite IH.
      destruct (decide (k ∈ dict_keys d)) as [Hin|Hnot];
        destruct (decide (k ∈ k0 :: dict_keys d)) as [Hin'|Hnot']; try done.
      * exfalso. apply Hnot', elem_of_cons. by right.
      * apply elem_of_cons in Hin' as [->|Hin']; done.
Qed.

(** The keys after a run of insertions: the keys that were there, then the
    new ones, each where it first occurs among the items. *)
Lemma dict_keys_insert_items items d :
  dict_keys (insert_items items d) =
  dict_keys d ++ filter (fun k => k ∉ dict_keys d) (first_occurrences items.*1).
Proof.
  revert d. induction items as [|[k v] items IH]; intros d.
  - simpl. by rewrite app_nil_r.
  - change (insert_items ((k, v) :: items) d)
      with (insert_items items (dict_setitem k v d)).
    rewrite IH, dict_keys_setitem. simpl.
    destruct (decide (k ∈ dict_keys d)) as [Hin|Hnot].
    + rewrite filter_cons_False by (by intros ?).
      rewrite list_filter_filter. f_equal.
      apply list_filter_iff. intros x. split; [|by intros [? _]].
      intros Hx. split; [done|]. by intros ->.
    + rewrite filter_cons_True by done.
      rewrite list_filter_filter, <- app_assoc. simpl. do 2 f_equal.
      apply list_filter_iff. intros x.
      rewrite not_elem_of_app, list_elem_of_singleton. done.
Qed.

Lemma dict_keys_dict_of_items items :
  dict_keys (dict_of_items items) = first_occurrences items.*1.
Proof.
  unfold dict_of_items. rewrite dict_keys_insert_items. simpl.
  induction (first_occurrences items.*1) as [|k ks IH]; [done|].
  rewrite filter_cons_True by (by intros ?%elem_of_nil). by rewrite IH.
Qed.
End DictKeyOrder.

(** ** Model.versions *)

Section VersionsLemmas.
Context `{Platform}.
Implicit Types (w : World Model.t) (client : Client) (data : gmap string Any).

Lemma ModelVersion_validate_version_id data (mv : ModelVersion.t) :
  ModelVersion.model_validate data = Ok mv ->
  data !! "version_id" = Some (PyStr (ModelVersion.version_id mv)).
Proof.
  unfold ModelVersion.model_validate.
  destruct (validate_field ["app_id"; "project_id"] _ _); [done|].
  destruct (validate_field ["model_id"] _ _); [done|].
  destruct (validate_field ["version_id"] _ _) as [|vi] eqn:Hvi; [done|].
  destruct (validate_field ["version"] _ _); [done|].
  destruct (validate_field ["hyperparameters"] _ _); [done|].
  destruct (validate_field ["metrics"] _ _); [done|].
  destruct (validate_field ["created_at"] _ _); [done|].
  destruct (validate_field ["modified_at"] _ _); [done|].
  intros [= <-]. simpl. rewrite validate_field_single in Hvi.
  destruct (data !! "version_id") as [v|]; [|done].
  destruct (validate_str v) eqn:Hv; [|done].
  injection Hvi as ->. f_equal. by apply validate_str_Some.
Qed.

Lemma ModelVersion_from_dict_version_id (app_id : string) data client
    (mv : ModelVersion.t) :
  ModelVersion.from_dict app_id data client = Ok mv ->
  data !! "version_id" = Some (PyStr (ModelVersion.version_id mv)).
Proof.
  intros (fields & Hfields & ->)%ModelVersion_from_dict_Ok.
  apply ModelVersion_validate_version_id in Hfields.
  unfold dict_unpack_over in Hfields.
  rewrite lookup_union_l in Hfields; [done|]. by apply lookup_singleton_ne.
Qed.

Lemma version_items_keys (vs : list ModelVersion.t) :
  (version_items vs).*1 = map ModelVersion.version_id vs.
Proof. unfold version_items. induction vs; simpl; by f_equal. Qed.

Lemma version_items_values (vs : list ModelVersion.t) :
  (version_items vs).*2 = vs.
Proof. unfold version_items. induction vs; simpl; by f_equal. Qed.

Lemma versions_comprehension_run (app_id : string) client
    (rs : list (gmap string Any)) (vs : list ModelVersion.t)
    (acc : dict ModelVersion.t) w :
  Forall2 (fun r v => ModelVersion.from_dict app_id r client = Ok v) rs vs ->
  Model.versions_comprehension app_id client rs acc w =
  (Ok (insert_items (version_items vs) acc), w).
Proof.
  intros Hall. revert acc.
  induction Hall as [|r v rs vs Hr Hall IH]; intros acc; simpl; [done|].
  unfold bind, lift. rewrite Hr. apply IH.
Qed.

Lemma versions_run (self : nat) (this : Model.t) client w
    (rs : list (gmap string Any)) (s' : Remote) (vs : list ModelVersion.t) :
  heap w !! self = Some this ->
  Model.__client this = Some client ->
  get_model_versions (component client) (Model.app_id this)
    (Model.model_id this) (remote w) = (Ok rs, s') ->
  Forall2 (fun r v => ModelVersion.from_dict (Model.app_id this) r client = Ok v)
    rs vs ->
  Model.versions self w =
  (Ok (dict_of_items (version_items vs)),
   {| remote := s';
      trace := trace w ++ [GetModelVersions (Model.app_id this) (Model.model_id this)];
      heap := heap w |}).
Proof.
  intros Hself Hclient Hlist Hall. unfold Model.versions.
  erewrite bind_ok; [|by eapply get_client_some].
  erewrite bind_ok; [|by apply load_some].
  erewrite bind_ok; [|by apply request_run].
  erewrite bind_ok; [|by apply load_some].
  erewrite bind_ok; [|by eapply get_client_some].
  erewrite bind_ok; [|by apply versions_comprehension_run].
  done.
Qed.
Lemma listed_version_ids (app_id : string) (client : Client)
    (rs : list (gmap string Any)) (vs : list ModelVersion.t) (k : string) :
  Forall2 (fun r v => ModelVersion.from_dict app_id r client = Ok v) rs vs ->
  k ∈ map ModelVersion.version_id vs <->
  exists r, r ∈ rs /\ r !! "version_id" = Some (PyStr k).
Proof.
  intros Hall. split.
  - intros (v & -> & Hv)%list_elem_of_fmap.
    apply list_elem_of_lookup in Hv as [i Hi].
    destruct (Forall2_lookup_r _ _ _ _ _ Hall Hi) as (r & Hr & Hrv).
    exists r. split; [by eapply list_elem_of_lookup_2|].
    by eapply ModelVersion_from_dict_version_id.
  - intros (r & Hr & Hk).
    apply list_elem_of_lookup in Hr as [i Hi].
    destruct (Forall2_lookup_l _ _ _ _ _ Hall Hi) as (v & Hv & Hrv).
    apply ModelVersion_from_dict_version_id in Hrv.
    rewrite Hk in Hrv. injection Hrv as ->.
    apply list_elem_of_fmap. exists v. split; [done|].
    by eapply list_elem_of_lookup_2.
Qed.

(** A key of the dict of versions stands where its id first occurs in the
    listing: the keys before it are the ids of the records listed before
    the first record with that id. *)
Lemma versions_key_position (app_id : string) (client : Client)
    (rs : list (gmap string Any)) (vs : list ModelVersion.t)
    (ks1 : list string) (k : string) (ks2 : list string) :
  Forall2 (fun r v => ModelVersion.from_dict app_id r client = Ok v) rs vs ->
  dict_keys (dict_of_items (version_items vs)) = ks1 ++ k :: ks2 ->
  exists rs1 r rs2,
    rs = rs1 ++ r :: rs2
    /\ r !! "version_id" = Some (PyStr k)
    /\ (forall r', r' ∈ rs1 -> r' !! "version_id" <> Some (PyStr k))
    /\ (forall k', k' ∈ ks1 <->
                   exists r', r' ∈ rs1 /\ r' !! "version_id" = Some (PyStr k')).
Proof.
  intros Hall Hkeys.
  rewrite dict_keys_dict_of_items, version_items_keys in Hkeys.
  apply first_occurrences_split in Hkeys as (l1 & l2 & Hids & Hfresh & Hsame).
  change (map ModelVersion.version_id vs) with (ModelVersion.version_id <$> vs)
    in Hids.
  apply fmap_app_inv in Hids as (vs1 & vs' & Hl1 & Hids & Hvs).
  symmetry in Hids.
  apply fmap_cons_inv in Hids as (v & vs2 & Hv & _ & Hvs').
  subst l1 k vs' vs.
  apply Forall2_app_inv_r in Hall as (rs1 & rs' & Hall1 & Hall' & Hrs).
  apply Forall2_cons_inv_r in Hall' as (r & rs2 & Hr & _ & Hrs').
  subst rs' rs.
  exists rs1, r, rs2. split_and!.
  - done.
  - by eapply ModelVersion_from_dict_version_id.
  - intros r' Hr' Hk. apply Hfresh.
    apply (listed_version_ids app_id client rs1 vs1); [done|]. by exists r'.
  - intros k'. rewrite Hsame.
    by apply (listed_version_ids app_id client rs1 vs1).
Qed.
End VersionsLemmas.

(** C5 (as amended).  [versions] on a live model, a listing that the remote
    side returns and whose records all validate, one [ModelVersion] [v] per
    record [r]: the result is the dict obtained by storing each version
    under its [version_id], in listing order.  Its keys are pairwise
    distinct and are exactly the [version_id]s of the listed records; every
    value is one of the versions built, stored under its own id, and of the
    versions that share an id the last listed is the one kept.  When the
    [version_id]s of the listing are pairwise distinct, the values are the
    versions of all the records, in listing order.  In every case the keys
    come in the order in which the ids first occur in the listing: a key
    stands after the ids of the records listed before the first record with
    its id, and after no other. *)
Theorem versions_keyed_by_version_id `{Platform} (self : nat) (this : Model.t)
    (client : Client) (w : World Model.t) (rs : list (gmap string Any))
    (s' : Remote) (vs : list ModelVersion.t) :
  heap w !! self = Some this ->
  Model.__client this = Some client ->
  get_model_versions (component client) (Model.app_id this)
    (Model.model_id this) (remote w) = (Ok rs, s') ->
  Forall2 (fun r v => ModelVersion.from_dict (Model.app_id this) r client = Ok v)
    rs vs ->
  exists d,
    Model.versions self w =
    (Ok d, {| remote := s';
              trace := trace w ++ [GetModelVersions (Model.app_id this)
                                     (Model.model_id this)];
              heap := heap w |})
    /\ NoDup (dict_keys d)
    /\ (forall k, k ∈ dict_keys d <->
                  exists r, r ∈ rs /\ r !! "version_id" = Some (PyStr k))
    /\ (forall k v, dict_get k d = Some v ->
                    v ∈ vs /\ ModelVersion.version_id v = k)
    /\ (forall vs1 v vs2,
          vs = vs1 ++ v :: vs2 ->
          ModelVersion.version_id v ∉ map ModelVersion.version_id vs2 ->
          dict_get (ModelVersion.version_id v) d = Some v)
    /\ (NoDup (map ModelVersion.version_id vs) ->
        dict_keys d = map ModelVersion.version_id vs /\ dict_values d = vs)
    /\ dict_keys d = first_occurrences (map ModelVersion.version_id vs)
    /\ (forall ks1 k ks2,
          dict_keys d = ks1 ++ k :: ks2 ->
          exists rs1 r rs2,
            rs = rs1 ++ r :: rs2
            /\ r !! "version_id" = Some (PyStr k)
            /\ (forall r', r' ∈ rs1 -> r' !! "version_id" <> Some (PyStr k))
            /\ (forall k', k' ∈ ks1 <->
                  exists r', r' ∈ rs1 /\ r' !! "version_id" = Some (PyStr k'))).
Proof.
  intros Hself Hclient Hlist Hall.
  exists (dict_of_items (version_items vs)). split_and!.
  - by apply (versions_run self this client w rs s' vs).
  - apply NoDup_dict_keys_insert_items. constructor.
  - intros k. unfold dict_of_items.
    rewrite elem_of_dict_keys_insert_items, version_items_keys.
    simpl. rewrite elem_of_nil. split.
    + intros [[]|(v & -> & Hv)%list_elem_of_fmap].
      apply list_elem_of_lookup in Hv as [i Hi].
      destruct (Forall2_lookup_r _ _ _ _ _ Hall Hi) as (r & Hr & Hrv).
      exists r. split; [by eapply list_elem_of_lookup_2|].
      by eapply ModelVersion_from_dict_version_id.
    + intros (r & Hr & Hk). right.
      apply list_elem_of_lookup in Hr as [i Hi].
      destruct (Forall2_lookup_l _ _ _ _ _ Hall Hi) as (v & Hv & Hrv).
      apply ModelVersion_from_dict_version_id in Hrv.
      rewrite Hk in Hrv. injection Hrv as ->.
      apply list_elem_of_fmap. exists v. split; [done|].
      by eapply list_elem_of_lookup_2.
  - intros k v [Hin|Hnil]%dict_get_insert_items_Some; [|done].
    unfold version_items in Hin.
    apply list_elem_of_fmap in Hin as (v' & [= -> ->] & Hv'). done.
  - intros vs1 v vs2 -> Hlast. unfold dict_of_items.
    replace (version_items (vs1 ++ v :: vs2))
      with (version_items vs1 ++ (ModelVersion.version_id v, v) :: version_items vs2)
      by (unfold version_items; by rewrite map_app).
    apply dict_get_insert_items_last. by rewrite version_items_keys.
  - intros Hdistinct. unfold dict_of_items.
    rewrite insert_items_distinct by (by rewrite version_items_keys).
    simpl. split.
    + apply version_items_keys.
    + apply version_items_values.
  - by rewrite dict_keys_dict_of_items, version_items_keys.
  - intros ks1 k ks2 Hkeys.
    by apply (versions_key_position (Model.app_id this) client rs vs ks1 k ks2).
Qed.

Section VersionsExamples.
#[local] Existing Instance Demo.platform.

Lemma versions_keyed_by_version_id_witness :
  let rs := [Demo.version_record [] "v-1" "first";
             Demo.version_record [] "v-2" "second"] in
  let client := Demo.client_up rs [] in
  let vs := [Demo.a_version client "v-1" "first";
             Demo.a_version client "v-2" "second"] in
  let w := Demo.world client in
  (heap w !! 0 = Some (Demo.a_model client)
   /\ Model.__client (Demo.a_model client) = Some client
   /\ get_model_versions (component client) "app-1" "m-1" (remote w) = (Ok rs, 1)
   /\ Forall2 (fun r v => ModelVersion.from_dict "app-1" r client = Ok v) rs vs)
  /\ exists d,
       (Model.versions 0 w).1 = Ok d
       /\ dict_keys d = ["v-1"; "v-2"]
       /\ dict_values d = vs.
Proof.
  intros rs client vs w.
  assert (heap w !! 0 = Some (Demo.a_model client)) as Hself by reflexivity.
  assert (Model.__client (Demo.a_model client) = Some client) as Hclient
    by reflexivity.
  assert (get_model_versions (component client) "app-1" "m-1" (remote w) =
          (Ok rs, 1)) as Hlist by reflexivity.
  assert (Forall2 (fun r v => ModelVersion.from_dict "app-1" r client = Ok v)
            rs vs) as Hall.
  { repeat constructor; vm_compute; reflexivity. }
  split; [by split_and!|].
  destruct (versions_keyed_by_version_id 0 (Demo.a_model client) client w rs 1 vs
              Hself Hclient Hlist Hall)
    as (d & Hrun & _ & _ & _ & _ & Hdistinct & _ & _).
  exists d. rewrite Hrun. split; [reflexivity|].
  apply Hdistinct. simpl.
  apply NoDup_cons. split; [|apply NoDup_singleton].
  intros Hin. by apply list_elem_of_singleton in Hin.
Defined.

(** C5 as stated fails on a listing that repeats a [version_id]: of three
    records, the first and the third with id "v-1", the mapping holds two
    versions, and "retrained", listed last, comes before "second". *)
Lemma versions_keyed_by_version_id_counterexample :
  let rs := [Demo.version_record [] "v-1" "first";
             Demo.version_record [] "v-2" "second";
             Demo.version_record [] "v-1" "retrained"] in
  let client := Demo.client_up rs [] in
  exists d,
    (Model.versions 0 (Demo.world client)).1 = Ok d
    /\ dict_keys d = ["v-1"; "v-2"]
    /\ map ModelVersion.version (dict_values d) = ["retrained"; "second"]
    /\ map ModelVersion.version (dict_values d) <> ["first"; "second"; "retrained"].
Proof.
  intros rs client. eexists. split; [vm_compute; reflexivity|].
  split; [reflexivity|]. split; [reflexivity|discriminate].
Qed.
End VersionsExamples.

(** ** ModelBrowser.search *)

Section SearchLemmas.
Context `{Platform}.
Implicit Types (w : World Model.t) (client : Client) (data : gmap string Any).

Lemma Model_validate_model_id data (m : Model.t) :
  Model.model_validate data = Ok m ->
  data !! "model_id" = Some (PyStr (Model.model_id m)).
Proof.
  unfold Model.model_validate.
  destruct (validate_field ["app_id"; "project_id"] _ _); [done|].
  destruct (validate_field ["model_id"] _ _) as [|mi] eqn:Hmi; [done|].
  destruct (validate_field ["name"] _ _); [done|].
  destruct (validate_field ["model_type"] _ _); [done|].
  destruct (validate_field ["sub_model_type"] _ _); [done|].
  destruct (validate_field ["description"] _ _); [done|].
  destruct (validate_field ["created_at"] _ _); [done|].
  destruct (validate_field ["modified_at"] _ _); [done|].
  intros [= <-]. simpl. rewrite validate_field_single in Hmi.
  destruct (data !! "model_id") as [v|]; [|done].
  destruct (validate_str v) eqn:Hv; [|done].
  injection Hmi as ->. f_equal. by apply validate_str_Some.
Qed.

(** The key of an entry is a string whenever [Model.from_dict] returned. *)
Lemma search_key_is_str data (m : Model.t) (key : Any) :
  Model.model_validate data = Ok m ->
  getitem data "model_id" = Ok key ->
  ModelBrowser.str_key key = Ok (Model.model_id m).
Proof.
  intros Hm%Model_validate_model_id. unfold getitem. rewrite Hm.
  by intros [= <-].
Qed.

Lemma model_items_cons (base : nat) (m : Model.t) (ms : list Model.t) :
  model_items base (m :: ms) = (Model.model_id m, base) :: model_items (S base) ms.
Proof. done. Qed.

Lemma model_items_keys (base : nat) (ms : list Model.t) :
  (model_items base ms).*1 = map Model.model_id ms.
Proof.
  revert base. induction ms as [|m ms IH]; intros base; [done|].
  rewrite model_items_cons. simpl. by rewrite IH.
Qed.

Lemma length_model_items (base : nat) (ms : list Model.t) :
  length (model_items base ms) = length ms.
Proof.
  revert base. induction ms as [|m ms IH]; intros base; [done|].
  rewrite model_items_cons. simpl. by rewrite IH.
Qed.

Lemma elem_of_model_items (base : nat) (ms : list Model.t) (k : string) (l : nat) :
  (k, l) ∈ model_items base ms ->
  exists i m, ms !! i = Some m /\ Model.model_id m = k /\ l = base + i.
Proof.
  revert base. induction ms as [|m ms IH]; intros base.
  - by intros ?%elem_of_nil.
  - rewrite model_items_cons. intros [[= -> ->]|Hin]%elem_of_cons.
    + exists 0, m. split_and!; [done..|lia].
    + destruct (IH _ Hin) as (i & m' & Hi & Hk & ->).
      exists (S i), m'. split_and!; [done..|lia].
Qed.

Lemma search_comprehension_run client (rs : list (gmap string Any))
    (ms : list Model.t) (acc : dict nat) w :
  Forall2 (fun r m => Model.model_validate r = Ok m) rs ms ->
  ModelBrowser.search_comprehension client rs acc w =
  (Ok (insert_items (model_items (length (heap w)) ms) acc),
   {| remote := remote w; trace := trace w;
      heap := heap w ++ map (Model.set_client client) ms |}).
Proof.
  intros Hall. revert acc w.
  induction Hall as [|r m rs ms Hr Hall IH]; intros acc w.
  - simpl. rewrite app_nil_r. by destruct w.
  - simpl. unfold bind at 1. unfold lift at 1.
    pose proof (Model_validate_model_id r m Hr) as Hid.
    unfold getitem. rewrite Hid.
    unfold bind at 1. rewrite from_dict_run, Hr.
    unfold bind at 1. unfold lift at 1. simpl.
    rewrite IH. simpl. rewrite length_app. simpl.
    rewrite Nat.add_1_r, <- app_assoc. done.
Qed.

Lemma search_comprehension_inv client (rs : list (gmap string Any))
    (acc : dict nat) w (d : dict nat) w' :
  ModelBrowser.search_comprehension client rs acc w = (Ok d, w') ->
  exists ms, Forall2 (fun r m => Model.model_validate r = Ok m) rs ms.
Proof.
  revert acc w. induction rs as [|r rs IH]; intros acc w.
  - intros _. by exists [].
  - simpl. unfold bind at 1. unfold lift at 1.
    destruct (getitem r "model_id") as [key|e]; [|done].
    unfold bind at 1. rewrite from_dict_run.
    destruct (Model.model_validate r) as [m|e] eqn:Hr; [|done].
    unfold bind at 1. unfold lift at 1.
    destruct (ModelBrowser.str_key key) as [k|e]; [|done].
    intros (ms & Hms)%IH. exists (m :: ms). by constructor.
Qed.

Lemma search_run (self : ModelBrowser.t) (query : string) w
    (rs : list (gmap string Any)) (s' : Remote) (ms : list Model.t) :
  search_models_for_project (search (ModelBrowser.__client self))
    (ModelBrowser.__app_id self) query (remote w) = (Ok rs, s') ->
  Forall2 (fun r m => Model.model_validate r = Ok m) rs ms ->
  ModelBrowser.search self query w =
  (Ok (dict_of_items (model_items (length (heap w)) ms)),
   {| remote := s';
      trace := trace w ++ [SearchModelsForProject (ModelBrowser.__app_id self) query];
      heap := heap w ++ map (Model.set_client (ModelBrowser.__client self)) ms |}).
Proof.
  intros Hsearch Hall. unfold ModelBrowser.search, call_search_models_for_project.
  erewrite bind_ok; [|by apply request_run].
  erewrite bind_ok; [|by apply search_comprehension_run].
  done.
Qed.
End SearchLemmas.

(** C6 (as amended).  [search] forwards the query as it is, empty or not,
    in one request for the browser's app.  When the remote side answers with
    no records, the result is the empty mapping and nothing else changes.
    When it answers with records that all validate, one [Model] per record
    is built, and the mapping has one entry per distinct [model_id] among
    them: its keys are pairwise distinct and are exactly the [model_id]s of
    the records, each entry refers to a model built from a record with that
    id, and there is one entry per record when the ids are pairwise
    distinct.  [search] returns normally only when every record validates. *)
Theorem search_returns_matches `{Platform} (self : ModelBrowser.t)
    (query : string) (w : World Model.t) (rs : list (gmap string Any))
    (s' : Remote) :
  search_models_for_project (search (ModelBrowser.__client self))
    (ModelBrowser.__app_id self) query (remote w) = (Ok rs, s') ->
  let sent := trace w ++
                [SearchModelsForProject (ModelBrowser.__app_id self) query] in
  (rs = [] ->
   ModelBrowser.search self query w =
   (Ok [], {| remote := s'; trace := sent; heap := heap w |}))
  /\ (forall ms,
       Forall2 (fun r m => Model.model_validate r = Ok m) rs ms ->
       let store :=
         heap w ++ map (Model.set_client (ModelBrowser.__client self)) ms in
       exists d,
         ModelBrowser.search self query w =
         (Ok d, {| remote := s'; trace := sent; heap := store |})
         /\ NoDup (dict_keys d)
         /\ (forall k, k ∈ dict_keys d <->
                       exists r, r ∈ rs /\ r !! "model_id" = Some (PyStr k))
         /\ (forall k l, dict_get k d = Some l ->
                         exists m, m ∈ ms /\ Model.model_id m = k /\
                           store !! l =
                           Some (Model.set_client (ModelBrowser.__client self) m))
         /\ length d <= length rs
         /\ (NoDup (map Model.model_id ms) ->
             dict_keys d = map Model.model_id ms /\ length d = length rs))
  /\ (forall d w',
       ModelBrowser.search self query w = (Ok d, w') ->
       exists ms, Forall2 (fun r m => Model.model_validate r = Ok m) rs ms).
Proof.
  intros Hsearch sent. split_and!.
  - intros ->.
    rewrite (search_run self query w [] s' [] Hsearch) by constructor.
    simpl. by rewrite app_nil_r.
  - intros ms Hall store.
    exists (dict_of_items (model_items (length (heap w)) ms)).
    pose proof (Forall2_length _ _ _ Hall) as Hlen.
    split_and!.
    + by apply (search_run self query w rs s' ms).
    + apply NoDup_dict_keys_insert_items. constructor.
    + intros k. unfold dict_of_items.
      rewrite elem_of_dict_keys_insert_items, model_items_keys.
      simpl. rewrite elem_of_nil. split.
      * intros [[]|(m & -> & Hm)%list_elem_of_fmap].
        apply list_elem_of_lookup in Hm as [i Hi].
        destruct (Forall2_lookup_r _ _ _ _ _ Hall Hi) as (r & Hr & Hrm).
        exists r. split; [by eapply list_elem_of_lookup_2|].
        by apply Model_validate_model_id.
      * intros (r & Hr & Hk). right.
        apply list_elem_of_lookup in Hr as [i Hi].
        destruct (Forall2_lookup_l _ _ _ _ _ Hall Hi) as (m & Hm & Hrm).
        apply Model_validate_model_id in Hrm.
        rewrite Hk in Hrm. injection Hrm as ->.
        apply list_elem_of_fmap. exists m. split; [done|].
        by eapply list_elem_of_lookup_2.
    + intros k l [Hin|Hnil]%dict_get_insert_items_Some; [|done].
      apply elem_of_model_items in Hin as (i & m & Hi & Hk & ->).
      exists m. split_and!; [by eapply list_elem_of_lookup_2|done|].
      subst store. rewrite lookup_app_r by lia.
      replace (length (heap w) + i - length (heap w)) with i by lia.
      by rewrite list_lookup_fmap, Hi.
    + pose proof (length_insert_items (model_items (length (heap w)) ms) [])
        as Hle.
      rewrite length_model_items in Hle. unfold dict_of_items.
      simpl in Hle. lia.
    + intros Hdistinct. unfold dict_of_items.
      rewrite insert_items_distinct by (by rewrite model_items_keys).
      simpl. split; [apply model_items_keys|].
      rewrite length_model_items. lia.
  - intros d w'. unfold ModelBrowser.search, call_search_models_for_project.
    erewrite bind_ok; [|by apply request_run].
    unfold bind.
    destruct (ModelBrowser.search_comprehension _ rs [] _) as [[d'|e] w'']
      eqn:Hcomp; [|done].
    intros _. by eapply search_comprehension_inv.
Qed.

Section SearchExamples.
#[local] Existing Instance Demo.platform.

Lemma search_returns_matches_witness :
  let client := Demo.client_up [] [] in
  let browser := ModelBrowser.__init__ "app-1" client in
  search_models_for_project (search (ModelBrowser.__client browser))
    (ModelBrowser.__app_id browser) "nothing like it"
    (remote Demo.empty_world) = (Ok [], 1)
  /\ ModelBrowser.search browser "nothing like it" Demo.empty_world =
     (Ok [],
      {| remote := 1;
         trace := [SearchModelsForProject "app-1" "nothing like it"];
         heap := [] |}).
Proof.
  intros client browser.
  assert (search_models_for_project (search (ModelBrowser.__client browser))
            (ModelBrowser.__app_id browser) "nothing like it"
            (remote Demo.empty_world) = (Ok [], 1)) as Hsearch by reflexivity.
  split; [exact Hsearch|].
  destruct (search_returns_matches browser "nothing like it" Demo.empty_world
              [] 1 Hsearch) as (Hempty & _).
  exact (Hempty eq_refl).
Defined.

(** C6 as stated fails in three ways.  The query is only forwarded: a
    remote side that answers the empty query with a record makes [search ""]
    return a mapping with one entry.  Two records with the same [model_id]
    make one entry, not two.  And a record that does not validate makes
    [search] raise although the remote call itself succeeded. *)
Lemma search_returns_matches_counterexample :
  let one := Demo.model_record "app_id" "app-1" "m-1" "Model One" in
  let again := Demo.model_record "app_id" "app-1" "m-1" "Model One (copy)" in
  let broken : gmap string Any := {[ "model_id" := PyStr "m-3" ]} in
  let browser found := ModelBrowser.__init__ "app-1" (Demo.client_up [] found) in
  (ModelBrowser.search (browser [one]) "" Demo.empty_world).1 = Ok [("m-1", 0)]
  /\ (ModelBrowser.search (browser [one; again]) "model" Demo.empty_world).1 =
     Ok [("m-1", 1)]
  /\ (ModelBrowser.search (browser [broken]) "" Demo.empty_world).1 =
     Raise (ValidationError "Model"
              ["app_id"; "name"; "model_type"; "sub_model_type";
               "description"; "created_at"; "modified_at"]).
Proof.
  intros one again broken browser.
  split; [vm_compute; reflexivity|]. split; vm_compute; reflexivity.
Qed.
End SearchExamples.

(** * Further properties of the code *)

(** ** What validation reads *)

Section ValidationReads.
Context `{Platform}.
Implicit Types (data : gmap string Any) (v : Any).

Lemma validate_field_single_inr {A : Type} (key : string)
    (validator : Any -> option A) data (a : A) :
  validate_field [key] validator data = inr a <->
  exists v, data !! key = Some v /\ validator v = Some a.
Proof.
  rewrite validate_field_single. destruct (data !! key) as [v|].
  - destruct (validator v) as [a'|] eqn:Hv.
    + split; [intros [= ->]; by exists v|].
      intros (v' & [= <-] & Hv'). congruence.
    + split; [done|]. intros (v' & [= <-] & Hv'). congruence.
  - split; [done|]. by intros (v' & Hv' & _).
Qed.

Lemma validate_field_str_inr (key : string) data (s : string) :
  validate_field [key] validate_str data = inr s <->
  data !! key = Some (PyStr s).
Proof.
  rewrite validate_field_single_inr. split.
  - intros (v & Hv & ->%validate_str_Some). done.
  - intros Hs. by exists (PyStr s).
Qed.

Lemma app_id_field_inr data (s : string) :
  validate_field ["app_id"; "project_id"] validate_str data = inr s <->
  data !! "app_id" = Some (PyStr s)
  \/ (data !! "app_id" = None /\ data !! "project_id" = Some (PyStr s)).
Proof.
  split.
  - intros Hs%app_id_field_value.
    destruct (data !! "app_id") as [v|]; [left; by subst|right; done].
  - intros [Happ|[Happ Hproject]].
    + by rewrite (app_id_field_present data _ Happ).
    + by rewrite (app_id_field_alias data _ Happ Hproject).
Qed.

(** A field is read from the keys of its alias choices and nowhere else. *)
Lemma validate_field_agree {A : Type} (choices : list string)
    (validator : Any -> option A) data data' :
  (forall key, key ∈ choices -> data !! key = data' !! key) ->
  validate_field choices validator data = validate_field choices validator data'.
Proof.
  intros Hagree. unfold validate_field.
  assert (alias_choices choices data = alias_choices choices data') as ->; [|done].
  induction choices as [|key rest IH]; [done|]. simpl.
  rewrite <- (Hagree key) by (apply elem_of_cons; by left).
  rewrite IH; [done|]. intros k Hk. apply Hagree, elem_of_cons. by right.
Qed.

Lemma Model_validate_fields data (m : Model.t) :
  Model.model_validate data = Ok m <->
  validate_field ["app_id"; "project_id"] validate_str data = inr (Model.app_id m)
  /\ validate_field ["model_id"] validate_str data = inr (Model.model_id m)
  /\ validate_field ["name"] validate_str data = inr (Model.name m)
  /\ validate_field ["model_type"] validate_str data = inr (Model.model_type m)
  /\ validate_field ["sub_model_type"] validate_str data =
     inr (Model.sub_model_type m)
  /\ validate_field ["description"] validate_str data =
     inr (Model.description m)
  /\ validate_field ["created_at"] validate_datetime data =
     inr (Model.created_at m)
  /\ validate_field ["modified_at"] validate_datetime data =
     inr (Model.modified_at m)
  /\ Model.__client m = None.
Proof.
  unfold Model.model_validate. split.
  - destruct (validate_field ["app_id"; "project_id"] _ _); [done|].
    destruct (validate_field ["model_id"] _ _); [done|].
    destruct (validate_field ["name"] _ _); [done|].
    destruct (validate_field ["model_type"] _ _); [done|].
    destruct (validate_field ["sub_model_type"] _ _); [done|].
    destruct (validate_field ["description"] _ _); [done|].
    destruct (validate_field ["created_at"] _ _); [done|].
    destruct (validate_field ["modified_at"] _ _); [done|].
    by intros [= <-].
  - intros (-> & -> & -> & -> & -> & -> & -> & -> & Hclient).
    destruct m; simpl in *. by subst.
Qed.

(** Validation raises nothing but its own error, and never an empty one. *)
Lemma Model_validate_Raise data (e : Exception) :
  Model.model_validate data = Raise e ->
  exists locs, e = ValidationError "Model" locs /\ locs <> [].
Proof.
  unfold Model.model_validate.
  destruct (validate_field ["app_id"; "project_id"] _ _);
    [intros [= <-]; by eexists|].
  destruct (validate_field ["model_id"] _ _); [intros [= <-]; by eexists|].
  destruct (validate_field ["name"] _ _); [intros [= <-]; by eexists|].
  destruct (validate_field ["model_type"] _ _); [intros [= <-]; by eexists|].
  destruct (validate_field ["sub_model_type"] _ _);
    [intros [= <-]; by eexists|].
  destruct (validate_field ["description"] _ _); [intros [= <-]; by eexists|].
  destruct (validate_field ["created_at"] _ _); [intros [= <-]; by eexists|].
  destruct (validate_field ["modified_at"] _ _); [intros [= <-]; by eexists|].
  done.
Qed.
End ValidationReads.

(** X1.  What [Model.model_validate] accepts, in terms of the record: a
    string under [app_id], or under [project_id] when [app_id] is absent,
    strings under the five other text fields, and values that the datetime
    validator accepts under [created_at] and [modified_at]; the validated
    model carries exactly those values and no client.  Anything else is a
    [ValidationError] titled "Model" with at least one location. *)
Theorem Model_validate_reads_record `{Platform} (data : gmap string Any) :
  (forall m,
     Model.model_validate data = Ok m <->
     (data !! "app_id" = Some (PyStr (Model.app_id m))
      \/ (data !! "app_id" = None
          /\ data !! "project_id" = Some (PyStr (Model.app_id m))))
     /\ data !! "model_id" = Some (PyStr (Model.model_id m))
     /\ data !! "name" = Some (PyStr (Model.name m))
     /\ data !! "model_type" = Some (PyStr (Model.model_type m))
     /\ data !! "sub_model_type" = Some (PyStr (Model.sub_model_type m))
     /\ data !! "description" = Some (PyStr (Model.description m))
     /\ (exists v, data !! "created_at" = Some v
                   /\ validate_datetime v = Some (Model.created_at m))
     /\ (exists v, data !! "modified_at" = Some v
                   /\ validate_datetime v = Some (Model.modified_at m))
     /\ Model.__client m = None)
  /\ (forall e,
        Model.model_validate data = Raise e ->
        exists locs, e = ValidationError "Model" locs /\ locs <> []).
Proof.
  split.
  - intros m. rewrite Model_validate_fields, app_id_field_inr.
    rewrite !validate_field_str_inr, !validate_field_single_inr. done.
  - apply Model_validate_Raise.
Qed.

Section MoreValidationLemmas.
Context `{Platform}.
Implicit Types (data : gmap string Any) (v : Any).

Lemma ModelVersion_validate_fields data (mv : ModelVersion.t) :
  ModelVersion.model_validate data = Ok mv <->
  validate_field ["app_id"; "project_id"] validate_str data =
    inr (ModelVersion.app_id mv)
  /\ validate_field ["model_id"] validate_str data = inr (ModelVersion.model_id mv)
  /\ validate_field ["version_id"] validate_str data =
     inr (ModelVersion.version_id mv)
  /\ validate_field ["version"] validate_str data = inr (ModelVersion.version mv)
  /\ validate_field ["hyperparameters"] validate_dict data =
     inr (ModelVersion.hyperparameters mv)
  /\ validate_field ["metrics"] validate_dict data = inr (ModelVersion.metrics mv)
  /\ validate_field ["created_at"] validate_datetime data =
     inr (ModelVersion.created_at mv)
  /\ validate_field ["modified_at"] validate_datetime data =
     inr (ModelVersion.modified_at mv)
  /\ ModelVersion.__client mv = None.
Proof.
  unfold ModelVersion.model_validate. split.
  - destruct (validate_field ["app_id"; "project_id"] _ _); [done|].
    destruct (validate_field ["model_id"] _ _); [done|].
    destruct (validate_field ["version_id"] _ _); [done|].
    destruct (validate_field ["version"] _ _); [done|].
    destruct (validate_field ["hyperparameters"] _ _); [done|].
    destruct (validate_field ["metrics"] _ _); [done|].
    destruct (validate_field ["created_at"] _ _); [done|].
    destruct (validate_field ["modified_at"] _ _); [done|].
    by intros [= <-].
  - intros (-> & -> & -> & -> & -> & -> & -> & -> & Hclient).
    destruct mv; simpl in *. by subst.
Qed.

Lemma ModelDirectory_validate_fields data (d : ModelDirectory.t) :
  ModelDirectory.model_validate data = Ok d <->
  validate_field ["app_id"; "project_id"] validate_str data =
    inr (ModelDirectory.app_id d)
  /\ validate_field ["directory_id"] validate_str data =
     inr (ModelDirectory.directory_id d)
  /\ validate_field ["name"] validate_str data = inr (ModelDirectory.name d)
  /\ ModelDirectory.__client d = None.
Proof.
  unfold ModelDirectory.model_validate. split.
  - destruct (validate_field ["app_id"; "project_id"] _ _); [done|].
    destruct (validate_field ["directory_id"] _ _); [done|].
    destruct (validate_field ["name"] _ _); [done|].
    by intros [= <-].
  - intros (-> & -> & -> & Hclient). destruct d; simpl in *. by subst.
Qed.

Lemma validate_dict_Some v (d : gmap string Any) :
  validate_dict v = Some d <-> v = PyDict d.
Proof. destruct v; simpl; split; intros Hv; by simplify_eq. Qed.

Lemma validate_field_dict_inr (key : string) data (d : gmap string Any) :
  validate_field [key] validate_dict data = inr d <->
  data !! key = Some (PyDict d).
Proof.
  rewrite validate_field_single_inr. split.
  - intros (v & Hv & ->%validate_dict_Some). done.
  - intros Hd. by exists (PyDict d).
Qed.

(** What the merged record of [ModelVersion.from_dict] holds under a key. *)
Lemma lookup_dict_unpack_over (key : string) (x : Any) data (k : string) :
  dict_unpack_over key x data !! k =
  match data !! k with
  | Some v => Some v
  | None => if decide (key = k) then Some x else None
  end.
Proof.
  unfold dict_unpack_over. rewrite lookup_union, lookup_singleton.
  destruct (data !! k); by destruct (decide (key = k)).
Qed.

(** With [app_id] present, the alias choice never looks at [project_id]. *)
Lemma app_id_field_ignores_project_id data v' :
  is_Some (data !! "app_id") ->
  validate_field ["app_id"; "project_id"] validate_str
    (<["project_id" := v']> data) =
  validate_field ["app_id"; "project_id"] validate_str data.
Proof.
  intros [v Hv]. rewrite (app_id_field_present data v Hv).
  apply app_id_field_present. by rewrite lookup_insert_ne.
Qed.

Lemma validate_field_insert_ne {A : Type} (key k : string)
    (validator : Any -> option A) data v' :
  key <> k ->
  validate_field [key] validator (<[k := v']> data) =
  validate_field [key] validator data.
Proof.
  intros Hne. rewrite !validate_field_single. by rewrite lookup_insert_ne.
Qed.
End MoreValidationLemmas.

(** A key of a short list of field keys is a key of the full list. *)
Ltac among Hagree :=
  let key := fresh "key" in
  let Hkey := fresh "Hkey" in
  intros key Hkey; apply Hagree;
  repeat (apply elem_of_cons in Hkey as [->|Hkey]; [by repeat constructor|]);
  by apply elem_of_nil in Hkey.

(** X2.  [Model] and [ModelDirectory] validation reads the keys of the
    declared fields and nothing else: two records that agree on those keys
    validate to the same result, the same entity or the same error.  Keys
    that are not fields (a [directory], a [status], ...) are ignored,
    present or not. *)
Theorem validation_ignores_other_keys `{Platform} (data data' : gmap string Any) :
  ((forall key,
      key ∈ ["app_id"; "project_id"; "model_id"; "name"; "model_type";
             "sub_model_type"; "description"; "created_at"; "modified_at"] ->
      data !! key = data' !! key) ->
   Model.model_validate data = Model.model_validate data')
  /\ ((forall key,
         key ∈ ["app_id"; "project_id"; "directory_id"; "name"] ->
         data !! key = data' !! key) ->
      forall client,
        ModelDirectory.from_dict data client =
        ModelDirectory.from_dict data' client).
Proof.
  split.
  - intros Hagree. unfold Model.model_validate.
    rewrite (validate_field_agree ["app_id"; "project_id"] _ data data')
      by among Hagree.
    rewrite (validate_field_agree ["model_id"] _ data data') by among Hagree.
    rewrite (validate_field_agree ["name"] _ data data') by among Hagree.
    rewrite (validate_field_agree ["model_type"] _ data data') by among Hagree.
    rewrite (validate_field_agree ["sub_model_type"] _ data data')
      by among Hagree.
    rewrite (validate_field_agree ["description"] _ data data') by among Hagree.
    rewrite (validate_field_agree ["created_at"] _ data data') by among Hagree.
    rewrite (validate_field_agree ["modified_at"] _ data data') by among Hagree.
    done.
  - intros Hagree client.
    unfold ModelDirectory.from_dict, ModelDirectory.model_validate.
    rewrite (validate_field_agree ["app_id"; "project_id"] _ data data')
      by among Hagree.
    rewrite (validate_field_agree ["directory_id"] _ data data') by among Hagree.
    rewrite (validate_field_agree ["name"] _ data data') by among Hagree.
    done.
Qed.

(** X3.  A record that has an [app_id] entry is validated on that entry:
    whatever it has under [project_id] changes nothing, and an [app_id]
    that is not a string is an error located at [app_id], with no fall back
    to [project_id]. *)
Theorem app_id_read_before_project_id `{Platform} (data : gmap string Any)
    (v v' : Any) :
  data !! "app_id" = Some v ->
  (Model.model_validate (<["project_id" := v']> data) = Model.model_validate data
   /\ ModelVersion.model_validate (<["project_id" := v']> data) =
      ModelVersion.model_validate data
   /\ ModelDirectory.model_validate (<["project_id" := v']> data) =
      ModelDirectory.model_validate data)
  /\ (validate_str v = None ->
      (exists locs, Model.model_validate data =
                    Raise (ValidationError "Model" ("app_id" :: locs)))
      /\ (exists locs, ModelVersion.model_validate data =
                       Raise (ValidationError "ModelVersion" ("app_id" :: locs)))
      /\ (exists locs, ModelDirectory.model_validate data =
                       Raise (ValidationError "ModelDirectory" ("app_id" :: locs)))).
Proof.
  intros Happ. split.
  - unfold Model.model_validate, ModelVersion.model_validate,
      ModelDirectory.model_validate.
    rewrite app_id_field_ignores_project_id by done.
    rewrite !validate_field_insert_ne by done. done.
  - intros Hv.
    unfold Model.model_validate, ModelVersion.model_validate,
      ModelDirectory.model_validate.
    rewrite (app_id_field_present data v Happ), Hv. simpl.
    split_and!; eexists; reflexivity.
Qed.

Section VersionRecordLemmas.
Context `{Platform}.
Implicit Types (data : gmap string Any).

Lemma lookup_dict_unpack_over_ne (key : string) (x : Any) data (k : string) :
  key <> k -> dict_unpack_over key x data !! k = data !! k.
Proof.
  intros Hne. rewrite lookup_dict_unpack_over, decide_False by done.
  by destruct (data !! k).
Qed.

(** The [app_id] field of the merged record: the record's own entry, or
    else the argument. *)
Lemma merged_app_id_field (app_id : string) data (s : string) :
  validate_field ["app_id"; "project_id"] validate_str
    (dict_unpack_over "app_id" (PyStr app_id) data) = inr s <->
  data !! "app_id" = Some (PyStr s) \/ (data !! "app_id" = None /\ s = app_id).
Proof.
  rewrite app_id_field_inr, lookup_dict_unpack_over.
  destruct (data !! "app_id") as [v|]; simpl.
  - split; [intros [Hv|[? _]]; [by left|done]|].
    intros [Hv|[? _]]; [by left|done].
  - split.
    + intros [[= ->]|[? _]]; [by right|done].
    + intros [?|[_ ->]]; [done|by left].
Qed.
End VersionRecordLemmas.

(** X4.  [ModelVersion.from_dict] reads eight keys of the record, and
    [project_id] is not one of them: the merged record always has an
    [app_id] entry, so the alias is never consulted.  Two records that agree
    on the eight keys give the same version or the same error. *)
Theorem ModelVersion_from_dict_reads `{Platform} (app_id : string)
    (data data' : gmap string Any) (client : Client) :
  (forall key,
     key ∈ ["app_id"; "model_id"; "version_id"; "version"; "hyperparameters";
            "metrics"; "created_at"; "modified_at"] ->
     data !! key = data' !! key) ->
  ModelVersion.from_dict app_id data client =
  ModelVersion.from_dict app_id data' client.
Proof.
  intros Hagree.
  assert (forall key,
            key ∈ ["app_id"; "model_id"; "version_id"; "version";
                   "hyperparameters"; "metrics"; "created_at"; "modified_at"] ->
            dict_unpack_over "app_id" (PyStr app_id) data !! key =
            dict_unpack_over "app_id" (PyStr app_id) data' !! key) as Hmerged.
  { intros key Hkey. rewrite !lookup_dict_unpack_over. by rewrite Hagree. }
  unfold ModelVersion.from_dict, ModelVersion.model_validate.
  set (merged := dict_unpack_over "app_id" (PyStr app_id) data) in *.
  set (merged' := dict_unpack_over "app_id" (PyStr app_id) data') in *.
  assert (is_Some (merged !! "app_id")) as [v Hv].
  { subst merged. rewrite lookup_dict_unpack_over.
    destruct (data !! "app_id"); by eexists. }
  assert (merged' !! "app_id" = Some v) as Hv'.
  { rewrite <- Hv. symmetry. apply Hmerged. by repeat constructor. }
  rewrite (app_id_field_present merged v Hv), (app_id_field_present merged' v Hv').
  rewrite (validate_field_agree ["model_id"] _ merged merged') by among Hmerged.
  rewrite (validate_field_agree ["version_id"] _ merged merged') by among Hmerged.
  rewrite (validate_field_agree ["version"] _ merged merged') by among Hmerged.
  rewrite (validate_field_agree ["hyperparameters"] _ merged merged')
    by among Hmerged.
  rewrite (validate_field_agree ["metrics"] _ merged merged') by among Hmerged.
  rewrite (validate_field_agree ["created_at"] _ merged merged') by among Hmerged.
  rewrite (validate_field_agree ["modified_at"] _ merged merged') by among Hmerged.
  done.
Qed.

(** X5.  What [ModelVersion.from_dict] accepts and what it builds: the
    version's [app_id] is the record's own [app_id] string, or the argument
    when the record has no [app_id] entry; [model_id], [version_id] and
    [version] are the record's strings, [hyperparameters] and [metrics] its
    dicts, the two timestamps what the datetime validator makes of the
    record's values; the version holds the client it was given, and its
    [name] is the record's [version]. *)
Theorem ModelVersion_from_dict_reads_record `{Platform} (app_id : string)
    (data : gmap string Any) (client : Client) (mv : ModelVersion.t) :
  ModelVersion.from_dict app_id data client = Ok mv <->
  (data !! "app_id" = Some (PyStr (ModelVersion.app_id mv))
   \/ (data !! "app_id" = None /\ ModelVersion.app_id mv = app_id))
  /\ data !! "model_id" = Some (PyStr (ModelVersion.model_id mv))
  /\ data !! "version_id" = Some (PyStr (ModelVersion.version_id mv))
  /\ data !! "version" = Some (PyStr (ModelVersion.name mv))
  /\ data !! "hyperparameters" = Some (PyDict (ModelVersion.hyperparameters mv))
  /\ data !! "metrics" = Some (PyDict (ModelVersion.metrics mv))
  /\ (exists v, data !! "created_at" = Some v
                /\ validate_datetime v = Some (ModelVersion.created_at mv))
  /\ (exists v, data !! "modified_at" = Some v
                /\ validate_datetime v = Some (ModelVersion.modified_at mv))
  /\ ModelVersion.__client mv = Some client.
Proof.
  set (merged := dict_unpack_over "app_id" (PyStr app_id) data).
  assert (forall fields,
            ModelVersion.model_validate merged = Ok fields <->
            (data !! "app_id" = Some (PyStr (ModelVersion.app_id fields))
             \/ (data !! "app_id" = None /\ ModelVersion.app_id fields = app_id))
            /\ data !! "model_id" = Some (PyStr (ModelVersion.model_id fields))
            /\ data !! "version_id" = Some (PyStr (ModelVersion.version_id fields))
            /\ data !! "version" = Some (PyStr (ModelVersion.version fields))
            /\ data !! "hyperparameters" =
               Some (PyDict (ModelVersion.hyperparameters fields))
            /\ data !! "metrics" = Some (PyDict (ModelVersion.metrics fields))
            /\ (exists v, data !! "created_at" = Some v
                  /\ validate_datetime v = Some (ModelVersion.created_at fields))
            /\ (exists v, data !! "modified_at" = Some v
                  /\ validate_datetime v = Some (ModelVersion.modified_at fields))
            /\ ModelVersion.__client fields = None) as Hvalidate.
  { intros fields. rewrite ModelVersion_validate_fields. subst merged.
    rewrite merged_app_id_field, !validate_field_str_inr,
      !validate_field_dict_inr, !validate_field_single_inr.
    rewrite !lookup_dict_unpack_over_ne by done. done. }
  unfold ModelVersion.name. split.
  - intros (fields & Hfields & ->)%ModelVersion_from_dict_Ok.
    apply Hvalidate in Hfields. simpl. tauto.
  - intros (Happ & Hmodel & Hid & Hversion & Hhyper & Hmetrics & Hcreated
            & Hmodified & Hclient).
    unfold ModelVersion.from_dict. fold merged.
    set (fields := {|
      ModelVersion.app_id := ModelVersion.app_id mv;
      ModelVersion.model_id := ModelVersion.model_id mv;
      ModelVersion.version_id := ModelVersion.version_id mv;
      ModelVersion.version := ModelVersion.version mv;
      ModelVersion.hyperparameters := ModelVersion.hyperparameters mv;
      ModelVersion.metrics := ModelVersion.metrics mv;
      ModelVersion.created_at := ModelVersion.created_at mv;
      ModelVersion.modified_at := ModelVersion.modified_at mv;
      ModelVersion.__client := None |}).
    assert (ModelVersion.model_validate merged = Ok fields) as ->.
    { apply Hvalidate. subst fields. simpl. tauto. }
    f_equal. destruct mv; simpl in *. by subst.
Qed.

(** X6.  A directory built from a record renders, with [to_dict], the
    record's own [directory_id] and [name] around the [MODEL] tag; the
    record's app and the client do not show in the rendering. *)
Theorem to_dict_of_from_dict `{Platform} (data : gmap string Any)
    (client : Client) (d : ModelDirectory.t) :
  ModelDirectory.from_dict data client = Ok d ->
  exists directory_id name,
    data !! "directory_id" = Some (PyStr directory_id)
    /\ data !! "name" = Some (PyStr name)
    /\ ModelDirectory.to_dict d =
       [("directory_id", DStr directory_id); ("type", DType MODEL);
        ("name", DStr name)].
Proof.
  unfold ModelDirectory.from_dict.
  destruct (ModelDirectory.model_validate data) as [fields|e] eqn:Hfields;
    [|done].
  intros [= <-]. apply ModelDirectory_validate_fields in Hfields
    as (_ & Hid%validate_field_str_inr & Hname%validate_field_str_inr & _).
  by exists (ModelDirectory.directory_id fields), (ModelDirectory.name fields).
Qed.

Section ValidationExamples.
#[local] Existing Instance Demo.platform.

Lemma validation_ignores_other_keys_witness :
  let data := Demo.model_record "app_id" "app-1" "m-1" "Model One" in
  let data' := <["status" := PyStr "TRAINED"]> (delete "directory" data) in
  (forall key,
     key ∈ ["app_id"; "project_id"; "model_id"; "name"; "model_type";
            "sub_model_type"; "description"; "created_at"; "modified_at"] ->
     data !! key = data' !! key)
  /\ Model.model_validate data = Model.model_validate data'.
Proof.
  intros data data'.
  assert (forall key,
            key ∈ ["app_id"; "project_id"; "model_id"; "name"; "model_type";
                   "sub_model_type"; "description"; "created_at"; "modified_at"] ->
            data !! key = data' !! key) as Hagree.
  { intros key Hkey.
    repeat (apply elem_of_cons in Hkey as [->|Hkey]; [vm_compute; reflexivity|]).
    by apply elem_of_nil in Hkey. }
  split; [exact Hagree|].
  exact (proj1 (validation_ignores_other_keys data data') Hagree).
Defined.

Lemma app_id_read_before_project_id_witness :
  let data : gmap string Any :=
    <["app_id" := PyInt 7]> (Demo.directory_record "project_id" "proj-9") in
  data !! "app_id" = Some (PyInt 7)
  /\ data !! "project_id" = Some (PyStr "proj-9")
  /\ exists locs,
       ModelDirectory.model_validate data =
       Raise (ValidationError "ModelDirectory" ("app_id" :: locs)).
Proof.
  intros data.
  assert (data !! "app_id" = Some (PyInt 7)) as Happ by (vm_compute; reflexivity).
  split; [exact Happ|]. split; [vm_compute; reflexivity|].
  destruct (app_id_read_before_project_id data (PyInt 7) PyNone Happ)
    as (_ & Hinvalid).
  exact (proj2 (proj2 (Hinvalid eq_refl))).
Defined.

Lemma ModelVersion_from_dict_reads_witness :
  let data := Demo.version_record [] "v-1" "first" in
  let data' := <["project_id" := PyStr "proj-9"]> data in
  (forall key,
     key ∈ ["app_id"; "model_id"; "version_id"; "version"; "hyperparameters";
            "metrics"; "created_at"; "modified_at"] ->
     data !! key = data' !! key)
  /\ ModelVersion.from_dict "app-1" data (Demo.client_up [] []) =
     ModelVersion.from_dict "app-1" data' (Demo.client_up [] []).
Proof.
  intros data data'.
  assert (forall key,
            key ∈ ["app_id"; "model_id"; "version_id"; "version";
                   "hyperparameters"; "metrics"; "created_at"; "modified_at"] ->
            data !! key = data' !! key) as Hagree.
  { intros key Hkey.
    repeat (apply elem_of_cons in Hkey as [->|Hkey]; [vm_compute; reflexivity|]).
    by apply elem_of_nil in Hkey. }
  split; [exact Hagree|].
  exact (ModelVersion_from_dict_reads "app-1" data data' _ Hagree).
Defined.

Lemma to_dict_of_from_dict_witness :
  let data := Demo.directory_record "app_id" "app-1" in
  let client := Demo.client_up [] [] in
  ModelDirectory.from_dict data client = Ok (Demo.a_directory client)
  /\ exists directory_id name,
       data !! "directory_id" = Some (PyStr directory_id)
       /\ data !! "name" = Some (PyStr name)
       /\ ModelDirectory.to_dict (Demo.a_directory client) =
          [("directory_id", DStr directory_id); ("type", DType MODEL);
           ("name", DStr name)].
Proof.
  intros data client.
  assert (ModelDirectory.from_dict data client = Ok (Demo.a_directory client))
    as Hbuilt by (vm_compute; reflexivity).
  split; [exact Hbuilt|].
  exact (to_dict_of_from_dict data client _ Hbuilt).
Defined.
End ValidationExamples.

(** ** ModelBuilder and Model.from_dict, further *)

Section BuilderFurther.
Context `{Platform}.
Implicit Types (b : ModelBuilder.t) (w : World Model.t).

Lemma configure_app b (pre post : list ModelBuilder.setter_call) :
  ModelBuilder.configure b (pre ++ post) =
  ModelBuilder.configure (ModelBuilder.configure b pre) post.
Proof. unfold ModelBuilder.configure. by rewrite fold_left_app. Qed.

Lemma describe_run (self : nat) (this : Model.t) (client : Client) w
    (r : Result (gmap string Any)) (s' : Remote) :
  heap w !! self = Some this ->
  Model.__client this = Some client ->
  get_model (component client) (Model.app_id this) (Model.model_id this)
    (remote w) = (r, s') ->
  Model.describe self w =
  (r, {| remote := s';
         trace := trace w ++ [GetModel (Model.app_id this) (Model.model_id this)];
         heap := heap w |}).
Proof.
  intros Hself Hclient Hget. unfold Model.describe.
  erewrite bind_ok; [|by eapply get_client_some].
  erewrite bind_ok; [|by apply load_some].
  by apply request_run.
Qed.

Lemma build_ok b model_type w model_id s1 model_dict s2 (fields : Model.t) :
  ModelBuilder._model_type b = Some model_type ->
  create_model (component (ModelBuilder.__client b)) (ModelBuilder._app_id b)
    (ModelBuilder._name b) (ModelBuilder._directory b) model_type
    (ModelBuilder._description b) (remote w) = (Ok model_id, s1) ->
  get_model (component (ModelBuilder.__client b)) (ModelBuilder._app_id b)
    model_id s1 = (Ok model_dict, s2) ->
  Model.model_validate model_dict = Ok fields ->
  ModelBuilder.build b w =
  (Ok (length (heap w)),
   {| remote := s2;
      trace := trace w ++
        [CreateModel (ModelBuilder._app_id b) (ModelBuilder._name b)
           (ModelBuilder._directory b) model_type (ModelBuilder._description b);
         GetModel (ModelBuilder._app_id b) model_id];
      heap := heap w ++ [Model.set_client (ModelBuilder.__client b) fields] |}).
Proof.
  intros Hmt Hcreate Hget Hfields.
  rewrite (build_run b model_type w model_id s1 model_dict s2) by done.
  by rewrite from_dict_run, Hfields.
Qed.
End BuilderFurther.

(** X7.  Setters overwrite: after any chain of setter calls, each field of
    the builder holds the argument of the last call of its own setter,
    whatever other setters were called before, between or after. *)
Theorem last_setter_call_wins `{Platform} (b : ModelBuilder.t)
    (pre post : list ModelBuilder.setter_call) :
  (forall name,
     (forall other, ModelBuilder.call_new other ∉ post) ->
     ModelBuilder._name
       (ModelBuilder.configure b (pre ++ ModelBuilder.call_new name :: post)) =
     name)
  /\ (forall directory,
        (forall other, ModelBuilder.call_directory other ∉ post) ->
        ModelBuilder._directory
          (ModelBuilder.configure b
             (pre ++ ModelBuilder.call_directory directory :: post)) =
        Some directory)
  /\ (forall model_type,
        (forall other, ModelBuilder.call_model_type other ∉ post) ->
        ModelBuilder._model_type
          (ModelBuilder.configure b
             (pre ++ ModelBuilder.call_model_type model_type :: post)) =
        Some model_type)
  /\ (forall description,
        (forall other, ModelBuilder.call_description other ∉ post) ->
        ModelBuilder._description
          (ModelBuilder.configure b
             (pre ++ ModelBuilder.call_description description :: post)) =
        description).
Proof.
  split_and!.
  - intros name Hpost.
    rewrite configure_app. change (?c :: post) with ([c] ++ post).
    rewrite configure_app. by rewrite configure_name_unset.
  - intros directory Hpost.
    rewrite configure_app. change (?c :: post) with ([c] ++ post).
    rewrite configure_app. by rewrite configure_directory_unset.
  - intros model_type Hpost.
    rewrite configure_app. change (?c :: post) with ([c] ++ post).
    rewrite configure_app. rewrite configure_model_type_unset; [done|].
    apply Forall_forall. intros c Hc. destruct c; try done.
    exfalso. by eapply Hpost.
  - intros description Hpost.
    rewrite configure_app. change (?c :: post) with ([c] ++ post).
    rewrite configure_app. by rewrite configure_description_unset.
Qed.

(** X8.  A remote failure inside [build] is raised as it is and stops the
    method where it happens.  When the create request fails, no fetch is
    sent.  When the fetch fails, the model has been created remotely and
    there is no local object for it.  In both cases the object store is
    untouched. *)
Theorem build_remote_failure `{Platform} (b : ModelBuilder.t)
    (model_type : SubModelSpec) (w : World Model.t) :
  ModelBuilder._model_type b = Some model_type ->
  let client := ModelBuilder.__client b in
  let create := CreateModel (ModelBuilder._app_id b) (ModelBuilder._name b)
                  (ModelBuilder._directory b) model_type
                  (ModelBuilder._description b) in
  (forall e s1,
     create_model (component client) (ModelBuilder._app_id b)
       (ModelBuilder._name b) (ModelBuilder._directory b) model_type
       (ModelBuilder._description b) (remote w) = (Raise e, s1) ->
     ModelBuilder.build b w =
     (Raise e, {| remote := s1; trace := trace w ++ [create]; heap := heap w |}))
  /\ (forall model_id s1 e s2,
        create_model (component client) (ModelBuilder._app_id b)
          (ModelBuilder._name b) (ModelBuilder._directory b) model_type
          (ModelBuilder._description b) (remote w) = (Ok model_id, s1) ->
        get_model (component client) (ModelBuilder._app_id b) model_id s1 =
          (Raise e, s2) ->
        ModelBuilder.build b w =
        (Raise e,
         {| remote := s2;
            trace := trace w ++ [create; GetModel (ModelBuilder._app_id b) model_id];
            heap := heap w |})).
Proof.
  intros Hmt client create. split.
  - intros e s1 Hcreate. unfold ModelBuilder.build. rewrite Hmt.
    unfold call_create_model. erewrite bind_raise; [done|by apply request_run].
  - intros model_id s1 e s2 Hcreate Hget. unfold ModelBuilder.build. rewrite Hmt.
    unfold call_create_model, call_get_model.
    erewrite bind_ok; [|by apply request_run].
    erewrite bind_raise; [|by apply request_run].
    simpl. by rewrite <- app_assoc.
Qed.

(** X9.  [build] keeps nothing between calls: building twice from the same
    builder sends the create and fetch requests twice and makes two
    objects, at two consecutive references. *)
Theorem build_twice `{Platform} (b : ModelBuilder.t) (model_type : SubModelSpec)
    (w : World Model.t) (id1 id2 : string) (s1 s2 s3 s4 : Remote)
    (record1 record2 : gmap string Any) (fields1 fields2 : Model.t) :
  let client := ModelBuilder.__client b in
  let app_id := ModelBuilder._app_id b in
  let create := CreateModel app_id (ModelBuilder._name b)
                  (ModelBuilder._directory b) model_type
                  (ModelBuilder._description b) in
  ModelBuilder._model_type b = Some model_type ->
  create_model (component client) app_id (ModelBuilder._name b)
    (ModelBuilder._directory b) model_type (ModelBuilder._description b)
    (remote w) = (Ok id1, s1) ->
  get_model (component client) app_id id1 s1 = (Ok record1, s2) ->
  Model.model_validate record1 = Ok fields1 ->
  create_model (component client) app_id (ModelBuilder._name b)
    (ModelBuilder._directory b) model_type (ModelBuilder._description b)
    s2 = (Ok id2, s3) ->
  get_model (component client) app_id id2 s3 = (Ok record2, s4) ->
  Model.model_validate record2 = Ok fields2 ->
  (first <- ModelBuilder.build b ;;
   second <- ModelBuilder.build b ;;
   ret (first, second)) w =
  (Ok (length (heap w), S (length (heap w))),
   {| remote := s4;
      trace := trace w ++ [create; GetModel app_id id1; create; GetModel app_id id2];
      heap := heap w ++ [Model.set_client client fields1;
                         Model.set_client client fields2] |}).
Proof.
  intros client app_id create Hmt Hcreate1 Hget1 Hfields1 Hcreate2 Hget2 Hfields2.
  erewrite bind_ok; [|by eapply build_ok].
  erewrite bind_ok; [|by eapply build_ok].
  unfold ret. simpl. rewrite length_app, Nat.add_1_r, <- !app_assoc. done.
Qed.

(** X10.  [describe] on the model that [build] returned asks for the app
    and the model named in the fetched record (not for the builder's app or
    the identifier that the create request returned) and hands back the
    answer as it is, record or exception, without validating it. *)
Theorem build_then_describe `{Platform} (b : ModelBuilder.t)
    (model_type : SubModelSpec) (w : World Model.t) (model_id : string)
    (s1 s2 s3 : Remote) (record : gmap string Any) (fields : Model.t)
    (answer : Result (gmap string Any)) :
  let client := ModelBuilder.__client b in
  let app_id := ModelBuilder._app_id b in
  let create := CreateModel app_id (ModelBuilder._name b)
                  (ModelBuilder._directory b) model_type
                  (ModelBuilder._description b) in
  ModelBuilder._model_type b = Some model_type ->
  create_model (component client) app_id (ModelBuilder._name b)
    (ModelBuilder._directory b) model_type (ModelBuilder._description b)
    (remote w) = (Ok model_id, s1) ->
  get_model (component client) app_id model_id s1 = (Ok record, s2) ->
  Model.model_validate record = Ok fields ->
  get_model (component client) (Model.app_id fields) (Model.model_id fields) s2 =
    (answer, s3) ->
  (model <- ModelBuilder.build b ;; Model.describe model) w =
  (answer,
   {| remote := s3;
      trace := trace w ++
        [create; GetModel app_id model_id;
         GetModel (Model.app_id fields) (Model.model_id fields)];
      heap := heap w ++ [Model.set_client client fields] |}).
Proof.
  intros client app_id create Hmt Hcreate Hget Hfields Hdescribe.
  erewrite bind_ok; [|by eapply build_ok].
  erewrite (describe_run _ (Model.set_client client fields) client);
    [| |done|done].
  - simpl. by rewrite <- app_assoc.
  - simpl. rewrite lookup_app_r by lia. by rewrite Nat.sub_diag.
Qed.


Section BuilderFurtherExamples.
#[local] Existing Instance Demo.platform.

Lemma last_setter_call_wins_witness :
  let b := ModelBuilder.__init__ (Demo.client_up [] []) "app-1" in
  let post := [ModelBuilder.call_description "text";
               ModelBuilder.call_model_type "Lasso"] in
  (forall other, ModelBuilder.call_new other ∉ post)
  /\ ModelBuilder._name
       (ModelBuilder.configure b
          ([ModelBuilder.call_new "X"] ++ ModelBuilder.call_new "Y" :: post)) =
     "Y".
Proof.
  intros b post.
  assert (forall other, ModelBuilder.call_new other ∉ post) as Hpost.
  { intros other Hin.
    repeat (apply elem_of_cons in Hin as [Hin|Hin]; [discriminate|]).
    by apply elem_of_nil in Hin. }
  split; [exact Hpost|].
  exact (proj1 (last_setter_call_wins b [ModelBuilder.call_new "X"] post)
           "Y" Hpost).
Defined.

Lemma build_remote_failure_witness :
  let b := ModelBuilder.model_type
             (ModelBuilder.__init__ Demo.client_create_only "app-1") "Lasso" in
  ModelBuilder._model_type b = Some "Lasso"
  /\ ModelBuilder.build b Demo.empty_world =
     (Raise Demo.unreachable,
      {| remote := 1;
         trace := [CreateModel "app-1" "" None "Lasso" ""; GetModel "app-1" "m-1"];
         heap := [] |}).
Proof.
  intros b.
  assert (ModelBuilder._model_type b = Some "Lasso") as Hmt by reflexivity.
  split; [exact Hmt|].
  destruct (build_remote_failure b "Lasso" Demo.empty_world Hmt) as (_ & Hfetch).
  exact (Hfetch "m-1" 1 Demo.unreachable 1 eq_refl eq_refl).
Defined.

Lemma build_twice_witness :
  let client := Demo.client_up [] [] in
  let b := ModelBuilder.model_type (ModelBuilder.__init__ client "app-1") "Lasso" in
  let create := CreateModel "app-1" "" None "Lasso" "" in
  ModelBuilder._model_type b = Some "Lasso"
  /\ (first <- ModelBuilder.build b ;;
      second <- ModelBuilder.build b ;;
      ret (first, second)) Demo.empty_world =
     (Ok (0, 1),
      {| remote := 4;
         trace := [create; GetModel "app-1" "m-1"; create; GetModel "app-1" "m-1"];
         heap := [Demo.a_model client; Demo.a_model client] |}).
Proof.
  intros client b create.
  assert (ModelBuilder._model_type b = Some "Lasso") as Hmt by reflexivity.
  split; [exact Hmt|].
  exact (build_twice b "Lasso" Demo.empty_world "m-1" "m-1" 1 2 3 4
           (Demo.model_record "app_id" "app-1" "m-1" "Model One")
           (Demo.model_record "app_id" "app-1" "m-1" "Model One")
           Demo.model_fields Demo.model_fields
           Hmt eq_refl eq_refl eq_refl eq_refl eq_refl eq_refl).
Defined.

Lemma build_then_describe_witness :
  let client := Demo.client_up [] [] in
  let b := ModelBuilder.model_type (ModelBuilder.__init__ client "app-1") "Lasso" in
  let record := Demo.model_record "app_id" "app-1" "m-1" "Model One" in
  ModelBuilder._model_type b = Some "Lasso"
  /\ (model <- ModelBuilder.build b ;; Model.describe model) Demo.empty_world =
     (Ok record,
      {| remote := 3;
         trace := [CreateModel "app-1" "" None "Lasso" "";
                   GetModel "app-1" "m-1"; GetModel "app-1" "m-1"];
         heap := [Demo.a_model client] |}).
Proof.
  intros client b record.
  assert (ModelBuilder._model_type b = Some "Lasso") as Hmt by reflexivity.
  split; [exact Hmt|].
  exact (build_then_describe b "Lasso" Demo.empty_world "m-1" 1 2 3 record
           Demo.model_fields (Ok record) Hmt eq_refl eq_refl eq_refl eq_refl).
Defined.
End BuilderFurtherExamples.

(** ** Model methods, further *)

Section EditChains.
Context `{Platform}.
Implicit Types (w : World Model.t) (this : Model.t) (client : Client)
  (c : edit_call) (cs : list edit_call).

(** One call of a chain: its request is sent, and either the assignment is
    made and [self] returned, or the exception is raised and the store is
    as before. *)
Lemma run_edit_outcome (self : nat) this client c w :
  heap w !! self = Some this ->
  Model.__client this = Some client ->
  let sent := trace w ++
                [edit_request (Model.app_id this) (Model.model_id this) c] in
  exists s',
    run_edit self c w =
      (Ok self, {| remote := s'; trace := sent;
                   heap := <[self := edit_assignment c this]> (heap w) |})
    \/ exists e,
         run_edit self c w =
         (Raise e, {| remote := s'; trace := sent; heap := heap w |}).
Proof.
  intros Hself Hclient sent. subst sent. destruct c as [name|directory|description].
  - destruct (edit_model (component client) (Model.app_id this)
                (Model.model_id this) (Some name) None None (remote w))
      as [r s'] eqn:Hedit.
    exists s'. simpl.
    rewrite (rename_run self this client name w r s' Hself Hclient Hedit).
    destruct r as [[]|e]; [by left|right; by exists e].
  - destruct (edit_model (component client) (Model.app_id this)
                (Model.model_id this) None (Some directory) None (remote w))
      as [r s'] eqn:Hedit.
    exists s'. simpl.
    rewrite (move_run self this client directory w r s' Hself Hclient Hedit).
    rewrite (list_insert_id _ _ _ Hself).
    destruct r as [[]|e]; [by left|right; by exists e].
  - destruct (edit_model (component client) (Model.app_id this)
                (Model.model_id this) None None (Some description) (remote w))
      as [r s'] eqn:Hedit.
    exists s'. simpl.
    rewrite (update_description_run self this client description w r s'
               Hself Hclient Hedit).
    destruct r as [[]|e]; [by left|right; by exists e].
Qed.

(** An assignment changes [name] or [description] and nothing else. *)
Lemma edit_assignments_identity cs this :
  let this' := edit_assignments cs this in
  Model.app_id this' = Model.app_id this
  /\ Model.model_id this' = Model.model_id this
  /\ Model.model_type this' = Model.model_type this
  /\ Model.sub_model_type this' = Model.sub_model_type this
  /\ Model.created_at this' = Model.created_at this
  /\ Model.modified_at this' = Model.modified_at this
  /\ Model.__client this' = Model.__client this.
Proof.
  revert this. induction cs as [|c cs IH]; intros this; [done|].
  simpl. unfold edit_assignments in *. simpl.
  destruct (IH (edit_assignment c this)) as (-> & -> & -> & -> & -> & -> & ->).
  by destruct c.
Qed.

Lemma edit_assignments_snoc cs c this :
  edit_assignments (cs ++ [c]) this = edit_assignment c (edit_assignments cs this).
Proof. unfold edit_assignments. by rewrite fold_left_app. Qed.

(** The last [rename] of a chain decides the name, the last
    [update_description] the description. *)
Lemma edit_assignments_last_name (pre post : list edit_call) (name : string) this :
  (forall other, edit_rename other ∉ post) ->
  Model.name (edit_assignments (pre ++ edit_rename name :: post) this) = name.
Proof.
  induction post as [|c post IH] using rev_ind.
  - intros _. by rewrite edit_assignments_snoc.
  - intros Hpost. rewrite app_comm_cons, app_assoc, edit_assignments_snoc.
    assert (forall other, edit_rename other ∉ post) as Hpost'.
    { intros other Hin. apply (Hpost other), elem_of_app. by left. }
    destruct c as [other| |]; simpl; [|by apply IH..].
    exfalso. eapply Hpost, elem_of_app. right. by apply list_elem_of_singleton.
Qed.

Lemma edit_assignments_last_description (pre post : list edit_call)
    (description : string) this :
  (forall other, edit_update_description other ∉ post) ->
  Model.description
    (edit_assignments (pre ++ edit_update_description description :: post) this) =
  description.
Proof.
  induction post as [|c post IH] using rev_ind.
  - intros _. by rewrite edit_assignments_snoc.
  - intros Hpost. rewrite app_comm_cons, app_assoc, edit_assignments_snoc.
    assert (forall other, edit_update_description other ∉ post) as Hpost'.
    { intros other Hin. apply (Hpost other), elem_of_app. by left. }
    destruct c as [| |other]; simpl; [by apply IH..|].
    exfalso. eapply Hpost, elem_of_app. right. by apply list_elem_of_singleton.
Qed.

(** A chain of calls: [k] of them succeed, their assignments are made in
    order; either all succeed and all requests were sent, or the next
    request fails, is the last one sent, and its exception is raised. *)
Lemma run_edits_outcome (self : nat) client cs :
  forall this w,
    heap w !! self = Some this ->
    Model.__client this = Some client ->
    let result := run_edits self cs w in
    let request := edit_request (Model.app_id this) (Model.model_id this) in
    exists k,
      k <= length cs
      /\ heap result.2 = <[self := edit_assignments (take k cs) this]> (heap w)
      /\ ((result.1 = Ok self /\ k = length cs
           /\ trace result.2 = trace w ++ map request cs)
          \/ ((exists e, result.1 = Raise e) /\ k < length cs
              /\ trace result.2 = trace w ++ map request (take (S k) cs))).
Proof.
  induction cs as [|c cs IH]; intros this w Hself Hclient result request.
  - exists 0. subst result. simpl. split_and!; [done| |].
    + change (edit_assignments [] this) with this.
      by rewrite (list_insert_id _ _ _ Hself).
    + left. by rewrite app_nil_r.
  - subst result. simpl.
    destruct (run_edit_outcome self this client c w Hself Hclient)
      as (s' & [Hok|[e Hfail]]).
    + erewrite bind_ok; [|exact Hok].
      set (w1 := {| remote := s';
                    trace := trace w ++ [edit_request (Model.app_id this)
                                           (Model.model_id this) c];
                    heap := <[self := edit_assignment c this]> (heap w) |}).
      assert (heap w1 !! self = Some (edit_assignment c this)) as Hself1.
      { apply list_lookup_insert_eq. by eapply lookup_lt_Some. }
      assert (Model.__client (edit_assignment c this) = Some client) as Hclient1.
      { by destruct c. }
      destruct (IH (edit_assignment c this) w1 Hself1 Hclient1)
        as (k & Hk & Hheap & Hrest).
      assert (edit_request (Model.app_id (edit_assignment c this))
                (Model.model_id (edit_assignment c this)) = request) as Hrequest.
      { by destruct c. }
      rewrite Hrequest in Hrest.
      exists (S k). split_and!; [simpl; lia| |].
      * rewrite Hheap. simpl. by rewrite list_insert_insert_eq.
      * destruct Hrest as [(Hr & -> & Htrace)|(Hr & Hlt & Htrace)].
        -- left. split_and!; [done..|].
           rewrite Htrace. simpl. by rewrite <- app_assoc.
        -- right. split_and!; [done|simpl; lia|].
           rewrite Htrace. simpl. by rewrite <- app_assoc.
    + erewrite bind_raise; [|exact Hfail]. simpl.
      exists 0. split_and!; [lia| |].
      * change (edit_assignments (take 0 (c :: cs)) this) with this.
        by rewrite (list_insert_id _ _ _ Hself).
      * right. split_and!; [by exists e|lia|done].
Qed.
End EditChains.

(** X12.  A model that has no client (one that was validated but not built
    by [from_dict]) cannot reach the remote side: every method raises
    [AttributeError] for [__client] before sending anything, and the world
    is as it was. *)
Theorem methods_need_client `{Platform} `{!Endpoints} (self : nat)
    (this : Model.t) (w : World Model.t) :
  heap w !! self = Some this ->
  Model.__client this = None ->
  let refused {A : Type} : Result A * World Model.t :=
    (Raise (AttributeError "__client"), w) in
  (forall name, Model.rename self name w = refused)
  /\ (forall directory, Model.move self directory w = refused)
  /\ (forall description, Model.update_description self description w = refused)
  /\ Model.versions self w = refused
  /\ Model.describe self w = refused
  /\ Model.delete self w = refused.
Proof.
  intros Hself Hclient refused.
  assert (Model.get_client self w = (Raise (AttributeError "__client"), w))
    as Hget.
  { unfold Model.get_client. erewrite bind_ok; [|by apply load_some].
    by rewrite Hclient. }
  split_and!; intros;
    unfold Model.rename, Model.move, Model.update_description, Model.versions,
      Model.describe, Model.delete;
    by erewrite bind_raise.
Qed.

(** X13.  Whatever chain of [rename], [move] and [update_description] calls
    runs on a model, and however far it gets: no object is added or
    removed, every other object of the store is untouched, the model keeps
    its [app_id], [model_id], types, timestamps and client, and every
    request sent is an [edit_model] for that one (app_id, model_id), at most
    one per call. *)
Theorem edit_chain_keeps_identity `{Platform} (self : nat) (this : Model.t)
    (client : Client) (cs : list edit_call) (w : World Model.t) :
  heap w !! self = Some this ->
  Model.__client this = Some client ->
  let w' := (run_edits self cs w).2 in
  length (heap w') = length (heap w)
  /\ (forall l, l <> self -> heap w' !! l = heap w !! l)
  /\ (exists this',
        heap w' !! self = Some this'
        /\ Model.app_id this' = Model.app_id this
        /\ Model.model_id this' = Model.model_id this
        /\ Model.model_type this' = Model.model_type this
        /\ Model.sub_model_type this' = Model.sub_model_type this
        /\ Model.created_at this' = Model.created_at this
        /\ Model.modified_at this' = Model.modified_at this
        /\ Model.__client this' = Some client)
  /\ (exists sent,
        trace w' = trace w ++ sent
        /\ length sent <= length cs
        /\ Forall (fun rq => exists name directory description,
                     rq = EditModel (Model.app_id this) (Model.model_id this)
                            name directory description) sent).
Proof.
  intros Hself Hclient w'. subst w'.
  destruct (run_edits_outcome self client cs this w Hself Hclient)
    as (k & Hk & Hheap & Hrest).
  assert (forall cs', Forall (fun rq => exists name directory description,
                     rq = EditModel (Model.app_id this) (Model.model_id this)
                            name directory description)
            (map (edit_request (Model.app_id this) (Model.model_id this)) cs'))
    as Hscoped.
  { intros cs'. apply Forall_forall. intros rq (c & -> & _)%list_elem_of_fmap.
    destruct c; simpl; by do 3 eexists. }
  split_and!.
  - by rewrite Hheap, length_insert.
  - intros l Hl. by rewrite Hheap, list_lookup_insert_ne.
  - exists (edit_assignments (take k cs) this). split.
    + rewrite Hheap. apply list_lookup_insert_eq. by eapply lookup_lt_Some.
    + pose proof (edit_assignments_identity (take k cs) this) as Hid.
      simpl in Hid. destruct Hid as (-> & -> & -> & -> & -> & -> & ->). done.
  - destruct Hrest as [(_ & _ & Htrace)|(_ & Hlt & Htrace)].
    + eexists. split; [exact Htrace|]. split; [by rewrite length_map|done].
    + eexists. split; [exact Htrace|]. split; [|done].
      rewrite length_map, length_take. lia.
Qed.

(** X14.  The local mirror after a chain of editing calls is decided by the
    calls alone.  When the chain returns, it returns [self], every request
    was sent in order, and the model holds the assignments of all the calls:
    its name is the argument of the last [rename], its description that of
    the last [update_description].  When a call raises, the assignments of
    the calls before it stay made, its own is not, and no later request is
    sent. *)
Theorem edit_chain_mirror `{Platform} (self : nat) (this : Model.t)
    (client : Client) (cs : list edit_call) (w : World Model.t) :
  heap w !! self = Some this ->
  Model.__client this = Some client ->
  let request := edit_request (Model.app_id this) (Model.model_id this) in
  (forall l w',
     run_edits self cs w = (Ok l, w') ->
     l = self
     /\ heap w' = <[self := edit_assignments cs this]> (heap w)
     /\ trace w' = trace w ++ map request cs)
  /\ (forall e w',
        run_edits self cs w = (Raise e, w') ->
        exists k,
          k < length cs
          /\ heap w' = <[self := edit_assignments (take k cs) this]> (heap w)
          /\ trace w' = trace w ++ map request (take (S k) cs))
  /\ (forall pre name post,
        cs = pre ++ edit_rename name :: post ->
        (forall other, edit_rename other ∉ post) ->
        Model.name (edit_assignments cs this) = name)
  /\ (forall pre description post,
        cs = pre ++ edit_update_description description :: post ->
        (forall other, edit_update_description other ∉ post) ->
        Model.description (edit_assignments cs this) = description).
Proof.
  intros Hself Hclient request.
  destruct (run_edits_outcome self client cs this w Hself Hclient)
    as (k & Hk & Hheap & Hrest).
  split_and!.
  - intros l w' Hrun. rewrite Hrun in Hheap, Hrest. simpl in *.
    destruct Hrest as [([= ->] & -> & Htrace)|([e [=]] & _)].
    by rewrite firstn_all in Hheap.
  - intros e w' Hrun. rewrite Hrun in Hheap, Hrest. simpl in *.
    destruct Hrest as [([=] & _)|(_ & Hlt & Htrace)].
    by exists k.
  - intros pre name post -> Hpost. by apply edit_assignments_last_name.
  - intros pre description post -> Hpost.
    by apply edit_assignments_last_description.
Qed.

Section VersionsFurther.
Context `{Platform}.
Implicit Types (w : World Model.t) (client : Client)
  (rs : list (gmap string Any)) (vs : list ModelVersion.t).

Lemma versions_comprehension_app (app_id : string) client
    (pre rest : list (gmap string Any)) vs (acc : dict ModelVersion.t) w :
  Forall2 (fun r v => ModelVersion.from_dict app_id r client = Ok v) pre vs ->
  Model.versions_comprehension app_id client (pre ++ rest) acc w =
  Model.versions_comprehension app_id client rest
    (insert_items (version_items vs) acc) w.
Proof.
  intros Hall. revert acc.
  induction Hall as [|r v pre vs Hr Hall IH]; intros acc; simpl; [done|].
  unfold bind at 1. unfold lift at 1. rewrite Hr. apply IH.
Qed.

Lemma versions_comprehension_inv (app_id : string) client rs
    (acc : dict ModelVersion.t) w (d : dict ModelVersion.t) w' :
  Model.versions_comprehension app_id client rs acc w = (Ok d, w') ->
  w' = w
  /\ exists vs,
       Forall2 (fun r v => ModelVersion.from_dict app_id r client = Ok v) rs vs
       /\ d = insert_items (version_items vs) acc.
Proof.
  revert acc. induction rs as [|r rs IH]; intros acc; simpl.
  - intros [= <- <-]. split; [done|]. by exists [].
  - unfold bind at 1. unfold lift at 1.
    destruct (ModelVersion.from_dict app_id r client) as [v|e] eqn:Hr; [|done].
    intros (-> & vs & Hall & ->)%IH. split; [done|].
    exists (v :: vs). split; [by constructor|done].
Qed.

Lemma versions_comprehension_raise (app_id : string) client rs
    (acc : dict ModelVersion.t) w (e : Exception) w' :
  Model.versions_comprehension app_id client rs acc w = (Raise e, w') -> w' = w.
Proof.
  revert acc. induction rs as [|r rs IH]; intros acc; simpl; [done|].
  unfold bind at 1. unfold lift at 1.
  destruct (ModelVersion.from_dict app_id r client) as [v|e'] eqn:Hr.
  - apply IH.
  - by intros [= _ <-].
Qed.

(** [versions] once the listing has arrived. *)
Lemma versions_listed (self : nat) (this : Model.t) client w rs (s' : Remote) :
  heap w !! self = Some this ->
  Model.__client this = Some client ->
  get_model_versions (component client) (Model.app_id this)
    (Model.model_id this) (remote w) = (Ok rs, s') ->
  Model.versions self w =
  Model.versions_comprehension (Model.app_id this) client rs []
    {| remote := s';
       trace := trace w ++ [GetModelVersions (Model.app_id this)
                              (Model.model_id this)];
       heap := heap w |}.
Proof.
  intros Hself Hclient Hlist. unfold Model.versions.
  erewrite bind_ok; [|by eapply get_client_some].
  erewrite bind_ok; [|by apply load_some].
  erewrite bind_ok; [|by apply request_run].
  erewrite bind_ok; [|by apply load_some].
  erewrite bind_ok; [|by eapply get_client_some].
  unfold bind, ret, NamedMapping.
  by destruct (Model.versions_comprehension _ _ _ _ _) as [[d|e] w'].
Qed.

Lemma versions_failed (self : nat) (this : Model.t) client w (e : Exception)
    (s' : Remote) :
  heap w !! self = Some this ->
  Model.__client this = Some client ->
  get_model_versions (component client) (Model.app_id this)
    (Model.model_id this) (remote w) = (Raise e, s') ->
  Model.versions self w =
  (Raise e,
   {| remote := s';
      trace := trace w ++ [GetModelVersions (Model.app_id this)
                             (Model.model_id this)];
      heap := heap w |}).
Proof.
  intros Hself Hclient Hlist. unfold Model.versions.
  erewrite bind_ok; [|by eapply get_client_some].
  erewrite bind_ok; [|by apply load_some].
  erewrite bind_raise; [done|by apply request_run].
Qed.
End VersionsFurther.

(** X15.  [versions] never changes the object store and sends exactly one
    request, the listing for the model's own (app_id, model_id), whatever
    comes back.  A failure of that request is raised as it is; an empty
    listing gives the empty mapping. *)
Theorem versions_leaves_store `{Platform} (self : nat) (this : Model.t)
    (client : Client) (w : World Model.t) :
  heap w !! self = Some this ->
  Model.__client this = Some client ->
  let result := Model.versions self w in
  let sent := trace w ++ [GetModelVersions (Model.app_id this)
                            (Model.model_id this)] in
  heap result.2 = heap w
  /\ trace result.2 = sent
  /\ (forall e s',
        get_model_versions (component client) (Model.app_id this)
          (Model.model_id this) (remote w) = (Raise e, s') ->
        result = (Raise e, {| remote := s'; trace := sent; heap := heap w |}))
  /\ (forall s',
        get_model_versions (component client) (Model.app_id this)
          (Model.model_id this) (remote w) = (Ok [], s') ->
        result = (Ok [], {| remote := s'; trace := sent; heap := heap w |})).
Proof.
  intros Hself Hclient result sent. subst result sent.
  split_and!.
  - destruct (get_model_versions (component client) (Model.app_id this)
                (Model.model_id this) (remote w)) as [[rs|e] s'] eqn:Hlist.
    + rewrite (versions_listed self this client w rs s') by done.
      destruct (Model.versions_comprehension _ _ _ _ _) as [[d|e] w'] eqn:Hcomp.
      * by apply versions_comprehension_inv in Hcomp as (-> & _).
      * by apply versions_comprehension_raise in Hcomp as ->.
    + by rewrite (versions_failed self this client w e s').
  - destruct (get_model_versions (component client) (Model.app_id this)
                (Model.model_id this) (remote w)) as [[rs|e] s'] eqn:Hlist.
    + rewrite (versions_listed self this client w rs s') by done.
      destruct (Model.versions_comprehension _ _ _ _ _) as [[d|e] w'] eqn:Hcomp.
      * by apply versions_comprehension_inv in Hcomp as (-> & _).
      * by apply versions_comprehension_raise in Hcomp as ->.
    + by rewrite (versions_failed self this client w e s').
  - intros e s' Hlist. by apply (versions_failed self this client).
  - intros s' Hlist. by rewrite (versions_listed self this client w [] s').
Qed.

(** X16.  [versions] is all or nothing.  It returns a mapping only when
    every listed record validates, and the mapping is then made of all the
    versions built, each holding the model's client.  A record that does
    not validate makes the call raise that record's validation error, the
    first such record's when there are several, and no mapping of the
    records before it is returned. *)
Theorem versions_all_or_nothing `{Platform} (self : nat) (this : Model.t)
    (client : Client) (w : World Model.t) (rs : list (gmap string Any))
    (s' : Remote) :
  heap w !! self = Some this ->
  Model.__client this = Some client ->
  get_model_versions (component client) (Model.app_id this)
    (Model.model_id this) (remote w) = (Ok rs, s') ->
  (forall d w',
     Model.versions self w = (Ok d, w') ->
     exists vs,
       Forall2 (fun r v => ModelVersion.from_dict (Model.app_id this) r client
                           = Ok v) rs vs
       /\ d = dict_of_items (version_items vs)
       /\ Forall (fun v => ModelVersion.__client v = Some client) vs)
  /\ (forall pre r post vs e,
        rs = pre ++ r :: post ->
        Forall2 (fun r v => ModelVersion.from_dict (Model.app_id this) r client
                            = Ok v) pre vs ->
        ModelVersion.from_dict (Model.app_id this) r client = Raise e ->
        Model.versions self w =
        (Raise e,
         {| remote := s';
            trace := trace w ++ [GetModelVersions (Model.app_id this)
                                   (Model.model_id this)];
            heap := heap w |})).
Proof.
  intros Hself Hclient Hlist. split.
  - intros d w'. rewrite (versions_listed self this client w rs s') by done.
    intros (_ & vs & Hall & ->)%versions_comprehension_inv.
    exists vs. split_and!; [done..|].
    apply Forall_forall. intros v Hv.
    apply list_elem_of_lookup in Hv as [i Hi].
    destruct (Forall2_lookup_r _ _ _ _ _ Hall Hi) as (r & _ & Hr).
    by apply ModelVersion_from_dict_Ok in Hr as (fields & _ & ->).
  - intros pre r post vs e -> Hpre Hr.
    rewrite (versions_listed self this client w _ s') by done.
    rewrite (versions_comprehension_app _ _ pre (r :: post) vs) by done.
    simpl. unfold bind, lift. by rewrite Hr.
Qed.

(** X17.  [delete] sends the delete for the model's own (app_id, model_id),
    returns [None] when it succeeds and raises what the remote side raised
    otherwise; the local object is left as it was in both cases.  Nothing
    stops a later use of the object: a [rename] after a successful delete
    is sent as usual, for the same identifiers, and when it succeeds the
    object's [name] is the new name and its other fields are as before. *)
Theorem delete_then_rename `{Platform} `{!Endpoints} (self : nat)
    (this : Model.t) (client : Client) (w : World Model.t) :
  heap w !! self = Some this ->
  Model.__client this = Some client ->
  (forall r s1,
     delete_model client (Model.app_id this) (Model.model_id this) (remote w) =
       (r, s1) ->
     Model.delete self w =
     (match r with Ok _ => Ok tt | Raise e => Raise e end,
      {| remote := s1; trace := trace w; heap := heap w |}))
  /\ (forall s1 name r s2,
        delete_model client (Model.app_id this) (Model.model_id this) (remote w) =
          (Ok tt, s1) ->
        edit_model (component client) (Model.app_id this) (Model.model_id this)
          (Some name) None None s1 = (r, s2) ->
        (Model.delete self ;;; Model.rename self name) w =
        let sent := trace w ++ [EditModel (Model.app_id this)
                                  (Model.model_id this) (Some name) None None] in
        match r with
        | Ok _ =>
            (Ok self, {| remote := s2; trace := sent;
                         heap := <[self := Model.set_name name this]> (heap w) |})
        | Raise e => (Raise e, {| remote := s2; trace := sent; heap := heap w |})
        end)
  /\ (forall s1 name l w',
        delete_model client (Model.app_id this) (Model.model_id this) (remote w) =
          (Ok tt, s1) ->
        (Model.delete self ;;; Model.rename self name) w = (Ok l, w') ->
        l = self
        /\ (exists this',
              heap w' !! self = Some this'
              /\ Model.name this' = name
              /\ Model.app_id this' = Model.app_id this
              /\ Model.model_id this' = Model.model_id this
              /\ Model.model_type this' = Model.model_type this
              /\ Model.sub_model_type this' = Model.sub_model_type this
              /\ Model.description this' = Model.description this
              /\ Model.created_at this' = Model.created_at this
              /\ Model.modified_at this' = Model.modified_at this
              /\ Model.__client this' = Some client)
        /\ (forall other, other <> self -> heap w' !! other = heap w !! other)).
Proof.
  intros Hself Hclient.
  assert (forall r s1,
            delete_model client (Model.app_id this) (Model.model_id this)
              (remote w) = (r, s1) ->
            Model.delete self w =
            (match r with Ok _ => Ok tt | Raise e => Raise e end,
             {| remote := s1; trace := trace w; heap := heap w |})) as Hdelete.
  { intros r s1 Hr. unfold Model.delete.
    erewrite bind_ok; [|by eapply get_client_some].
    erewrite bind_ok; [|by apply load_some].
    unfold bind, serve. rewrite Hr. by destruct r. }
  assert (forall s1 name r s2,
            delete_model client (Model.app_id this) (Model.model_id this)
              (remote w) = (Ok tt, s1) ->
            edit_model (component client) (Model.app_id this)
              (Model.model_id this) (Some name) None None s1 = (r, s2) ->
            (Model.delete self ;;; Model.rename self name) w =
            let sent := trace w ++ [EditModel (Model.app_id this)
                                      (Model.model_id this) (Some name) None None] in
            match r with
            | Ok _ =>
                (Ok self,
                 {| remote := s2; trace := sent;
                    heap := <[self := Model.set_name name this]> (heap w) |})
            | Raise e =>
                (Raise e, {| remote := s2; trace := sent; heap := heap w |})
            end) as Hthen.
  { intros s1 name r s2 Hr Hedit.
    erewrite bind_ok; [|exact (Hdelete (Ok tt) s1 Hr)].
    by rewrite (rename_run self this client name
                  {| remote := s1; trace := trace w; heap := heap w |} r s2
                  Hself Hclient Hedit). }
  split; [exact Hdelete|]. split; [exact Hthen|].
  intros s1 name l w' Hr.
  destruct (edit_model (component client) (Model.app_id this)
              (Model.model_id this) (Some name) None None s1)
    as [r s2] eqn:Hedit.
  rewrite (Hthen s1 name r s2 Hr Hedit). cbv zeta.
  destruct r as [[]|e]; [|done].
  intros [= <- <-]. simpl. split_and!.
  - done.
  - exists (Model.set_name name this).
    destruct (set_name_fields name this)
      as (Hname & Happ & Hid & Htype & Hsub & Hdesc & Hcreated & Hmodified & Hcl).
    split; [apply list_lookup_insert_eq; by eapply lookup_lt_Some|].
    split_and!; [done..|]. by rewrite Hcl.
  - intros other Hother. by rewrite list_lookup_insert_ne.
Qed.

(** X18.  [describe] on a version built by [from_dict] asks for the
    record's [version_id], in the app that the record names under [app_id]
    when it names one and in the app passed to [from_dict] otherwise, with
    the client passed to [from_dict]; the answer is handed back as it is. *)
Theorem version_describe_addresses `{Platform} `{!Endpoints} (app_id : string)
    (data : gmap string Any) (client : Client) (v : ModelVersion.t) :
  ModelVersion.from_dict app_id data client = Ok v ->
  exists app version_id,
    data !! "version_id" = Some (PyStr version_id)
    /\ (data !! "app_id" = Some (PyStr app)
        \/ (data !! "app_id" = None /\ app = app_id))
    /\ forall (Obj : Type) (w : World Obj),
         ModelVersion.describe v w =
         ((get_model_version client app version_id (remote w)).1,
          {| remote := (get_model_version client app version_id (remote w)).2;
             trace := trace w; heap := heap w |}).
Proof.
  intros Hv.
  pose proof (ModelVersion_from_dict_version_id _ _ _ _ Hv) as Hid.
  apply ModelVersion_from_dict_Ok in Hv as (fields & Hfields & ->).
  apply ModelVersion_validate_app_id, merged_app_id_field in Hfields.
  exists (ModelVersion.app_id fields), (ModelVersion.version_id fields).
  split_and!; [done..|].
  intros Obj w. unfold ModelVersion.describe, serve. simpl.
  by destruct (get_model_version _ _ _ _).
Qed.

Section ModelFurtherExamples.
#[local] Existing Instance Demo.platform.
#[local] Existing Instance Demo.endpoints.

Lemma methods_need_client_witness :
  let w : World Model.t :=
    {| remote := 0; trace := []; heap := [Demo.model_fields] |} in
  (heap w !! 0 = Some Demo.model_fields
   /\ Model.__client Demo.model_fields = None)
  /\ Model.rename 0 "Y" w = (Raise (AttributeError "__client"), w)
  /\ Model.delete 0 w = (Raise (AttributeError "__client"), w).
Proof.
  intros w.
  assert (heap w !! 0 = Some Demo.model_fields) as Hself by reflexivity.
  assert (Model.__client Demo.model_fields = None) as Hclient by reflexivity.
  destruct (methods_need_client 0 Demo.model_fields w Hself Hclient)
    as (Hrename & _ & _ & _ & _ & Hdelete).
  split; [by split|]. split; [exact (Hrename "Y")|exact Hdelete].
Defined.

Lemma edit_chain_keeps_identity_witness :
  let client := Demo.client_up [] [] in
  let w := Demo.world client in
  let cs := [edit_rename "A"; edit_move "dir-2";
             edit_update_description "text"; edit_rename "B"] in
  (heap w !! 0 = Some (Demo.a_model client)
   /\ Model.__client (Demo.a_model client) = Some client)
  /\ length (heap (run_edits 0 cs w).2) = length (heap w)
  /\ exists this',
       heap (run_edits 0 cs w).2 !! 0 = Some this'
       /\ Model.app_id this' = "app-1"
       /\ Model.model_id this' = "m-1".
Proof.
  intros client w cs.
  assert (heap w !! 0 = Some (Demo.a_model client)) as Hself by reflexivity.
  assert (Model.__client (Demo.a_model client) = Some client) as Hclient
    by reflexivity.
  destruct (edit_chain_keeps_identity 0 (Demo.a_model client) client cs w
              Hself Hclient)
    as (Hlength & _ & (this' & Hthis' & Happ & Hmodel & _) & _).
  split; [by split|]. split; [exact Hlength|].
  exists this'. by split_and!.
Defined.

Lemma edit_chain_mirror_witness :
  let client := Demo.client_up [] [] in
  let w := Demo.world client in
  let cs := [edit_rename "A"; edit_move "dir-2";
             edit_update_description "text"; edit_rename "B"] in
  (heap w !! 0 = Some (Demo.a_model client)
   /\ Model.__client (Demo.a_model client) = Some client)
  /\ heap (run_edits 0 cs w).2 =
     [Model.set_name "B" (Model.set_description "text" (Demo.a_model client))]
  /\ trace (run_edits 0 cs w).2 =
     [EditModel "app-1" "m-1" (Some "A") None None;
      EditModel "app-1" "m-1" None (Some "dir-2") None;
      EditModel "app-1" "m-1" None None (Some "text");
      EditModel "app-1" "m-1" (Some "B") None None].
Proof.
  intros client w cs.
  assert (heap w !! 0 = Some (Demo.a_model client)) as Hself by reflexivity.
  assert (Model.__client (Demo.a_model client) = Some client) as Hclient
    by reflexivity.
  destruct (edit_chain_mirror 0 (Demo.a_model client) client cs w Hself Hclient)
    as (Hok & _).
  destruct (Hok 0 (run_edits 0 cs w).2 eq_refl) as (_ & Hheap & Htrace).
  split; [by split|]. split; [exact Hheap|exact Htrace].
Defined.

Lemma versions_leaves_store_witness :
  let client := Demo.client_down in
  let w := Demo.world client in
  (heap w !! 0 = Some (Demo.a_model client)
   /\ Model.__client (Demo.a_model client) = Some client)
  /\ Model.versions 0 w =
     (Raise Demo.unreachable,
      {| remote := 0; trace := [GetModelVersions "app-1" "m-1"];
         heap := [Demo.a_model client] |}).
Proof.
  intros client w.
  assert (heap w !! 0 = Some (Demo.a_model client)) as Hself by reflexivity.
  assert (Model.__client (Demo.a_model client) = Some client) as Hclient
    by reflexivity.
  destruct (versions_leaves_store 0 (Demo.a_model client) client w Hself Hclient)
    as (_ & _ & Hfailed & _).
  split; [by split|]. exact (Hfailed Demo.unreachable 0 eq_refl).
Defined.

Lemma versions_all_or_nothing_witness :
  let good := Demo.version_record [] "v-1" "first" in
  let bad : gmap string Any := {[ "version_id" := PyStr "v-2" ]} in
  let client := Demo.client_up [good; bad; good] [] in
  let w := Demo.world client in
  (heap w !! 0 = Some (Demo.a_model client)
   /\ Model.__client (Demo.a_model client) = Some client
   /\ get_model_versions (component client) "app-1" "m-1" (remote w) =
      (Ok [good; bad; good], 1))
  /\ Model.versions 0 w =
     (Raise (ValidationError "ModelVersion"
               ["model_id"; "version"; "hyperparameters"; "metrics";
                "created_at"; "modified_at"]),
      {| remote := 1; trace := [GetModelVersions "app-1" "m-1"];
         heap := [Demo.a_model client] |}).
Proof.
  intros good bad client w.
  assert (heap w !! 0 = Some (Demo.a_model client)) as Hself by reflexivity.
  assert (Model.__client (Demo.a_model client) = Some client) as Hclient
    by reflexivity.
  assert (get_model_versions (component client) "app-1" "m-1" (remote w) =
          (Ok [good; bad; good], 1)) as Hlist by reflexivity.
  destruct (versions_all_or_nothing 0 (Demo.a_model client) client w
              [good; bad; good] 1 Hself Hclient Hlist) as (_ & Hinvalid).
  split; [by split_and!|].
  apply (Hinvalid [good] bad [good] [Demo.a_version client "v-1" "first"]).
  - reflexivity.
  - constructor; [vm_compute; reflexivity|constructor].
  - vm_compute. reflexivity.
Defined.

Lemma delete_then_rename_witness :
  let client := Demo.client_up [] [] in
  let w := Demo.world client in
  (heap w !! 0 = Some (Demo.a_model client)
   /\ Model.__client (Demo.a_model client) = Some client)
  /\ Model.delete 0 w =
     (Ok tt, {| remote := 1; trace := []; heap := [Demo.a_model client] |})
  /\ (Model.delete 0 ;;; Model.rename 0 "Y") w =
     (Ok 0,
      {| remote := 2;
         trace := [EditModel "app-1" "m-1" (Some "Y") None None];
         heap := [Model.set_name "Y" (Demo.a_model client)] |})
  /\ exists this',
       heap ((Model.delete 0 ;;; Model.rename 0 "Y") w).2 !! 0 = Some this'
       /\ Model.name this' = "Y"
       /\ Model.model_id this' = "m-1".
Proof.
  intros client w.
  assert (heap w !! 0 = Some (Demo.a_model client)) as Hself by reflexivity.
  assert (Model.__client (Demo.a_model client) = Some client) as Hclient
    by reflexivity.
  destruct (delete_then_rename 0 (Demo.a_model client) client w Hself Hclient)
    as (Hdelete & Hthen & Hfields).
  split; [by split|]. split_and!.
  - exact (Hdelete (Ok tt) 1 eq_refl).
  - exact (Hthen 1 "Y" (Ok tt) 2 eq_refl eq_refl).
  - destruct (Hfields 1 "Y" 0 _ eq_refl (Hthen 1 "Y" (Ok tt) 2 eq_refl eq_refl))
      as (_ & (this' & Hthis' & Hname & _ & Hid & _) & _).
    exists this'. rewrite (Hthen 1 "Y" (Ok tt) 2 eq_refl eq_refl).
    by split_and!.
Defined.

Lemma version_describe_addresses_witness :
  let data := Demo.version_record [("app_id", PyStr "app-record")] "v-1" "first" in
  let client := Demo.client_up [] [] in
  exists v,
    ModelVersion.from_dict "app-1" data client = Ok v
    /\ exists app version_id,
         data !! "version_id" = Some (PyStr version_id)
         /\ (data !! "app_id" = Some (PyStr app)
             \/ (data !! "app_id" = None /\ app = "app-1"))
         /\ forall (Obj : Type) (w : World Obj),
              ModelVersion.describe v w =
              ((get_model_version client app version_id (remote w)).1,
               {| remote := (get_model_version client app version_id (remote w)).2;
                  trace := trace w; heap := heap w |}).
Proof.
  intros data client.
  destruct (ModelVersion.from_dict "app-1" data client) as [v|e] eqn:Hv;
    [|vm_compute in Hv; discriminate].
  exists v. split; [reflexivity|].
  exact (version_describe_addresses "app-1" data client v Hv).
Defined.
End ModelFurtherExamples.

(** ** Listings, further *)

Section ListingsFurther.
Context `{Platform}.
Implicit Types (w : World Model.t) (client : Client)
  (rs : list (gmap string Any)) (ms : list Model.t).

Lemma model_items_app (base : nat) ms (ms' : list Model.t) :
  model_items base (ms ++ ms') =
  model_items base ms ++ model_items (base + length ms) ms'.
Proof.
  revert base. induction ms as [|m ms IH]; intros base; simpl.
  - by rewrite Nat.add_0_r.
  - rewrite !model_items_cons, IH. simpl. by rewrite Nat.add_succ_r.
Qed.

(** The comprehension of [search] after a prefix of valid records: their
    models are in the store and in the dict, the rest is still to do. *)
Lemma search_comprehension_app client (pre rest : list (gmap string Any)) ms
    (acc : dict nat) w :
  Forall2 (fun r m => Model.model_validate r = Ok m) pre ms ->
  ModelBrowser.search_comprehension client (pre ++ rest) acc w =
  ModelBrowser.search_comprehension client rest
    (insert_items (model_items (length (heap w)) ms) acc)
    {| remote := remote w; trace := trace w;
       heap := heap w ++ map (Model.set_client client) ms |}.
Proof.
  intros Hall. revert acc w.
  induction Hall as [|r m pre ms Hr Hall IH]; intros acc w.
  - simpl. rewrite app_nil_r. by destruct w.
  - simpl. unfold bind at 1. unfold lift at 1.
    pose proof (Model_validate_model_id r m Hr) as Hid.
    unfold getitem. rewrite Hid.
    unfold bind at 1. rewrite from_dict_run, Hr.
    unfold bind at 1. unfold lift at 1. simpl.
    rewrite IH. simpl. rewrite length_app. simpl.
    rewrite Nat.add_1_r, <- app_assoc. done.
Qed.

(** The comprehension reads the store and nothing else of the world, and
    changes nothing but the store. *)
Lemma search_comprehension_store client rs (acc : dict nat) w :
  exists (r : Result (dict nat)) (store : list Model.t),
    forall w0,
      heap w0 = heap w ->
      ModelBrowser.search_comprehension client rs acc w0 =
      (r, {| remote := remote w0; trace := trace w0; heap := store |}).
Proof.
  revert acc w. induction rs as [|r rs IH]; intros acc w.
  - exists (Ok acc), (heap w). intros [s0 t0 h0] Hheap. simpl in *. by subst.
  - simpl. destruct (getitem r "model_id") as [key|e] eqn:Hkey.
    + destruct (Model.model_validate r) as [m|e] eqn:Hr.
      * destruct (ModelBrowser.str_key key) as [k|e] eqn:Hk.
        -- destruct (IH (dict_setitem k (length (heap w)) acc)
                       {| remote := remote w; trace := trace w;
                          heap := heap w ++ [Model.set_client client m] |})
             as (r' & store & Hrest).
           exists r', store. intros w0 Hheap.
           unfold bind, lift. rewrite from_dict_run, Hr, Hk, Hheap.
           by rewrite Hrest.
        -- exists (Raise e), (heap w ++ [Model.set_client client m]).
           intros w0 Hheap.
           unfold bind, lift. by rewrite from_dict_run, Hr, Hk, Hheap.
      * exists (Raise e), (heap w). intros [s0 t0 h0] Hheap. simpl in *. subst.
        unfold bind, lift. by rewrite from_dict_run, Hr.
    + exists (Raise e), (heap w). intros [s0 t0 h0] Hheap. simpl in *. by subst.
Qed.

(** A record without [model_id] fails the validation at that location. *)
Lemma Model_validate_missing_model_id (data : gmap string Any) :
  data !! "model_id" = None ->
  exists locs,
    Model.model_validate data = Raise (ValidationError "Model" locs)
    /\ "model_id" ∈ locs.
Proof.
  intros Hid. unfold Model.model_validate.
  rewrite (validate_field_single "model_id"), Hid.
  destruct (validate_field ["app_id"; "project_id"] _ _); simpl.
  - eexists. split; [reflexivity|]. by repeat constructor.
  - eexists. split; [reflexivity|]. by repeat constructor.
Qed.
End ListingsFurther.

(** X19.  [search] stops at the first record it cannot use.  A record
    without a [model_id] entry raises [KeyError] for that key, before the
    record is validated; a record that has one and does not validate raises
    its validation error.  The models built from the records before it are
    in the object store by then, and no mapping is returned. *)
Theorem search_first_offending_record `{Platform} (self : ModelBrowser.t)
    (query : string) (w : World Model.t) (s' : Remote)
    (pre : list (gmap string Any)) (r : gmap string Any)
    (post : list (gmap string Any)) (ms : list Model.t) :
  search_models_for_project (search (ModelBrowser.__client self))
    (ModelBrowser.__app_id self) query (remote w) = (Ok (pre ++ r :: post), s') ->
  Forall2 (fun r m => Model.model_validate r = Ok m) pre ms ->
  let w' := {| remote := s';
               trace := trace w ++ [SearchModelsForProject
                                      (ModelBrowser.__app_id self) query];
               heap := heap w ++
                       map (Model.set_client (ModelBrowser.__client self)) ms |} in
  (r !! "model_id" = None ->
   ModelBrowser.search self query w = (Raise (KeyError "model_id"), w'))
  /\ (forall e,
        is_Some (r !! "model_id") ->
        Model.model_validate r = Raise e ->
        ModelBrowser.search self query w = (Raise e, w')).
Proof.
  intros Hsearch Hpre w'. subst w'.
  split; [intros Hid|intros e [key Hkey] Hr];
    unfold ModelBrowser.search, call_search_models_for_project;
    (erewrite bind_ok; [|by apply request_run]);
    unfold bind at 1;
    rewrite (search_comprehension_app _ pre (r :: post) ms) by done;
    simpl; unfold bind, lift, getitem.
  - by rewrite Hid.
  - by rewrite Hkey, from_dict_run, Hr.
Qed.

(** X20.  The deprecated call of a browser and [search] differ in the
    endpoint they ask and in nothing else: when the two endpoints return
    the same records, the two methods return the same result, mapping or
    exception, and leave the same object store. *)
Theorem call_agrees_with_search `{Platform} `{!Endpoints} (self : ModelBrowser.t)
    (query : string) (w : World Model.t) (rs : list (gmap string Any))
    (s1 s2 : Remote) :
  get_models_for_app (ModelBrowser.__client self) (ModelBrowser.__app_id self)
    None (remote w) = (Ok rs, s1) ->
  search_models_for_project (search (ModelBrowser.__client self))
    (ModelBrowser.__app_id self) query (remote w) = (Ok rs, s2) ->
  exists (result : Result (dict nat)) (store : list Model.t),
    ModelBrowser.__call__ self w =
      (result, {| remote := s1; trace := trace w; heap := store |})
    /\ ModelBrowser.search self query w =
       (result,
        {| remote := s2;
           trace := trace w ++ [SearchModelsForProject
                                  (ModelBrowser.__app_id self) query];
           heap := store |}).
Proof.
  intros Hlisted Hsearch.
  destruct (search_comprehension_store (ModelBrowser.__client self) rs [] w)
    as (r & store & Hcomp).
  exists (match r with Ok d => Ok (NamedMapping d) | Raise e => Raise e end), store.
  split.
  - unfold ModelBrowser.__call__.
    erewrite bind_ok; [|unfold serve; by rewrite Hlisted].
    unfold bind. rewrite Hcomp by done. by destruct r.
  - unfold ModelBrowser.search, call_search_models_for_project.
    erewrite bind_ok; [|by apply request_run].
    unfold bind. rewrite Hcomp by done. by destruct r.
Qed.

Section DirectoryListings.
Context `{Platform} `{!Endpoints}.
Implicit Types (w : World Model.t) (client : Client)
  (rs : list (gmap string Any)) (ms : list Model.t).

(** The comprehension of [ModelDirectory.models] after a prefix of valid
    records. *)
Lemma models_comprehension_app client (pre rest : list (gmap string Any)) ms
    (acc : dict nat) w :
  Forall2 (fun r m => Model.model_validate r = Ok m) pre ms ->
  ModelDirectory.models_comprehension client (pre ++ rest) acc w =
  ModelDirectory.models_comprehension client rest
    (insert_items (model_items (length (heap w)) ms) acc)
    {| remote := remote w; trace := trace w;
       heap := heap w ++ map (Model.set_client client) ms |}.
Proof.
  intros Hall. revert acc w.
  induction Hall as [|r m pre ms Hr Hall IH]; intros acc w.
  - simpl. rewrite app_nil_r. by destruct w.
  - simpl. unfold bind at 1. rewrite from_dict_run, Hr.
    unfold bind at 1.
    erewrite load_some;
      [|simpl; rewrite lookup_app_r by lia; by rewrite Nat.sub_diag].
    rewrite IH. simpl. rewrite length_app. simpl.
    rewrite Nat.add_1_r, <- app_assoc. done.
Qed.

Lemma directories_comprehension_run {Obj : Type} client rs
    (children : list ModelDirectory.t) (acc : dict ModelDirectory.t)
    (w : World Obj) :
  Forall2 (fun r child => ModelDirectory.from_dict r client = Ok child)
    rs children ->
  ModelDirectory.directories_comprehension client rs acc w =
  (Ok (insert_items (directory_items children) acc), w).
Proof.
  intros Hall. revert acc.
  induction Hall as [|r child rs children Hr Hall IH]; intros acc; simpl; [done|].
  unfold bind at 1. unfold lift at 1. rewrite Hr. apply IH.
Qed.

Lemma directory_items_keys (children : list ModelDirectory.t) :
  (directory_items children).*1 = map ModelDirectory.directory_id children.
Proof. unfold directory_items. induction children; simpl; by f_equal. Qed.

Lemma directory_items_values (children : list ModelDirectory.t) :
  (directory_items children).*2 = children.
Proof. unfold directory_items. induction children; simpl; by f_equal. Qed.
End DirectoryListings.

(** X21.  [models] of a directory asks for the models of the directory's
    app filtered by the directory's own [directory_id], builds one [Model]
    per record with the directory's client, and keys each by the
    [model_id] of the model built.  A record without [model_id] therefore
    fails as a validation error located at [model_id], where the browser's
    comprehension raises [KeyError]. *)
Theorem models_of_directory `{Platform} `{!Endpoints} (self : ModelDirectory.t)
    (client : Client) (w : World Model.t) (rs : list (gmap string Any))
    (s' : Remote) :
  ModelDirectory.__client self = Some client ->
  get_models_for_app client (ModelDirectory.app_id self)
    (Some (ModelDirectory.directory_id self)) (remote w) = (Ok rs, s') ->
  (forall ms,
     Forall2 (fun r m => Model.model_validate r = Ok m) rs ms ->
     ModelDirectory.models self w =
     (Ok (dict_of_items (model_items (length (heap w)) ms)),
      {| remote := s'; trace := trace w;
         heap := heap w ++ map (Model.set_client client) ms |}))
  /\ (forall pre r post ms,
        rs = pre ++ r :: post ->
        Forall2 (fun r m => Model.model_validate r = Ok m) pre ms ->
        r !! "model_id" = None ->
        exists locs,
          "model_id" ∈ locs
          /\ ModelDirectory.models self w =
             (Raise (ValidationError "Model" locs),
              {| remote := s'; trace := trace w;
                 heap := heap w ++ map (Model.set_client client) ms |})).
Proof.
  intros Hclient Hlisted. split.
  - intros ms Hall. unfold ModelDirectory.models. rewrite Hclient.
    erewrite bind_ok; [|unfold serve; by rewrite Hlisted].
    unfold bind at 1.
    rewrite <- (app_nil_r rs), (models_comprehension_app _ rs [] ms) by done.
    done.
  - intros pre r post ms -> Hpre Hid.
    destruct (Model_validate_missing_model_id r Hid) as (locs & Hr & Hloc).
    exists locs. split; [done|].
    unfold ModelDirectory.models. rewrite Hclient.
    erewrite bind_ok; [|unfold serve; by rewrite Hlisted].
    unfold bind at 1.
    rewrite (models_comprehension_app _ pre (r :: post) ms) by done.
    simpl. unfold bind. by rewrite from_dict_run, Hr.
Qed.

(** X22.  [directories] asks for the directories of the directory's app
    with the directory itself as the parent, and changes nothing locally.
    A remote failure is raised as it is.  When the records validate, each
    child is stored under its [directory_id] and holds the client of the
    parent; with pairwise distinct ids the values are the children in
    listing order. *)
Theorem directories_of_directory `{Platform} `{!Endpoints}
    (as_directory : ModelDirectory.t -> Directory) (self : ModelDirectory.t)
    (client : Client) (Obj : Type) (w : World Obj) :
  ModelDirectory.__client self = Some client ->
  (forall e s',
     get_model_directories_for_app client (ModelDirectory.app_id self)
       (Some (as_directory self)) (remote w) = (Raise e, s') ->
     ModelDirectory.directories as_directory self w =
     (Raise e, {| remote := s'; trace := trace w; heap := heap w |}))
  /\ (forall rs s' children,
        get_model_directories_for_app client (ModelDirectory.app_id self)
          (Some (as_directory self)) (remote w) = (Ok rs, s') ->
        Forall2 (fun r child => ModelDirectory.from_dict r client = Ok child)
          rs children ->
        exists d,
          ModelDirectory.directories as_directory self w =
          (Ok d, {| remote := s'; trace := trace w; heap := heap w |})
          /\ d = dict_of_items (directory_items children)
          /\ Forall (fun child => ModelDirectory.__client child = Some client)
               children
          /\ (NoDup (map ModelDirectory.directory_id children) ->
              dict_keys d = map ModelDirectory.directory_id children
              /\ dict_values d = children)).
Proof.
  intros Hclient. split.
  - intros e s' Hlisted. unfold ModelDirectory.directories. rewrite Hclient.
    erewrite bind_raise; [done|unfold serve; by rewrite Hlisted].
  - intros rs s' children Hlisted Hall.
    exists (dict_of_items (directory_items children)). split_and!.
    + unfold ModelDirectory.directories. rewrite Hclient.
      erewrite bind_ok; [|unfold serve; by rewrite Hlisted].
      erewrite bind_ok; [|by apply directories_comprehension_run].
      done.
    + done.
    + apply Forall_forall. intros child Hchild.
      apply list_elem_of_lookup in Hchild as [i Hi].
      destruct (Forall2_lookup_r _ _ _ _ _ Hall Hi) as (r & _ & Hr).
      unfold ModelDirectory.from_dict in Hr.
      destruct (ModelDirectory.model_validate r); [|done].
      by injection Hr as <-.
    + intros Hdistinct. unfold dict_of_items.
      rewrite insert_items_distinct by (by rewrite directory_items_keys).
      simpl. split; [apply directory_items_keys|apply directory_items_values].
Qed.

(** X23.  [ModelDirectoryBuilder.build] has no precondition: it sends the
    create call with whatever the builder holds (the empty name and no
    parent when no setter was called), then the fetch for the identifier
    that came back, and validates the fetched record into a directory that
    holds the builder's client.  A failure of either call is raised as it
    is, and after a failed create no fetch is made. *)
Theorem directory_build `{Platform} `{!Endpoints} (b : ModelDirectoryBuilder.t)
    (Obj : Type) (w : World Obj) :
  let client := ModelDirectoryBuilder.__client b in
  let app_id := ModelDirectoryBuilder._app_id b in
  let create :=
    create_model_directory client app_id (ModelDirectoryBuilder._name b)
      (ModelDirectoryBuilder._parent b) (remote w) in
  (forall client' app_id',
     ModelDirectoryBuilder._name (ModelDirectoryBuilder.__init__ client' app_id')
       = ""
     /\ ModelDirectoryBuilder._parent
          (ModelDirectoryBuilder.__init__ client' app_id') = None)
  /\ (forall e s1,
        create = (Raise e, s1) ->
        ModelDirectoryBuilder.build b w =
        (Raise e, {| remote := s1; trace := trace w; heap := heap w |}))
  /\ (forall directory_id s1 e s2,
        create = (Ok directory_id, s1) ->
        get_model_directory client app_id directory_id s1 = (Raise e, s2) ->
        ModelDirectoryBuilder.build b w =
        (Raise e, {| remote := s2; trace := trace w; heap := heap w |}))
  /\ (forall directory_id s1 record s2,
        create = (Ok directory_id, s1) ->
        get_model_directory client app_id directory_id s1 = (Ok record, s2) ->
        ModelDirectoryBuilder.build b w =
        (ModelDirectory.from_dict record client,
         {| remote := s2; trace := trace w; heap := heap w |})).
Proof.
  intros client app_id create. subst client app_id create. split_and!.
  - done.
  - intros e s1 Hcreate. unfold ModelDirectoryBuilder.build.
    erewrite bind_raise; [done|unfold serve; by rewrite Hcreate].
  - intros directory_id s1 e s2 Hcreate Hget. unfold ModelDirectoryBuilder.build.
    erewrite bind_ok; [|unfold serve; by rewrite Hcreate].
    erewrite bind_raise; [done|unfold serve; simpl; by rewrite Hget].
  - intros directory_id s1 record s2 Hcreate Hget.
    unfold ModelDirectoryBuilder.build.
    erewrite bind_ok; [|unfold serve; by rewrite Hcreate].
    erewrite bind_ok; [|unfold serve; simpl; by rewrite Hget].
    done.
Qed.

(** X24.  Looking a model up by name builds a new object every time: two
    lookups of the same name give two references, and a [rename] through
    the first leaves the name held by the second as it was fetched. *)
Theorem lookups_are_not_shared `{Platform} `{!Endpoints} (self : ModelBrowser.t)
    (name new_name : string) (w : World Model.t) (record : gmap string Any)
    (fields : Model.t) (s1 s2 s3 : Remote) :
  let client := ModelBrowser.__client self in
  get_model_by_name client (ModelBrowser.__app_id self) name (remote w) =
    (Ok record, s1) ->
  get_model_by_name client (ModelBrowser.__app_id self) name s1 =
    (Ok record, s2) ->
  Model.model_validate record = Ok fields ->
  edit_model (component client) (Model.app_id fields) (Model.model_id fields)
    (Some new_name) None None s2 = (Ok tt, s3) ->
  (first <- ModelBrowser.__getitem__ self name ;;
   second <- ModelBrowser.__getitem__ self name ;;
   Model.rename first new_name ;;;
   ret (first, second)) w =
  (Ok (length (heap w), S (length (heap w))),
   {| remote := s3;
      trace := trace w ++ [EditModel (Model.app_id fields)
                             (Model.model_id fields) (Some new_name) None None];
      heap := heap w ++ [Model.set_name new_name (Model.set_client client fields);
                         Model.set_client client fields] |}).
Proof.
  intros client Hfirst Hsecond Hfields Hedit.
  set (c := ModelBrowser.__client self) in *. subst client.
  assert (forall w0 s0 s0',
            get_model_by_name c (ModelBrowser.__app_id self) name s0 =
              (Ok record, s0') ->
            remote w0 = s0 ->
            ModelBrowser.__getitem__ self name w0 =
            (Ok (length (heap w0)),
             {| remote := s0'; trace := trace w0;
                heap := heap w0 ++ [Model.set_client c fields] |}))
    as Hlookup.
  { intros w0 s0 s0' Hget <-. unfold ModelBrowser.__getitem__. fold c.
    erewrite bind_ok; [|unfold serve; by rewrite Hget].
    by rewrite from_dict_run, Hfields. }
  erewrite bind_ok; [|exact (Hlookup w (remote w) s1 Hfirst eq_refl)].
  erewrite bind_ok;
    [|exact (Hlookup {| remote := s1; trace := trace w;
                        heap := heap w ++ [Model.set_client c fields] |}
               s1 s2 Hsecond eq_refl)].
  set (w2 := {| remote := s2; trace := trace w;
                heap := (heap w ++ [Model.set_client c fields]) ++
                        [Model.set_client c fields] |}).
  assert (heap w2 !! length (heap w) = Some (Model.set_client c fields))
    as Hself.
  { simpl. rewrite <- app_assoc. rewrite lookup_app_r by lia.
    by rewrite Nat.sub_diag. }
  erewrite bind_ok;
    [|by apply (rename_run _ _ c new_name w2 (Ok tt) s3 Hself)].
  unfold ret. simpl. f_equal.
  - by rewrite length_app, Nat.add_1_r.
  - f_equal. rewrite <- app_assoc.
    rewrite insert_app_r_alt by lia. rewrite Nat.sub_diag. done.
Qed.

Section ListingsFurtherExamples.
#[local] Existing Instance Demo.platform.
#[local] Existing Instance Demo.endpoints_listing.

Lemma search_first_offending_record_witness :
  let one := Demo.model_record "app_id" "app-1" "m-1" "Model One" in
  let nameless : gmap string Any := {[ "name" := PyStr "Model Two" ]} in
  let client := Demo.client_up [] [one; nameless] in
  let browser := ModelBrowser.__init__ "app-1" client in
  (search_models_for_project (search (ModelBrowser.__client browser))
     (ModelBrowser.__app_id browser) "model" (remote Demo.empty_world) =
     (Ok ([one] ++ nameless :: []), 1)
   /\ Forall2 (fun r m => Model.model_validate r = Ok m) [one] [Demo.model_fields])
  /\ ModelBrowser.search browser "model" Demo.empty_world =
     (Raise (KeyError "model_id"),
      {| remote := 1; trace := [SearchModelsForProject "app-1" "model"];
         heap := [Demo.a_model client] |}).
Proof.
  intros one nameless client browser.
  assert (search_models_for_project (search (ModelBrowser.__client browser))
            (ModelBrowser.__app_id browser) "model" (remote Demo.empty_world) =
          (Ok ([one] ++ nameless :: []), 1)) as Hsearch by reflexivity.
  assert (Forall2 (fun r m => Model.model_validate r = Ok m)
            [one] [Demo.model_fields]) as Hpre.
  { constructor; [vm_compute; reflexivity|constructor]. }
  split; [by split|].
  destruct (search_first_offending_record browser "model" Demo.empty_world 1
              [one] nameless [] [Demo.model_fields] Hsearch Hpre)
    as (Hmissing & _).
  apply Hmissing. vm_compute. reflexivity.
Defined.

Lemma call_agrees_with_search_witness :
  let one := Demo.model_record "app_id" "app-1" "m-1" "Model One" in
  let client := Demo.client_up [] [one] in
  let browser := ModelBrowser.__init__ "app-1" client in
  (get_models_for_app (ModelBrowser.__client browser)
     (ModelBrowser.__app_id browser) None (remote Demo.empty_world) =
     (Ok [one], 1)
   /\ search_models_for_project (search (ModelBrowser.__client browser))
        (ModelBrowser.__app_id browser) "one" (remote Demo.empty_world) =
      (Ok [one], 1))
  /\ exists (result : Result (dict nat)) (store : list Model.t),
       ModelBrowser.__call__ browser Demo.empty_world =
         (result, {| remote := 1; trace := []; heap := store |})
       /\ ModelBrowser.search browser "one" Demo.empty_world =
          (result,
           {| remote := 1; trace := [SearchModelsForProject "app-1" "one"];
              heap := store |}).
Proof.
  intros one client browser.
  assert (get_models_for_app (ModelBrowser.__client browser)
            (ModelBrowser.__app_id browser) None (remote Demo.empty_world) =
          (Ok [one], 1)) as Hlisted by reflexivity.
  assert (search_models_for_project (search (ModelBrowser.__client browser))
            (ModelBrowser.__app_id browser) "one" (remote Demo.empty_world) =
          (Ok [one], 1)) as Hsearch by reflexivity.
  split; [by split|].
  exact (call_agrees_with_search browser "one" Demo.empty_world [one] 1 1
           Hlisted Hsearch).
Defined.

Lemma models_of_directory_witness :
  let one := Demo.model_record "app_id" "app-1" "m-1" "Model One" in
  let client := Demo.client_up [] [] in
  let directory := Demo.a_directory client in
  (ModelDirectory.__client directory = Some client
   /\ get_models_for_app client "app-1" (Some "d-1") (remote Demo.empty_world) =
      (Ok [one], 1))
  /\ ModelDirectory.models directory Demo.empty_world =
     (Ok [("m-1", 0)],
      {| remote := 1; trace := []; heap := [Demo.a_model client] |}).
Proof.
  intros one client directory.
  assert (ModelDirectory.__client directory = Some client) as Hclient
    by reflexivity.
  assert (get_models_for_app client (ModelDirectory.app_id directory)
            (Some (ModelDirectory.directory_id directory))
            (remote Demo.empty_world) = (Ok [one], 1)) as Hlisted by reflexivity.
  split; [by split|].
  destruct (models_of_directory directory client Demo.empty_world [one] 1
              Hclient Hlisted) as (Hvalid & _).
  apply (Hvalid [Demo.model_fields]).
  constructor; [vm_compute; reflexivity|constructor].
Defined.

Lemma directories_of_directory_witness :
  let record := Demo.directory_record "app_id" "app-1" in
  let client := Demo.client_up [] [] in
  let directory := Demo.a_directory client in
  ModelDirectory.__client directory = Some client
  /\ exists d,
       ModelDirectory.directories Demo.as_directory directory Demo.empty_world =
       (Ok d, {| remote := 1; trace := []; heap := [] |})
       /\ d = [("d-1", Demo.a_directory client)].
Proof.
  intros record client directory.
  assert (ModelDirectory.__client directory = Some client) as Hclient
    by reflexivity.
  split; [exact Hclient|].
  destruct (directories_of_directory Demo.as_directory directory client
              Model.t Demo.empty_world Hclient) as (_ & Hlisted).
  destruct (Hlisted [record] 1 [Demo.a_directory client] eq_refl)
    as (d & Hrun & Hd & _).
  { constructor; [vm_compute; reflexivity|constructor]. }
  exists d. split; [exact Hrun|exact Hd].
Defined.

Lemma directory_build_witness :
  let client := Demo.client_up [] [] in
  let b := ModelDirectoryBuilder.__init__ client "app-1" in
  ModelDirectoryBuilder.build b Demo.empty_world =
  (Ok (Demo.a_directory client), {| remote := 2; trace := []; heap := [] |}).
Proof.
  intros client b.
  destruct (directory_build b Model.t Demo.empty_world) as (_ & _ & _ & Hok).
  exact (Hok "d-1" 1 (Demo.directory_record "app_id" "app-1") 2 eq_refl eq_refl).
Defined.

Lemma lookups_are_not_shared_witness :
  let client := Demo.client_up [] [] in
  let browser := ModelBrowser.__init__ "app-1" client in
  let record := Demo.model_record "app_id" "app-1" "m-1" "Model One" in
  (get_model_by_name client "app-1" "Model One" 0 = (Ok record, 1)
   /\ get_model_by_name client "app-1" "Model One" 1 = (Ok record, 2)
   /\ Model.model_validate record = Ok Demo.model_fields
   /\ edit_model (component client) "app-1" "m-1" (Some "Renamed") None None 2 =
      (Ok tt, 3))
  /\ (first <- ModelBrowser.__getitem__ browser "Model One" ;;
      second <- ModelBrowser.__getitem__ browser "Model One" ;;
      Model.rename first "Renamed" ;;;
      ret (first, second)) Demo.empty_world =
     (Ok (0, 1),
      {| remote := 3;
         trace := [EditModel "app-1" "m-1" (Some "Renamed") None None];
         heap := [Model.set_name "Renamed" (Demo.a_model client);
                  Demo.a_model client] |}).
Proof.
  intros client browser record.
  split; [by split_and!|].
  exact (lookups_are_not_shared browser "Model One" "Renamed" Demo.empty_world
           record Demo.model_fields 1 2 3 eq_refl eq_refl eq_refl eq_refl).
Defined.
End ListingsFurtherExamples.
